(** * TileForge: tile calculator, tile store, download scheduler and facade

    A shallow embedding of [src/core/TileCalculator.js],
    [src/core/TileDatabase.js], [src/core/TileDownloader.js] and
    [src/TileForge.js], with the properties of the specification that
    concern them.

    Conventions of the embedding:
    - a JavaScript number holding a coordinate in degrees is a rational
      ([Q]); decimal literals such as [85.051129] are exact.  The few
      operations of the code that leave the rationals ([Math.log],
      [Math.tan], [Math.cos], [Math.PI]) are taken over the real numbers.
      Rounding of IEEE doubles and [NaN] are not modelled;
    - tile indices, zoom levels, counters and timestamps are integers ([Z]);
    - a JavaScript [Map] is an association list in insertion order, since
      the code relies on that order (LRU eviction, iteration over jobs);
    - an SQL table is the list of its rows; the primary key is respected by
      the statements that write to it;
    - [Date.now()] and the outcome of a network fetch are inputs of the
      transition they occur in. *)

From Stdlib Require Import ZArith QArith Qround Qreals Qpower Reals Lra Lia.
From Stdlib Require Import String Ascii Bool.
From Stdlib Require Import List.
From Stdlib Require DecimalString DecimalPos DecimalZ.
Import ListNotations.

Set Implicit Arguments.

Local Open Scope Z_scope.

(* ================================================================== *)
(** * Tile coordinate calculator ([TileCalculator.js]) *)
(* ================================================================== *)

Module TileCalculator.

Record GeoBounds := mkBounds {
  north : Q;
  south : Q;
  east  : Q;
  west  : Q
}.

Record Tile := mkTile { x : Z; y : Z; z : Z }.

Record TileBounds := mkTileBounds {
  minX : Z; maxX : Z; minY : Z; maxY : Z; tbz : Z
}.

(** [Math.pow(2, zoom)] *)
Definition pow2 (zoom : Z) : Q := Qpower (2 # 1) zoom.

(** The [x] of [latLngToTile]:
    [Math.floor((lng + 180) / 360 * n)]. *)
Definition tileX (lng : Q) (zoom : Z) : Z :=
  let n := pow2 zoom in
  Qfloor (((lng + (180 # 1)) / (360 # 1)) * n)%Q.

(** [(1 - Math.log(Math.tan(latRad) + 1 / Math.cos(latRad)) / Math.PI) / 2],
    the fraction of the map height at which latitude [lat] lies. *)
Definition mercatorFraction (lat : Q) : R :=
  let latRad := (Q2R lat * PI / 180)%R in
  ((1 - ln (tan latRad + 1 / cos latRad) / PI) / 2)%R.

(** The [y] of [latLngToTile]:
    [Math.floor((1 - Math.log(...) / Math.PI) / 2 * n)]. *)
Definition tileY (lat : Q) (zoom : Z) : Z :=
  let n := pow2 zoom in
  Zfloor (mercatorFraction lat * Q2R n)%R.

Definition latLngToTile (lat lng : Q) (zoom : Z) : Tile :=
  {| x := tileX lng zoom; y := tileY lat zoom; z := zoom |}.

(** The argument of the logarithm in [latLngToTile], at the latitude
    [latRad] in radians. *)
Definition mercatorArgument (latRad : R) : R :=
  (tan latRad + 1 / cos latRad)%R.

(** [latLngToTile] is also applied to the latitude that [tileToLatLng]
    returns, an arc tangent and no decimal number: [mercatorFractionR] and
    [tileYR] are the fraction and the [y] of [latLngToTile] at a real
    latitude; [mercatorFraction] and [tileY] are their values at a rational
    one. *)
Definition mercatorFractionR (lat : R) : R :=
  let latRad := (lat * PI / 180)%R in
  ((1 - ln (tan latRad + 1 / cos latRad) / PI) / 2)%R.

Definition tileYR (lat : R) (zoom : Z) : Z :=
  let n := pow2 zoom in
  Zfloor (mercatorFractionR lat * Q2R n)%R.

Record LatLng := mkLatLng { ll_lat : R; ll_lng : Q }.

(** [tileToLatLng]: the top-left corner of a tile. *)
Definition tileToLatLng (x y z : Z) : LatLng :=
  let n := pow2 z in
  let lng := (inject_Z x / n * (360 # 1) - (180 # 1))%Q in
  let latRad := atan (sinh (PI * (1 - 2 * IZR y / Q2R n)))%R in
  let lat := (latRad * 180 / PI)%R in
  {| ll_lat := lat; ll_lng := lng |}.

Definition getTileBounds (bounds : GeoBounds) (zoom : Z) : TileBounds :=
  let nwTile := latLngToTile (north bounds) (west bounds) zoom in
  let seTile := latLngToTile (south bounds) (east bounds) zoom in
  {| minX := Z.min (x nwTile) (x seTile);
     maxX := Z.max (x nwTile) (x seTile);
     minY := Z.min (y nwTile) (y seTile);
     maxY := Z.max (y nwTile) (y seTile);
     tbz  := zoom |}.

(** The values taken by [for (let i = lo; i <= hi; i++)]. *)
Definition zrange (lo hi : Z) : list Z :=
  map (fun i => lo + Z.of_nat i) (seq 0 (Z.to_nat (hi - lo + 1))).

(** The two inner loops of [getTileList] for one zoom level. *)
Definition tilesOfBounds (tb : TileBounds) : list Tile :=
  flat_map (fun x => map (fun y => mkTile x y (tbz tb))
                         (zrange (minY tb) (maxY tb)))
           (zrange (minX tb) (maxX tb)).

Definition getTileList (bounds : GeoBounds) (minZoom maxZoom : Z) : list Tile :=
  flat_map (fun z => tilesOfBounds (getTileBounds bounds z))
           (zrange minZoom maxZoom).

Definition calculateTileCount (bounds : GeoBounds) (minZoom maxZoom : Z) : Z :=
  fold_left
    (fun count z =>
       let tileBounds := getTileBounds bounds z in
       let width := maxX tileBounds - minX tileBounds + 1 in
       let height := maxY tileBounds - minY tileBounds + 1 in
       count + width * height)
    (zrange minZoom maxZoom) 0.

Definition isValidTile (x y z : Z) : bool :=
  if (z <? 0) || (z >? 22) then false
  else
    let maxTile := 2 ^ z - 1 in
    (x >=? 0) && (x <=? maxTile) && (y >=? 0) && (y <=? maxTile).

Definition Qltb (a b : Q) : bool := negb (Qle_bool b a).

(** Latitude limit written in the code: [85.051129]. *)
Definition latLimit : Q := 85051129 # 1000000.

Definition isValidBounds (bounds : GeoBounds) : bool :=
  let north := north bounds in
  let south := south bounds in
  let east := east bounds in
  let west := west bounds in
  if Qltb north (- latLimit) || Qltb latLimit north then false
  else if Qltb south (- latLimit) || Qltb latLimit south then false
  else if Qltb east (- (180 # 1)) || Qltb (180 # 1) east then false
  else if Qltb west (- (180 # 1)) || Qltb (180 # 1) west then false
  else if Qle_bool north south then false
  else true.

Definition isValidZoomRange (minZoom maxZoom : Z) : bool :=
  if (minZoom <? 0) || (minZoom >? 22) then false
  else if (maxZoom <? 0) || (maxZoom >? 22) then false
  else if minZoom >? maxZoom then false
  else true.

(** A latitude lies on the square Web Mercator map when its Mercator
    fraction is in [0, 1). *)
Definition onMercatorMap (lat : Q) : Prop :=
  (0 <= mercatorFraction lat < 1)%R.

(** The property the specification states of tile ranges: ordered, and
    with all four indices inside [[0, 2^z - 1]]. *)
Definition tileRangeInGrid (b : GeoBounds) (zoom : Z) : Prop :=
  let tb := getTileBounds b zoom in
  minX tb <= maxX tb /\ minY tb <= maxY tb /\
  0 <= minX tb <= 2 ^ zoom - 1 /\ 0 <= maxX tb <= 2 ^ zoom - 1 /\
  0 <= minY tb <= 2 ^ zoom - 1 /\ 0 <= maxY tb <= 2 ^ zoom - 1.

End TileCalculator.

(* ================================================================== *)
(** * Default options ([config/defaults.js]) *)
(* ================================================================== *)

Module Defaults.

Definition maxConcurrentDownloads : Z := 4.
Definition rateLimit : Z := 500.   (* milliseconds between requests *)
Definition cacheSize : Z := 1000.  (* number of tiles to keep in memory *)
Definition averageTileSizeKB : Q := 15 # 1.   (* average tile size in KB *)
Definition downloadTimePerTile : Q := 1 # 2.  (* seconds per tile *)

(** [options.field || defaults.field] on an optional number: a missing
    field and the number 0 both give the default. *)
Definition orDefault (o : option Z) (d : Z) : Z :=
  match o with
  | Some v => if v =? 0 then d else v
  | None => d
  end.

End Defaults.

(* ================================================================== *)
(** * Characters of a string *)
(* ================================================================== *)

Module Text.

(** [s.includes(c)] for a single character [c]. *)
Fixpoint occurs (c : ascii) (s : string) : bool :=
  match s with
  | EmptyString => false
  | String a s' => Ascii.eqb a c || occurs c s'
  end.

End Text.

(* ================================================================== *)
(** * JavaScript [Map] with string keys *)
(* ================================================================== *)

(** Entries are kept in insertion order.  [set] on a key that is present
    replaces the value where the key stands; on a new key it appends. *)
Module JsMap.

Section Ops.
Variable V : Type.

Definition t := list (string * V).

Definition has (k : string) (m : t) : bool :=
  existsb (fun e => String.eqb (fst e) k) m.

Definition get (k : string) (m : t) : option V :=
  option_map snd (find (fun e => String.eqb (fst e) k) m).

Definition delete (k : string) (m : t) : t :=
  filter (fun e => negb (String.eqb (fst e) k)) m.

Fixpoint set (k : string) (v : V) (m : t) : t :=
  match m with
  | [] => [(k, v)]
  | (k', v') :: m' =>
      if String.eqb k' k then (k, v) :: m' else (k', v') :: set k v m'
  end.

Definition size (m : t) : Z := Z.of_nat (length m).

(** [m.keys().next().value] *)
Definition firstKey (m : t) : option string :=
  match m with
  | [] => None
  | (k, _) :: _ => Some k
  end.

(** The entry inserted last: the most recently used one of an LRU cache. *)
Definition lastKey (m : t) : option string :=
  match rev m with
  | [] => None
  | (k, _) :: _ => Some k
  end.

Definition keys (m : t) : list string := map fst m.

End Ops.

End JsMap.

(* ================================================================== *)
(** * Tile store and job registry ([TileDatabase.js]) *)
(* ================================================================== *)

Module TileDatabase.
Import TileCalculator.

Definition Buffer := list Byte.byte.

(** Table [tiles], primary key [(z, x, y, source)]. *)
Record TileRow := mkTileRow {
  row_z : Z;
  row_x : Z;
  row_y : Z;
  row_source : string;
  row_timestamp : Z;
  row_data : Buffer
}.

Inductive JobStatus :=
| pending
| running
| completed
| completed_with_errors
| cancelled.

(** Table [download_jobs], primary key [id]. *)
Record JobRow := mkJobRow {
  id : string;
  name : string;
  source : string;
  bounds : GeoBounds;
  minZoom : Z;
  maxZoom : Z;
  totalTiles : Z;
  downloadedTiles : Z;
  status : JobStatus;
  country : option string;
  city : option string;
  createdAt : Z;
  updatedAt : Z
}.

Record t := mkDb {
  tiles : list TileRow;
  download_jobs : list JobRow;
  cache : JsMap.t Buffer;
  maxCacheSize : Z
}.

Definition with_tiles (rows : list TileRow) (db : t) : t :=
  mkDb rows (download_jobs db) (cache db) (maxCacheSize db).

Definition with_jobs (rows : list JobRow) (db : t) : t :=
  mkDb (tiles db) rows (cache db) (maxCacheSize db).

Definition with_cache (c : JsMap.t Buffer) (db : t) : t :=
  mkDb (tiles db) (download_jobs db) c (maxCacheSize db).

(** [new TileDatabase({cacheSize})] on an empty database file. *)
Definition create (cacheSize : option Z) : t :=
  mkDb [] [] [] (Defaults.orDefault cacheSize Defaults.cacheSize).

(** String conversion of an integer inside a template literal. *)
Definition showZ (n : Z) : string := DecimalString.NilZero.string_of_int (Z.to_int n).

Definition getCacheKey (z x y : Z) (source : string) : string :=
  (source ++ "/" ++ showZ z ++ "/" ++ showZ x ++ "/" ++ showZ y)%string.

(** ** Prepared statements on [tiles] *)

Definition tileKeyIs (z x y : Z) (source : string) (r : TileRow) : bool :=
  (row_z r =? z) && (row_x r =? x) && (row_y r =? y)
  && String.eqb (row_source r) source.

(** [SELECT data FROM tiles WHERE z = ? AND x = ? AND y = ? AND source = ?] *)
Definition stmt_getTile (z x y : Z) (source : string) (rows : list TileRow)
  : option TileRow :=
  find (tileKeyIs z x y source) rows.

(** [SELECT 1 FROM tiles WHERE ... LIMIT 1] *)
Definition stmt_hasTile (z x y : Z) (source : string) (rows : list TileRow)
  : bool :=
  existsb (tileKeyIs z x y source) rows.

(** [INSERT OR REPLACE INTO tiles ...]: a row with the same primary key is
    removed before the new row is inserted. *)
Definition stmt_insertTile (z x y : Z) (source : string) (timestamp : Z)
  (data : Buffer) (rows : list TileRow) : list TileRow :=
  filter (fun r => negb (tileKeyIs z x y source r)) rows
  ++ [mkTileRow z x y source timestamp data].

(** [DELETE FROM tiles WHERE z = ? AND x = ? AND y = ? AND source = ?] *)
Definition stmt_deleteTile (z x y : Z) (source : string)
  (rows : list TileRow) : list TileRow :=
  filter (fun r => negb (tileKeyIs z x y source r)) rows.

Definition inRange (source : string) (zLo zHi xLo xHi yLo yHi : Z)
  (r : TileRow) : bool :=
  String.eqb (row_source r) source
  && (row_z r >=? zLo) && (row_z r <=? zHi)
  && (row_x r >=? xLo) && (row_x r <=? xHi)
  && (row_y r >=? yLo) && (row_y r <=? yHi).

(** [DELETE FROM tiles WHERE source = ? AND z >= ? AND z <= ? AND x >= ?
    AND x <= ? AND y >= ? AND y <= ?]; the second component is
    [result.changes], the number of rows deleted. *)
Definition stmt_deleteTilesByJob (source : string)
  (zLo zHi xLo xHi yLo yHi : Z) (rows : list TileRow)
  : list TileRow * Z :=
  let kept :=
    filter (fun r => negb (inRange source zLo zHi xLo xHi yLo yHi r)) rows in
  (kept, Z.of_nat (length rows) - Z.of_nat (length kept)).

(** [SELECT COUNT( * ) FROM tiles WHERE source = ?] *)
Definition stmt_getTileCount (source : string) (rows : list TileRow) : Z :=
  Z.of_nat (length (filter (fun r => String.eqb (row_source r) source) rows)).

(** ** Cache *)

Definition manageCacheSize (db : t) : t :=
  if JsMap.size (cache db) >=? maxCacheSize db then
    match JsMap.firstKey (cache db) with
    | Some firstKey => with_cache (JsMap.delete firstKey (cache db)) db
    | None => db
    end
  else db.

(** ** Tile operations *)

Definition getTile (z x y : Z) (source : string) (db : t)
  : option Buffer * t :=
  let cacheKey := getCacheKey z x y source in
  match JsMap.get cacheKey (cache db) with
  | Some data =>
      (* Move to end (most recently used) *)
      let c := JsMap.delete cacheKey (cache db) in
      (Some data, with_cache (JsMap.set cacheKey data c) db)
  | None =>
      match stmt_getTile z x y source (tiles db) with
      | Some row =>
          let db1 := manageCacheSize db in
          (Some (row_data row),
           with_cache (JsMap.set cacheKey (row_data row) (cache db1)) db1)
      | None => (None, db)
      end
  end.

Definition hasTile (z x y : Z) (source : string) (db : t) : bool * t :=
  let cacheKey := getCacheKey z x y source in
  if JsMap.has cacheKey (cache db) then (true, db)
  else (stmt_hasTile z x y source (tiles db), db).

Definition saveTile (now : Z) (z x y : Z) (source : string) (data : Buffer)
  (db : t) : t :=
  let timestamp := now in
  let db1 :=
    with_tiles (stmt_insertTile z x y source timestamp data (tiles db)) db in
  let cacheKey := getCacheKey z x y source in
  let db2 := manageCacheSize db1 in
  with_cache (JsMap.set cacheKey data (cache db2)) db2.

Definition deleteTile (z x y : Z) (source : string) (db : t) : t :=
  let db1 := with_tiles (stmt_deleteTile z x y source (tiles db)) db in
  let cacheKey := getCacheKey z x y source in
  with_cache (JsMap.delete cacheKey (cache db1)) db1.

(** [deleteTilesForJob].  The function obtains [getTileBounds] of the tile
    calculator through a dynamic import; the loop and the cache sweep are
    modelled as written.  Iterating over the keys of a [Map] while deleting
    visits every key that was present, so the sweep is a filter. *)
Definition deleteTilesForJob (source : string) (bounds : GeoBounds)
  (minZoom maxZoom : Z) (db : t) : Z * t :=
  let '(rows, totalDeleted) :=
    fold_left
      (fun (acc : list TileRow * Z) z =>
         let '(rows, totalDeleted) := acc in
         let tileBounds := getTileBounds bounds z in
         let '(rows', changes) :=
           stmt_deleteTilesByJob source z z
             (minX tileBounds) (maxX tileBounds)
             (minY tileBounds) (maxY tileBounds) rows in
         (rows', totalDeleted + changes))
      (zrange minZoom maxZoom) (tiles db, 0) in
  let c :=
    filter (fun e => negb (String.prefix (source ++ "/")%string (fst e)))
           (cache db) in
  (totalDeleted, with_cache c (with_tiles rows db)).

Definition getTileCount (source : string) (db : t) : Z :=
  stmt_getTileCount source (tiles db).

Definition getTotalTileCount (db : t) : Z := Z.of_nat (length (tiles db)).

(** ** Job registry *)

Definition getJob (jobId : string) (db : t) : option JobRow :=
  find (fun j => String.eqb (id j) jobId) (download_jobs db).

(** [INSERT INTO download_jobs ...]: fails on a duplicate primary key. *)
Definition createDownloadJob (now : Z) (jobId name source : string)
  (bounds : GeoBounds) (minZoom maxZoom totalTiles : Z)
  (country city : option string) (db : t) : option t :=
  match getJob jobId db with
  | Some _ => None
  | None =>
      Some (with_jobs
              (download_jobs db ++
               [mkJobRow jobId name source bounds minZoom maxZoom totalTiles
                         0 pending country city now now]) db)
  end.

Definition updateRow (jobId : string) (f : JobRow -> JobRow) (db : t) : t :=
  with_jobs
    (map (fun j => if String.eqb (id j) jobId then f j else j)
         (download_jobs db)) db.

Definition set_progress (n now : Z) (j : JobRow) : JobRow :=
  mkJobRow (id j) (name j) (source j) (bounds j) (minZoom j) (maxZoom j)
           (totalTiles j) n (status j) (country j) (city j)
           (createdAt j) now.

Definition set_status (s : JobStatus) (now : Z) (j : JobRow) : JobRow :=
  mkJobRow (id j) (name j) (source j) (bounds j) (minZoom j) (maxZoom j)
           (totalTiles j) (downloadedTiles j) s (country j) (city j)
           (createdAt j) now.

Definition set_zoom (lo hi total now : Z) (j : JobRow) : JobRow :=
  mkJobRow (id j) (name j) (source j) (bounds j) lo hi total
           (downloadedTiles j) (status j) (country j) (city j)
           (createdAt j) now.

(** [UPDATE download_jobs SET downloadedTiles = ?, updatedAt = ? WHERE id = ?] *)
Definition updateJobProgress (now : Z) (jobId : string) (downloaded : Z)
  (db : t) : t :=
  updateRow jobId (set_progress downloaded now) db.

(** [UPDATE download_jobs SET status = ?, updatedAt = ? WHERE id = ?] *)
Definition updateJobStatus (now : Z) (jobId : string) (s : JobStatus)
  (db : t) : t :=
  updateRow jobId (set_status s now) db.

(** [UPDATE download_jobs SET minZoom = ?, maxZoom = ?, totalTiles = ?,
    updatedAt = ? WHERE id = ?] *)
Definition updateJobZoomLevels (now : Z) (jobId : string)
  (lo hi total : Z) (db : t) : t :=
  updateRow jobId (set_zoom lo hi total now) db.

(** The columns of a row that the scheduler never writes: what the job
    was requested with. *)
Definition requestOf (j : JobRow) :=
  (id j, name j, source j, bounds j, (minZoom j, maxZoom j, totalTiles j),
   (country j, city j, createdAt j)).

Definition set_name (newName : string) (now : Z) (j : JobRow) : JobRow :=
  mkJobRow (id j) newName (source j) (bounds j) (minZoom j) (maxZoom j)
           (totalTiles j) (downloadedTiles j) (status j) (country j) (city j)
           (createdAt j) now.

Definition set_location (country city : option string) (now : Z) (j : JobRow)
  : JobRow :=
  mkJobRow (id j) (name j) (source j) (bounds j) (minZoom j) (maxZoom j)
           (totalTiles j) (downloadedTiles j) (status j) country city
           (createdAt j) now.

(** [UPDATE download_jobs SET name = ?, updatedAt = ? WHERE id = ?] *)
Definition renameJob (now : Z) (jobId newName : string) (db : t) : t :=
  updateRow jobId (set_name newName now) db.

(** [UPDATE download_jobs SET country = ?, city = ?, updatedAt = ?
    WHERE id = ?] *)
Definition updateJobLocation (now : Z) (jobId : string)
  (country city : option string) (db : t) : t :=
  updateRow jobId (set_location country city now) db.

(** Rows of job [j] in the registry. *)
Definition rowsOf (j : string) (db : t) : list JobRow :=
  filter (fun r => String.eqb (id r) j) (download_jobs db).

Definition deleteJob (jobId : string) (db : t) : t :=
  with_jobs
    (filter (fun j => negb (String.eqb (id j) jobId)) (download_jobs db)) db.

(** ** Notions used to state the properties of the store *)

(** The rows addressed by [deleteTilesForJob source bounds minZoom maxZoom]:
    those of [source] whose zoom is in the range and whose [(x, y)] is in
    the inclusive rectangle computed for that zoom. *)
Definition inJobRange (source : string) (bounds : GeoBounds)
  (minZoom maxZoom : Z) (r : TileRow) : bool :=
  let tb := getTileBounds bounds (row_z r) in
  String.eqb (row_source r) source
  && (minZoom <=? row_z r) && (row_z r <=? maxZoom)
  && (minX tb <=? row_x r) && (row_x r <=? maxX tb)
  && (minY tb <=? row_y r) && (row_y r <=? maxY tb).

(** The three operations of the store that go through the cache. *)
Inductive CacheOp :=
| OpGet
| OpHas
| OpPut (now : Z) (data : Buffer).

Definition applyOp (op : CacheOp) (z x y : Z) (source : string) (db : t) : t :=
  match op with
  | OpGet => snd (getTile z x y source db)
  | OpHas => snd (hasTile z x y source db)
  | OpPut now data => saveTile now z x y source data db
  end.

(** Strict least-recently-used order as the specification states it: a
    key that is cached after an operation on it is the most recent
    entry. *)
Definition strictLRU : Prop :=
  forall (op : CacheOp) (z x y : Z) (source : string) (db : t),
    let db' := applyOp op z x y source db in
    JsMap.has (getCacheKey z x y source) (cache db') = true ->
    JsMap.lastKey (cache db') = Some (getCacheKey z x y source).

(** Two rows of the registry that differ at most in [status] and
    [updatedAt]. *)
Definition sameButStatus (r r' : JobRow) : Prop :=
  id r' = id r /\ name r' = name r /\ source r' = source r
  /\ bounds r' = bounds r /\ minZoom r' = minZoom r
  /\ maxZoom r' = maxZoom r /\ totalTiles r' = totalTiles r
  /\ downloadedTiles r' = downloadedTiles r
  /\ country r' = country r /\ city r' = city r
  /\ createdAt r' = createdAt r.

(** The cache key of a row of [tiles]. *)
Definition keyOf (r : TileRow) : string :=
  getCacheKey (row_z r) (row_x r) (row_y r) (row_source r).

(** A store in which the primary key of [tiles] is respected, the cache
    has one entry per key, and every cached buffer is the data of the row
    with that key. *)
Definition wellFormed (db : t) : Prop :=
  NoDup (map keyOf (tiles db))
  /\ NoDup (JsMap.keys (cache db))
  /\ forall k data, In (k, data) (cache db) ->
       exists r, In r (tiles db) /\ keyOf r = k /\ row_data r = data.

(** The cache holds at most [maxCacheSize] entries. *)
Definition withinCapacity (db : t) : Prop :=
  JsMap.size (cache db) <= maxCacheSize db.

(** An operation that leaves the capacity as it was and the cache within
    it. *)
Definition keepsCapacity (db db' : t) : Prop :=
  maxCacheSize db' = maxCacheSize db /\ withinCapacity db'.

(** The primary key of [download_jobs] is respected. *)
(** What a store holds apart from the progress of its jobs and its
    cache: the requests of the registered jobs and the tiles. *)
Definition holdings (db : t) :=
  (map requestOf (download_jobs db), tiles db).

Definition uniqueJobIds (db : t) : Prop :=
  NoDup (map id (download_jobs db)).

(** A store whose cache holds two tiles of [arcgis], the older one first. *)
Definition twoCached : t :=
  saveTile 2 1 0 1 "arcgis" [Byte.x02]
    (saveTile 1 1 0 0 "arcgis" [Byte.x01] (create (Some 10))).

End TileDatabase.

(* ================================================================== *)
(** * Tile sources ([config/sources.js]) *)
(* ================================================================== *)

Module Sources.

Local Open Scope string_scope.

Record SourceConfig := mkSource {
  url : string;
  subdomains : list string
}.

(** The own properties of [tileSources], in declaration order. *)
Definition tileSources : list (string * SourceConfig) :=
  [ ("arcgis",
     mkSource "https://server.arcgisonline.com/ArcGIS/rest/services/World_Imagery/MapServer/tile/{z}/{y}/{x}" []);
    ("google",
     mkSource "https://mt{s}.google.com/vt/lyrs=s&x={x}&y={y}&z={z}"
              ["0"; "1"; "2"; "3"]);
    ("esri-world-imagery",
     mkSource "https://services.arcgisonline.com/ArcGIS/rest/services/World_Imagery/MapServer/tile/{z}/{y}/{x}" []) ].

(** Property names every object literal inherits from [Object.prototype];
    the [in] operator answers [true] for them as well. *)
Definition inheritedProperties : list string :=
  [ "constructor"; "hasOwnProperty"; "isPrototypeOf"; "propertyIsEnumerable";
    "toLocaleString"; "toString"; "valueOf"; "__proto__";
    "__defineGetter__"; "__defineSetter__"; "__lookupGetter__";
    "__lookupSetter__" ].

Definition ownSource (sourceId : string) : option SourceConfig :=
  option_map snd (find (fun e => String.eqb (fst e) sourceId) tileSources).

(** [sourceId in tileSources] *)
Definition isValidSource (sourceId : string) : bool :=
  match ownSource sourceId with
  | Some _ => true
  | None => existsb (String.eqb sourceId) inheritedProperties
  end.

(** [s.replace(pat, by)] with a string pattern: the first occurrence. *)
Definition replaceFirst (pat by_ s : string) : string :=
  match String.index 0 pat s with
  | Some i =>
      String.substring 0 i s ++ by_ ++
      String.substring (i + String.length pat)
                       (String.length s - (i + String.length pat)) s
  | None => s
  end.

Definition showZ (n : Z) : string :=
  DecimalString.NilZero.string_of_int (Z.to_int n).

(** [getTileUrl]: [None] stands for the exception raised when the source
    has no usable configuration. *)
Definition getTileUrl (source : string) (z x y counter : Z) : option string :=
  match ownSource source with
  | None => None
  | Some config =>
      let u := url config in
      let u := replaceFirst "{y}" (showZ y)
                 (replaceFirst "{x}" (showZ x)
                    (replaceFirst "{z}" (showZ z) u)) in
      match subdomains config with
      | [] => Some u
      | d :: ds =>
          let n := Z.of_nat (length (d :: ds)) in
          let subdomain := nth (Z.to_nat (Z.rem counter n)) (d :: ds) d in
          Some (replaceFirst "{s}" subdomain u)
      end
  end.

End Sources.

(* ================================================================== *)
(** * Logger ([utils/logger.js]) *)
(* ================================================================== *)

Module Logger.

Local Open Scope string_scope.

(** The own properties of [LOG_LEVELS]. *)
Definition LOG_LEVELS : list (string * Z) :=
  [ ("error", 0); ("warn", 1); ("info", 2); ("debug", 3) ].

(** What [LOG_LEVELS[name]] evaluates to: the number of an own property,
    an object for a name inherited from [Object.prototype] (a function,
    or the prototype itself), [undefined] for any other name. *)
Inductive Value :=
| Number (n : Z)
| Object
| Undefined.

Definition lookup (name : string) : Value :=
  match find (fun e => String.eqb (fst e) name) LOG_LEVELS with
  | Some e => Number (snd e)
  | None =>
      if existsb (String.eqb name) Sources.inheritedProperties
      then Object else Undefined
  end.

(** [a || b]: [b] when [a] is falsy, as [0] and [undefined] are. *)
Definition orElse (a b : Value) : Value :=
  match a with
  | Number n => if Z.eqb n 0 then b else a
  | Object => a
  | Undefined => b
  end.

(** [currentLevel] of [createLogger(level)]. *)
Definition currentLevel (level : string) : Value :=
  orElse (lookup level) (lookup "info").

(** The four methods of a logger. *)
Inductive Method := error | warn | info | debug.

Definition methodName (m : Method) : string :=
  match m with
  | error => "error"
  | warn => "warn"
  | info => "info"
  | debug => "debug"
  end.

(** [a <= b]: an object that converts to no number compares false. *)
Definition lessEq (a b : Value) : bool :=
  match a, b with
  | Number x, Number y => Z.leb x y
  | _, _ => false
  end.

(** Whether method [m] of [createLogger(level)] writes its message:
    the test [LOG_LEVELS[logLevel] <= currentLevel] of [log]. *)
Definition prints (level : string) (m : Method) : bool :=
  lessEq (lookup (methodName m)) (currentLevel level).

End Logger.

(* ================================================================== *)
(** * Download scheduler ([TileDownloader.js]) *)
(* ================================================================== *)

Module TileDownloader.
Import TileCalculator.

Definition Buffer := TileDatabase.Buffer.

Record Task := mkTask {
  task_jobId : string;
  task_source : string;
  task_z : Z;
  task_x : Z;
  task_y : Z
}.

(** Entry of [activeJobs]. *)
Record Job := mkJob {
  job_id : string;
  job_source : string;
  job_tiles : list Tile;
  job_totalTiles : Z;
  job_downloadedTiles : Z;
  job_failedTiles : Z;
  job_status : TileDatabase.JobStatus
}.

(** Entry of [downloadStats]. *)
Record Stats := mkStats {
  startTime : Z;
  downloadedCount : Z;
  failedCount : Z;
  skippedCount : Z
}.

(** Where a call of [downloadTile] is suspended:
    - [RateWait t]: inside [rateLimit], on a timer due at time [t];
    - [Fetching]: the request has been issued, the response is awaited;
    - [Settled]: the outcome has been recorded, the [then]/[catch] handler
      attached by [processQueue] has not run yet. *)
Inductive Phase :=
| RateWait (wakeAt : Z)
| Fetching
| Settled.

Record Fetch := mkFetch {
  fetch_task : Task;
  fetch_phase : Phase
}.

(** A network request handed to [axios.get]. *)
Record Request := mkRequest {
  req_time : Z;
  req_url : string;
  req_task : Task
}.

(** Lines written with [logger.info]. *)
Inductive LogLine :=
| LogStarting (jobId : string) (tiles : Z) (source : string)
| LogCompleted (jobId : string) (downloaded skipped failed : Z)
| LogCancelled (jobId : string).

Record t := mkSched {
  db : TileDatabase.t;
  maxConcurrent : Z;
  minRequestInterval : Z;
  queue : list Task;
  activeDownloads : Z;
  counter : Z;
  activeJobs : JsMap.t Job;
  downloadStats : JsMap.t Stats;
  lastRequestTime : Z;
  inflight : list Fetch;
  requests : list Request;
  infoLog : list LogLine
}.

(** [new TileDownloader(database, {maxConcurrentDownloads, rateLimit})] *)
Definition create (database : TileDatabase.t)
  (maxConcurrentDownloads rateLimit : option Z) : t :=
  mkSched database
    (Defaults.orDefault maxConcurrentDownloads Defaults.maxConcurrentDownloads)
    (Defaults.orDefault rateLimit Defaults.rateLimit)
    [] 0 0 [] [] 0 [] [] [].

Definition with_db (d : TileDatabase.t) (s : t) : t :=
  mkSched d (maxConcurrent s) (minRequestInterval s) (queue s)
    (activeDownloads s) (counter s) (activeJobs s) (downloadStats s)
    (lastRequestTime s) (inflight s) (requests s) (infoLog s).

Definition with_queue (q : list Task) (s : t) : t :=
  mkSched (db s) (maxConcurrent s) (minRequestInterval s) q
    (activeDownloads s) (counter s) (activeJobs s) (downloadStats s)
    (lastRequestTime s) (inflight s) (requests s) (infoLog s).

Definition with_activeDownloads (n : Z) (s : t) : t :=
  mkSched (db s) (maxConcurrent s) (minRequestInterval s) (queue s)
    n (counter s) (activeJobs s) (downloadStats s)
    (lastRequestTime s) (inflight s) (requests s) (infoLog s).

Definition with_counter (n : Z) (s : t) : t :=
  mkSched (db s) (maxConcurrent s) (minRequestInterval s) (queue s)
    (activeDownloads s) n (activeJobs s) (downloadStats s)
    (lastRequestTime s) (inflight s) (requests s) (infoLog s).

Definition with_activeJobs (m : JsMap.t Job) (s : t) : t :=
  mkSched (db s) (maxConcurrent s) (minRequestInterval s) (queue s)
    (activeDownloads s) (counter s) m (downloadStats s)
    (lastRequestTime s) (inflight s) (requests s) (infoLog s).

Definition with_downloadStats (m : JsMap.t Stats) (s : t) : t :=
  mkSched (db s) (maxConcurrent s) (minRequestInterval s) (queue s)
    (activeDownloads s) (counter s) (activeJobs s) m
    (lastRequestTime s) (inflight s) (requests s) (infoLog s).

Definition with_lastRequestTime (n : Z) (s : t) : t :=
  mkSched (db s) (maxConcurrent s) (minRequestInterval s) (queue s)
    (activeDownloads s) (counter s) (activeJobs s) (downloadStats s)
    n (inflight s) (requests s) (infoLog s).

Definition with_inflight (l : list Fetch) (s : t) : t :=
  mkSched (db s) (maxConcurrent s) (minRequestInterval s) (queue s)
    (activeDownloads s) (counter s) (activeJobs s) (downloadStats s)
    (lastRequestTime s) l (requests s) (infoLog s).

Definition with_requests (l : list Request) (s : t) : t :=
  mkSched (db s) (maxConcurrent s) (minRequestInterval s) (queue s)
    (activeDownloads s) (counter s) (activeJobs s) (downloadStats s)
    (lastRequestTime s) (inflight s) l (infoLog s).

Definition logInfo (l : LogLine) (s : t) : t :=
  mkSched (db s) (maxConcurrent s) (minRequestInterval s) (queue s)
    (activeDownloads s) (counter s) (activeJobs s) (downloadStats s)
    (lastRequestTime s) (inflight s) (requests s) (infoLog s ++ [l]).

Definition bump_downloaded (j : Job) : Job :=
  mkJob (job_id j) (job_source j) (job_tiles j) (job_totalTiles j)
        (job_downloadedTiles j + 1) (job_failedTiles j) (job_status j).

Definition bump_failed (j : Job) : Job :=
  mkJob (job_id j) (job_source j) (job_tiles j) (job_totalTiles j)
        (job_downloadedTiles j) (job_failedTiles j + 1) (job_status j).

Definition stats_downloaded (s : Stats) : Stats :=
  mkStats (startTime s) (downloadedCount s + 1) (failedCount s)
          (skippedCount s).

Definition stats_failed (s : Stats) : Stats :=
  mkStats (startTime s) (downloadedCount s) (failedCount s + 1)
          (skippedCount s).

Definition stats_skipped (s : Stats) : Stats :=
  mkStats (startTime s) (downloadedCount s) (failedCount s)
          (skippedCount s + 1).

(** ** Counters *)

Definition handleTileDownloaded (now : Z) (jobId : string) (s : t) : t :=
  match JsMap.get jobId (activeJobs s), JsMap.get jobId (downloadStats s) with
  | Some job, Some stats =>
      let stats' := stats_downloaded stats in
      let s1 :=
        with_downloadStats (JsMap.set jobId stats' (downloadStats s))
          (with_activeJobs
             (JsMap.set jobId (bump_downloaded job) (activeJobs s)) s) in
      (* Update progress in database every 10 tiles *)
      if Z.rem (downloadedCount stats') 10 =? 0 then
        with_db (TileDatabase.updateJobProgress now jobId
                   (downloadedCount stats') (db s1)) s1
      else s1
  | _, _ => s
  end.

Definition handleTileFailed (jobId : string) (s : t) : t :=
  match JsMap.get jobId (activeJobs s), JsMap.get jobId (downloadStats s) with
  | Some job, Some stats =>
      with_downloadStats
        (JsMap.set jobId (stats_failed stats) (downloadStats s))
        (with_activeJobs
           (JsMap.set jobId (bump_failed job) (activeJobs s)) s)
  | _, _ => s
  end.

Definition handleTileSkipped (jobId : string) (s : t) : t :=
  match JsMap.get jobId (downloadStats s) with
  | Some stats =>
      with_downloadStats
        (JsMap.set jobId (stats_skipped stats) (downloadStats s)) s
  | None => s
  end.

(** ** Fetching one tile *)

(** The part of [downloadTile] that follows [await this.rateLimit()], up
    to the point where the response is awaited: the URL is built with
    [this.counter++] and the request is issued.  When [getTileUrl] throws,
    the [catch] block records the failure at once. *)
Definition issueRequest (now : Z) (task : Task) (s : t) : Phase * t :=
  let c := counter s in
  let s1 := with_counter (c + 1) s in
  match Sources.getTileUrl (task_source task) (task_z task) (task_x task)
          (task_y task) c with
  | Some u =>
      (Fetching, with_requests (requests s1 ++ [mkRequest now u task]) s1)
  | None => (Settled, handleTileFailed (task_jobId task) s1)
  end.

(** [downloadTile(task)] from its call in [processQueue] to its first
    suspension.  [rateLimit] reads the clock and either arms a timer for
    the missing delay, or stamps [lastRequestTime] and lets the fetch
    proceed. *)
Definition downloadTile (now : Z) (task : Task) (s : t) : t :=
  let timeSinceLastRequest := now - lastRequestTime s in
  if timeSinceLastRequest <? minRequestInterval s then
    let delay := minRequestInterval s - timeSinceLastRequest in
    with_inflight (inflight s ++ [mkFetch task (RateWait (now + delay))]) s
  else
    let '(ph, s1) := issueRequest now task (with_lastRequestTime now s) in
    with_inflight (inflight s1 ++ [mkFetch task ph]) s1.

(** ** Completion and the queue *)

Definition completeJob (now : Z) (jobId : string) (s : t) : t :=
  match JsMap.get jobId (activeJobs s), JsMap.get jobId (downloadStats s) with
  | Some job, Some stats =>
      let s1 :=
        logInfo (LogCompleted jobId (downloadedCount stats)
                   (skippedCount stats) (failedCount stats)) s in
      (* Update final progress *)
      let d1 := TileDatabase.updateJobProgress now jobId
                  (downloadedCount stats) (db s1) in
      let d2 := TileDatabase.updateJobStatus now jobId
                  (if failedCount stats >? 0
                   then TileDatabase.completed_with_errors
                   else TileDatabase.completed) d1 in
      (* Clean up *)
      with_downloadStats (JsMap.delete jobId (downloadStats s1))
        (with_activeJobs (JsMap.delete jobId (activeJobs s1))
           (with_db d2 s1))
  | _, _ => s
  end.

(** The [while] loop of [processQueue]. *)
Fixpoint startTasks (now : Z) (q : list Task) (s : t) : t :=
  match q with
  | [] => with_queue [] s
  | task :: q' =>
      if activeDownloads s <? maxConcurrent s then
        startTasks now q'
          (downloadTile now task
             (with_activeDownloads (activeDownloads s + 1) s))
      else with_queue q s
  end.

(** The [for] loop of [processQueue] over the entries of [activeJobs]. *)
Definition checkJobs (now : Z) (s : t) : t :=
  fold_left
    (fun s jobId =>
       match JsMap.get jobId (activeJobs s),
             JsMap.get jobId (downloadStats s) with
       | Some job, Some stats =>
           let total := downloadedCount stats + failedCount stats
                        + skippedCount stats in
           if (total >=? job_totalTiles job) && (activeDownloads s =? 0)
           then completeJob now jobId s
           else s
       | _, _ => s
       end)
    (JsMap.keys (activeJobs s)) s.

Definition processQueue (now : Z) (s : t) : t :=
  checkJobs now (startTasks now (queue s) s).

Definition queueTile (jobId source : string) (z x y : Z) (s : t) : t :=
  let '(present, d) := TileDatabase.hasTile z x y source (db s) in
  let s := with_db d s in
  if present then handleTileSkipped jobId s
  else with_queue (queue s ++ [mkTask jobId source z x y]) s.

Definition startJob (now : Z) (jobId source : string) (tiles : list Tile)
  (s : t) : t :=
  let n := Z.of_nat (length tiles) in
  let s := logInfo (LogStarting jobId n source) s in
  let s :=
    with_activeJobs
      (JsMap.set jobId
         (mkJob jobId source tiles n 0 0 TileDatabase.running)
         (activeJobs s)) s in
  let s :=
    with_downloadStats
      (JsMap.set jobId (mkStats now 0 0 0) (downloadStats s)) s in
  let s :=
    with_db (TileDatabase.updateJobStatus now jobId TileDatabase.running
               (db s)) s in
  let s :=
    fold_left (fun s tile => queueTile jobId source (z tile) (x tile) (y tile) s)
              tiles s in
  processQueue now s.

Definition cancelJob (now : Z) (jobId : string) (s : t) : bool * t :=
  match JsMap.get jobId (activeJobs s) with
  | None => (false, s)
  | Some _ =>
      let s :=
        with_queue
          (filter (fun task => negb (String.eqb (task_jobId task) jobId))
                  (queue s)) s in
      let s :=
        with_db (TileDatabase.updateJobStatus now jobId
                   TileDatabase.cancelled (db s)) s in
      let s := with_activeJobs (JsMap.delete jobId (activeJobs s)) s in
      let s := with_downloadStats (JsMap.delete jobId (downloadStats s)) s in
      (true, logInfo (LogCancelled jobId) s)
  end.

(** ** Status of an active job *)

(** [Math.round]: the nearest integer, ties towards plus infinity. *)
Definition Math_round (q : Q) : Z := Qfloor (q + (1 # 2))%Q.

Record ActiveStatus := mkActiveStatus {
  as_jobId : string;
  as_source : string;
  as_totalTiles : Z;
  as_downloadedTiles : Z;
  as_skippedTiles : Z;
  as_failedTiles : Z;
  as_progress : Z;
  as_status : TileDatabase.JobStatus;
  as_queuedTiles : Z
}.

Definition getJobStatus (jobId : string) (s : t) : option ActiveStatus :=
  match JsMap.get jobId (activeJobs s), JsMap.get jobId (downloadStats s) with
  | Some job, Some stats =>
      let total := downloadedCount stats + failedCount stats
                   + skippedCount stats in
      let progress :=
        if job_totalTiles job >? 0
        then ((inject_Z total / inject_Z (job_totalTiles job)) * (100 # 1))%Q
        else 0%Q in
      Some (mkActiveStatus jobId (job_source job) (job_totalTiles job)
              (downloadedCount stats) (skippedCount stats)
              (failedCount stats) (Math_round progress) (job_status job)
              (Z.of_nat
                 (length (filter (fun t => String.eqb (task_jobId t) jobId)
                                 (queue s)))))
  | _, _ => None
  end.

(** [getActiveJobs]: [None] stands for the [null] that [getJobStatus]
    returns. *)
Definition getActiveJobs (s : t) : list (option ActiveStatus) :=
  map (fun jobId => getJobStatus jobId s) (JsMap.keys (activeJobs s)).

Definition isJobActive (jobId : string) (s : t) : bool :=
  JsMap.has jobId (activeJobs s).

(** ** Events of the event loop *)

Inductive Response :=
| Success (data : Buffer)   (* status 200 with a body *)
| Failure.                  (* transport error, timeout, other status *)

Inductive Event :=
| TimerFires (i : nat)
| ResponseArrives (i : nat) (r : Response)
| SlotReleased (i : nat)
| CallStartJob (jobId source : string) (tiles : list Tile)
| CallCancelJob (jobId : string).

Fixpoint replaceNth {A} (i : nat) (a : A) (l : list A) : list A :=
  match l, i with
  | [], _ => []
  | _ :: l', O => a :: l'
  | b :: l', S i' => b :: replaceNth i' a l'
  end.

Fixpoint removeNth {A} (i : nat) (l : list A) : list A :=
  match l, i with
  | [], _ => []
  | _ :: l', O => l'
  | b :: l', S i' => b :: removeNth i' l'
  end.

Definition setPhase (i : nat) (ph : Phase) (s : t) : t :=
  match nth_error (inflight s) i with
  | Some f => with_inflight (replaceNth i (mkFetch (fetch_task f) ph) (inflight s)) s
  | None => s
  end.

(** One turn of the event loop at clock value [now]; [None] when the event
    cannot happen in state [s].
    - [TimerFires i]: the timer armed by [rateLimit] for fetch [i] has
      elapsed; [lastRequestTime] is stamped and the request is issued;
    - [ResponseArrives i r]: the request of fetch [i] settles with [r];
    - [SlotReleased i]: the handler attached by [processQueue] to fetch
      [i] runs. *)
Definition step (now : Z) (e : Event) (s : t) : option t :=
  match e with
  | TimerFires i =>
      match nth_error (inflight s) i with
      | Some (mkFetch task (RateWait wakeAt)) =>
          if wakeAt <=? now then
            let '(ph, s1) := issueRequest now task (with_lastRequestTime now s) in
            Some (setPhase i ph s1)
          else None
      | _ => None
      end
  | ResponseArrives i r =>
      match nth_error (inflight s) i with
      | Some (mkFetch task Fetching) =>
          let s1 :=
            match r with
            | Success data =>
                handleTileDownloaded now (task_jobId task)
                  (with_db (TileDatabase.saveTile now (task_z task)
                              (task_x task) (task_y task) (task_source task)
                              data (db s)) s)
            | Failure => handleTileFailed (task_jobId task) s
            end in
          Some (setPhase i Settled s1)
      | _ => None
      end
  | SlotReleased i =>
      match nth_error (inflight s) i with
      | Some (mkFetch task Settled) =>
          let s1 := with_inflight (removeNth i (inflight s)) s in
          Some (processQueue now
                  (with_activeDownloads (activeDownloads s1 - 1) s1))
      | _ => None
      end
  | CallStartJob jobId source tiles => Some (startJob now jobId source tiles s)
  | CallCancelJob jobId => Some (snd (cancelJob now jobId s))
  end.

(** A run: events with the clock value at which each one happens. *)
Fixpoint run (evs : list (Z * Event)) (s : t) : option t :=
  match evs with
  | [] => Some s
  | (now, e) :: evs' =>
      match step now e s with
      | Some s' => run evs' s'
      | None => None
      end
  end.

(** ** Notions used to state the properties of the scheduler *)

(** Tasks of job [j] waiting in the queue. *)
Definition jobTask (j : string) (task : Task) : bool :=
  String.eqb (task_jobId task) j.

Definition queued (j : string) (s : t) : Z :=
  Z.of_nat (length (filter (jobTask j) (queue s))).

(** Fetches of job [j] whose outcome has not been recorded yet. *)
Definition unsettled (f : Fetch) : bool :=
  match fetch_phase f with
  | Settled => false
  | _ => true
  end.

Definition pending (j : string) (s : t) : Z :=
  Z.of_nat
    (length (filter (fun f => jobTask j (fetch_task f) && unsettled f)
                    (inflight s))).

(** Nothing of job [j] is waiting or under way. *)
Definition quiet (j : string) (s : t) : Prop :=
  queued j s = 0 /\ pending j s = 0.

(** Every call of [downloadTile] that has not finished holds one slot. *)
Definition slotsMatch (s : t) : Prop :=
  activeDownloads s = Z.of_nat (length (inflight s)).

(** No more fetches than slots, and no task waiting while a slot is
    free. *)
Definition saturated (s : t) : Prop :=
  slotsMatch s /\ activeDownloads s <= maxConcurrent s
  /\ (queue s = [] \/ activeDownloads s = maxConcurrent s).

(** [activeJobs] and [downloadStats] have the same keys, in the same
    order. *)
Definition inStep (s : t) : Prop :=
  JsMap.keys (activeJobs s) = JsMap.keys (downloadStats s).

(** The fields the rate limit and the slots depend on. *)
Definition clockwork (s : t) :=
  (requests s, lastRequestTime s, minRequestInterval s, inflight s,
   activeDownloads s, maxConcurrent s).

(** Tiles of the list that the store already has. *)
Definition alreadyStored (source : string) (tiles : list Tile)
  (d : TileDatabase.t) : Z :=
  Z.of_nat
    (length
       (filter (fun tile =>
                  fst (TileDatabase.hasTile (z tile) (x tile) (y tile)
                         source d)) tiles)).

(** The counters [(downloaded, skipped, failed)] logged by [completeJob]
    each time job [j] completed. *)
Definition completions (j : string) (log : list LogLine)
  : list (Z * Z * Z) :=
  flat_map
    (fun l =>
       match l with
       | LogCompleted j' d sk f =>
           if String.eqb j' j then [(d, sk, f)] else []
       | _ => []
       end) log.

(** Rows of job [j] in the registry. *)
Definition registryRows (j : string) (s : t) : list TileDatabase.JobRow :=
  TileDatabase.rowsOf j (db s).

(** The state of [startJob] at its call of [processQueue]. *)
Definition startJobQueued (now : Z) (jobId source : string)
  (tiles : list Tile) (s : t) : t :=
  let n := Z.of_nat (length tiles) in
  let s := logInfo (LogStarting jobId n source) s in
  let s :=
    with_activeJobs
      (JsMap.set jobId
         (mkJob jobId source tiles n 0 0 TileDatabase.running)
         (activeJobs s)) s in
  let s :=
    with_downloadStats
      (JsMap.set jobId (mkStats now 0 0 0) (downloadStats s)) s in
  let s :=
    with_db (TileDatabase.updateJobStatus now jobId TileDatabase.running
               (db s)) s in
  fold_left (fun s tile => queueTile jobId source (z tile) (x tile) (y tile) s)
            tiles s.

Definition addSkipped (n : Z) (st : Stats) : Stats :=
  mkStats (startTime st) (downloadedCount st) (failedCount st)
          (skippedCount st + n).

(** Ids of the rows of the registry, in table order. *)
Definition jobIds (s : t) : list string :=
  map TileDatabase.id (TileDatabase.download_jobs (db s)).

(** When no fetch is under way, job [j] is no longer active. *)
Definition idleDone (j : string) (s : t) : Prop :=
  activeDownloads s = 0 -> JsMap.get j (activeJobs s) = None.

(** The caller neither restarts nor cancels job [j]. *)
Definition leavesAlone (j : string) (e : Event) : bool :=
  match e with
  | CallStartJob j' _ _ => negb (String.eqb j' j)
  | CallCancelJob j' => negb (String.eqb j' j)
  | _ => true
  end.

(** The event is a failed response to a fetch of job [j]. *)
Definition failsFor (j : string) (e : Event) (s : t) : bool :=
  match e with
  | ResponseArrives i Failure =>
      match nth_error (inflight s) i with
      | Some f => jobTask j (fetch_task f)
      | None => false
      end
  | _ => false
  end.

(** [P] holds of every event of a run, in the state it happens in. *)
Fixpoint along (P : Event -> t -> bool) (evs : list (Z * Event)) (s : t)
  : bool :=
  match evs with
  | [] => true
  | (now, e) :: evs' =>
      P e s &&
      match step now e s with
      | Some s' => along P evs' s'
      | None => true
      end
  end.

Definition undisturbed (j : string) (evs : list (Z * Event)) (s : t) : bool :=
  along (fun e _ => leavesAlone j e) evs s.

Definition fetchesSucceed (j : string) (evs : list (Z * Event)) (s : t)
  : bool :=
  along (fun e s => negb (failsFor j e s)) evs s.

(** Only the event loop acts: no call of [startJob] or [cancelJob]. *)
Definition internal (e : Event) : bool :=
  match e with
  | CallStartJob _ _ _ | CallCancelJob _ => false
  | _ => true
  end.

(** ** A scheduler of the events *)

(** The next event of the oldest fetch under way; every request is
    answered with status 200 and the bytes [body]. *)
Definition nextEvent (now : Z) (body : Buffer) (s : t) : option (Z * Event) :=
  match inflight s with
  | [] => None
  | f :: _ =>
      Some (match fetch_phase f with
            | RateWait wakeAt => (Z.max now wakeAt, TimerFires 0)
            | Fetching => (now, ResponseArrives 0 (Success body))
            | Settled => (now, SlotReleased 0)
            end)
  end.

(** The events of at most [fuel] turns of the loop driven by
    [nextEvent]. *)
Fixpoint drain (fuel : nat) (now : Z) (body : Buffer) (s : t)
  : list (Z * Event) :=
  match fuel with
  | O => []
  | S fuel' =>
      match nextEvent now body s with
      | None => []
      | Some (now', e) =>
          match step now' e s with
          | Some s' => (now', e) :: drain fuel' now' body s'
          | None => []
          end
      end
  end.

(** Turns of the loop still needed: three per queued task, and three, two
    or one per fetch according to its phase. *)
Definition phaseWork (f : Fetch) : nat :=
  match fetch_phase f with
  | RateWait _ => 3
  | Fetching => 2
  | Settled => 1
  end.

Definition work (s : t) : nat :=
  3 * length (queue s) + list_sum (map phaseWork (inflight s)).

End TileDownloader.

(* ================================================================== *)
(** * Accounting of one job *)
(* ================================================================== *)

(** The notions in which the bookkeeping of one job [j] is followed along
    a run of the scheduler. *)
Module JobInvariant.
Import TileDownloader.

(** What the state holds about job [j]: its entries in [activeJobs] and
    [downloadStats], the counters logged at its completions, and its rows
    in the registry. *)
Record View := mkView {
  v_job : option Job;
  v_stats : option Stats;
  v_done : list (Z * Z * Z);
  v_rows : list TileDatabase.JobRow
}.

Definition jview (j : string) (s : t) : View :=
  mkView (JsMap.get j (activeJobs s)) (JsMap.get j (downloadStats s))
         (completions j (infoLog s)) (registryRows j s).

(** The status [completeJob] writes for [failed] failed tiles. *)
Definition terminalStatus (failed : Z) : TileDatabase.JobStatus :=
  if failed >? 0 then TileDatabase.completed_with_errors
  else TileDatabase.completed.

Section Job.

(** The job [j] was started on [T] tiles from source [src], [K] of which
    the store already had; [base] are the completions logged before.
    [clean]: no fetch of the job has failed.  [fresh]: the row of the job
    had a downloaded counter of 0 when the job was started. *)
Variables (j src : string) (T K : Z) (base : list (Z * Z * Z)).
Variables (clean fresh : Prop).

(** With [n] tiles of the job still queued or being fetched: while the
    job is active its counters add up, and the registry holds the last
    multiple of ten of the downloaded counter; once it has completed, the
    final counters have been logged and written. *)
Definition accounting (v : View) (n : Z) : Prop :=
  match v_job v, v_stats v with
  | Some job, Some st =>
      job_totalTiles job = T
      /\ skippedCount st = K
      /\ 0 <= downloadedCount st
      /\ 0 <= failedCount st
      /\ downloadedCount st + failedCount st + n = T - K
      /\ (clean -> failedCount st = 0)
      /\ v_done v = base
      /\ (fresh ->
          forall r, In r (v_rows v) ->
            TileDatabase.downloadedTiles r = 10 * (downloadedCount st / 10))
  | None, None =>
      n = 0
      /\ exists d f,
          0 <= d /\ 0 <= f /\ d + f = T - K
          /\ (clean -> f = 0)
          /\ v_done v = base ++ [(d, K, f)]
          /\ forall r, In r (v_rows v) ->
               TileDatabase.downloadedTiles r = d
               /\ TileDatabase.status r = terminalStatus f
  | _, _ => False
  end.

(** The tasks of the job that are queued or being fetched ask for tiles
    of [src]. *)
Definition fromSource (s : t) : Prop :=
  (forall task, In task (queue s) -> jobTask j task = true ->
     task_source task = src)
  /\ (forall f, In f (inflight s) -> jobTask j (fetch_task f) = true ->
        unsettled f = true -> task_source (fetch_task f) = src).

Definition jobInv (s : t) : Prop :=
  accounting (jview j s) (queued j s + pending j s) /\ fromSource s.

End Job.

End JobInvariant.

(* ================================================================== *)
(** * Facade ([TileForge.js]) *)
(* ================================================================== *)

Module TileForge.
Import TileCalculator.

(** [this.database] and [this.downloader.db] are the same object, so the
    state of the facade is the state of the scheduler, which contains the
    one database. *)
Definition t := TileDownloader.t.

Definition database (s : t) : TileDatabase.t := TileDownloader.db s.

(** [new TileForge(options)] on an empty database file: the options are
    completed with the defaults and handed to the database and to the
    scheduler, which complete them once more. *)
Definition create (maxConcurrentDownloads cacheSize rateLimit : option Z) : t :=
  let config_maxConcurrentDownloads :=
    Defaults.orDefault maxConcurrentDownloads Defaults.maxConcurrentDownloads in
  let config_cacheSize := Defaults.orDefault cacheSize Defaults.cacheSize in
  let config_rateLimit := Defaults.orDefault rateLimit Defaults.rateLimit in
  TileDownloader.create
    (TileDatabase.create (Some config_cacheSize))
    (Some config_maxConcurrentDownloads) (Some config_rateLimit).

(** Outcome of an operation that may throw. *)
Inductive Result (A : Type) :=
| Returned (a : A)
| Thrown (message : string).

Arguments Returned {A} a.
Arguments Thrown {A} message.

Record DownloadResult := mkDownloadResult {
  dr_jobId : string;
  dr_name : string;
  dr_source : string;
  dr_totalTiles : Z;
  dr_status : TileDatabase.JobStatus
}.

Record ExtendResult := mkExtendResult {
  er_jobId : string;
  er_minZoom : Z;
  er_maxZoom : Z;
  er_totalTiles : Z;
  er_status : TileDatabase.JobStatus
}.

(** [download(options)]; [jobId] is the value drawn by [generateJobId]. *)
Definition download (now : Z) (jobId : string) (name source : string)
  (bounds : GeoBounds) (minZoom maxZoom : Z) (s : t)
  : Result DownloadResult * t :=
  if negb (Sources.isValidSource source) then
    (Thrown ("Invalid tile source: " ++ source
             ++ ". Available: arcgis, google, esri-world-imagery")%string, s)
  else if negb (isValidBounds bounds) then
    (Thrown "Invalid bounds. Must include north, south, east, west coordinates.", s)
  else if negb (isValidZoomRange minZoom maxZoom) then
    (Thrown "Invalid zoom range. Must be between 0-22 and minZoom <= maxZoom.", s)
  else
    let tiles := getTileList bounds minZoom maxZoom in
    let totalTiles := Z.of_nat (length tiles) in
    match TileDatabase.createDownloadJob now jobId name source bounds
            minZoom maxZoom totalTiles None None (database s) with
    | None => (Thrown "UNIQUE constraint failed: download_jobs.id", s)
    | Some d =>
        let s := TileDownloader.startJob now jobId source tiles
                   (TileDownloader.with_db d s) in
        (Returned (mkDownloadResult jobId name source totalTiles
                     TileDatabase.running), s)
    end.

Definition extendJob (now : Z) (jobId : string) (minZoom maxZoom : Z) (s : t)
  : Result ExtendResult * t :=
  match TileDatabase.getJob jobId (database s) with
  | None => (Thrown ("Job not found: " ++ jobId)%string, s)
  | Some job =>
      if negb (isValidZoomRange minZoom maxZoom) then
        (Thrown "Invalid zoom range. Must be between 0-22 and minZoom <= maxZoom.", s)
      else
        let tiles := getTileList (TileDatabase.bounds job) minZoom maxZoom in
        let totalTiles := Z.of_nat (length tiles) in
        let d := TileDatabase.updateJobZoomLevels now jobId minZoom maxZoom
                   totalTiles (database s) in
        let d := TileDatabase.updateJobStatus now jobId TileDatabase.running d in
        let s := TileDownloader.startJob now jobId (TileDatabase.source job)
                   tiles (TileDownloader.with_db d s) in
        (Returned (mkExtendResult jobId minZoom maxZoom totalTiles
                     TileDatabase.running), s)
  end.

Definition getTile (source : string) (z x y : Z) (s : t)
  : option TileDatabase.Buffer * t :=
  if negb (isValidTile x y z) then (None, s)
  else
    let '(r, d) := TileDatabase.getTile z x y source (database s) in
    (r, TileDownloader.with_db d s).

Definition hasTile (source : string) (z x y : Z) (s : t) : bool * t :=
  let '(r, d) := TileDatabase.hasTile z x y source (database s) in
  (r, TileDownloader.with_db d s).

(** The object built from a registry row by [getJobStatus]. *)
Record StoredStatus := mkStoredStatus {
  ss_jobId : string;
  ss_name : string;
  ss_source : string;
  ss_bounds : GeoBounds;
  ss_minZoom : Z;
  ss_maxZoom : Z;
  ss_totalTiles : Z;
  ss_downloadedTiles : Z;
  ss_progress : Z;
  ss_status : TileDatabase.JobStatus;
  ss_country : option string;
  ss_city : option string;
  ss_createdAt : Z;
  ss_updatedAt : Z
}.

Inductive JobReport :=
| ActiveReport (a : TileDownloader.ActiveStatus)
| StoredReport (r : StoredStatus).

Definition storedStatus (job : TileDatabase.JobRow) : StoredStatus :=
  mkStoredStatus (TileDatabase.id job) (TileDatabase.name job)
    (TileDatabase.source job) (TileDatabase.bounds job)
    (TileDatabase.minZoom job) (TileDatabase.maxZoom job)
    (TileDatabase.totalTiles job) (TileDatabase.downloadedTiles job)
    (if TileDatabase.totalTiles job >? 0
     then TileDownloader.Math_round
            ((inject_Z (TileDatabase.downloadedTiles job)
              / inject_Z (TileDatabase.totalTiles job)) * (100 # 1))%Q
     else 0)
    (TileDatabase.status job) (TileDatabase.country job)
    (TileDatabase.city job) (TileDatabase.createdAt job)
    (TileDatabase.updatedAt job).

Definition getJobStatus (jobId : string) (s : t) : option JobReport :=
  (* Check active jobs first *)
  match TileDownloader.getJobStatus jobId s with
  | Some activeStatus => Some (ActiveReport activeStatus)
  | None =>
      (* Check database *)
      match TileDatabase.getJob jobId (database s) with
      | Some job => Some (StoredReport (storedStatus job))
      | None => None
      end
  end.

Definition report_progress (r : JobReport) : Z :=
  match r with
  | ActiveReport a => TileDownloader.as_progress a
  | StoredReport r => ss_progress r
  end.

Definition report_downloadedTiles (r : JobReport) : Z :=
  match r with
  | ActiveReport a => TileDownloader.as_downloadedTiles a
  | StoredReport r => ss_downloadedTiles r
  end.

Definition report_totalTiles (r : JobReport) : Z :=
  match r with
  | ActiveReport a => TileDownloader.as_totalTiles a
  | StoredReport r => ss_totalTiles r
  end.

Definition report_status (r : JobReport) : TileDatabase.JobStatus :=
  match r with
  | ActiveReport a => TileDownloader.as_status a
  | StoredReport r => ss_status r
  end.

Definition cancelJob (now : Z) (jobId : string) (s : t) : bool * t :=
  TileDownloader.cancelJob now jobId s.

Definition deleteJob (now : Z) (jobId : string) (deleteTiles : bool) (s : t)
  : (bool * Z) * t :=
  match TileDatabase.getJob jobId (database s) with
  | None => ((false, 0), s)
  | Some job =>
      (* Cancel if running *)
      let s := snd (TileDownloader.cancelJob now jobId s) in
      let '(tilesDeleted, d) :=
        if deleteTiles then
          TileDatabase.deleteTilesForJob (TileDatabase.source job)
            (TileDatabase.bounds job) (TileDatabase.minZoom job)
            (TileDatabase.maxZoom job) (database s)
        else (0, database s) in
      let d := TileDatabase.deleteJob jobId d in
      ((true, tilesDeleted), TileDownloader.with_db d s)
  end.

Definition renameJob (now : Z) (jobId newName : string) (s : t) : bool * t :=
  match TileDatabase.getJob jobId (database s) with
  | None => (false, s)
  | Some _ =>
      (true,
       TileDownloader.with_db
         (TileDatabase.renameJob now jobId newName (database s)) s)
  end.

Definition updateJobLocation (now : Z) (jobId : string)
  (country city : option string) (s : t) : bool * t :=
  match TileDatabase.getJob jobId (database s) with
  | None => (false, s)
  | Some _ =>
      (true,
       TileDownloader.with_db
         (TileDatabase.updateJobLocation now jobId country city (database s))
         s)
  end.

Definition getTileCount (source : string) (s : t) : Z :=
  TileDatabase.getTileCount source (database s).

Definition getTotalTileCount (s : t) : Z :=
  TileDatabase.getTotalTileCount (database s).

Record Estimate := mkEstimate {
  tileCount : Z;
  estimatedSizeMB : Q;
  estimatedTimeMinutes : Q
}.

(** [estimate(options)] *)
Definition estimate (bounds : GeoBounds) (minZoom maxZoom : Z)
  : Result Estimate :=
  if negb (isValidBounds bounds) then
    Thrown "Invalid bounds. Must include north, south, east, west coordinates."
  else if negb (isValidZoomRange minZoom maxZoom) then
    Thrown "Invalid zoom range. Must be between 0-22 and minZoom <= maxZoom."
  else
    let tileCount := calculateTileCount bounds minZoom maxZoom in
    let estimatedSizeMB :=
      ((inject_Z tileCount * Defaults.averageTileSizeKB) / (1024 # 1))%Q in
    let estimatedTimeMinutes :=
      ((inject_Z tileCount * Defaults.downloadTimePerTile) / (60 # 1))%Q in
    Returned
      (mkEstimate tileCount
         (inject_Z (TileDownloader.Math_round (estimatedSizeMB * (100 # 1)))
          / (100 # 1))%Q
         (inject_Z (TileDownloader.Math_round
                      (estimatedTimeMinutes * (100 # 1)))
          / (100 # 1))%Q).

(** ** Notions used to state the properties of the facade *)

(** Progress as the specification words it: [round(100 * n / total)], and
    0 when [total] is 0 (or less). *)
Definition roundPercent (n total : Z) : Z :=
  if total >? 0
  then TileDownloader.Math_round
         ((100 # 1) * inject_Z n / inject_Z total)%Q
  else 0.

(** The specification's reading of the progress of a report. *)
Definition progressOfDownloaded (r : JobReport) : Prop :=
  report_progress r
  = roundPercent (report_downloadedTiles r) (report_totalTiles r).

(** Tiles accounted for in a report: for an active job the scheduler adds
    the failed and the skipped tiles to the downloaded ones. *)
Definition report_accounted (r : JobReport) : Z :=
  match r with
  | ActiveReport a =>
      TileDownloader.as_downloadedTiles a + TileDownloader.as_failedTiles a
      + TileDownloader.as_skippedTiles a
  | StoredReport r => ss_downloadedTiles r
  end.

(** ** Example states *)

Definition fourTiles : list Tile :=
  [mkTile 0 0 1; mkTile 0 1 1; mkTile 1 0 1; mkTile 1 1 1].

(** A fresh instance with the default options whose store already holds
    the first of [fourTiles] and whose registry has a row for ["job-1"]. *)
Definition registered : t :=
  let s := create None None None in
  let d := TileDatabase.saveTile 900 1 0 0 "arcgis" [Byte.x01] (database s) in
  let d :=
    match TileDatabase.createDownloadJob 950 "job-1" "four tiles" "arcgis"
            (mkBounds (85 # 1) (- (85 # 1)) (179 # 1) (- (179 # 1)))
            1 1 4 None None d with
    | Some d' => d'
    | None => d
    end in
  TileDownloader.with_db d s.

(** [registered] after [startJob] on the four tiles at clock value 1000. *)
Definition oneOfFourStored : t :=
  TileDownloader.startJob 1000 "job-1" "arcgis" fourTiles registered.

(** Twelve tiles of zoom level 4, none of them stored in [registered]. *)
Definition twelveTiles : list Tile :=
  map (fun i => mkTile i 0 4) (zrange 0 11).

(** [registered] after [startJob] on the twelve tiles at clock value
    1000, and the first 26 events of the run driven by
    [TileDownloader.nextEvent]: nine tiles have then been downloaded. *)
Definition twelveStarted : t :=
  TileDownloader.startJob 1000 "job-1" "arcgis" twelveTiles registered.

Definition nineFetched : list (Z * TileDownloader.Event) :=
  firstn 26 (TileDownloader.drain 26 1000 [Byte.x07] twelveStarted).

(** A job of two tiles started on an instance with one slot, and the
    same job started again on a third tile while its first fetch is under
    way. *)
Definition halfFetched : t :=
  TileDownloader.startJob 1000 "job-1" "arcgis"
    [mkTile 0 0 1; mkTile 0 1 1] (create (Some 1) None None).

Definition restarted : t :=
  TileDownloader.startJob 1001 "job-1" "arcgis" [mkTile 1 0 1] halfFetched.

(** A fresh instance with the default options (four slots, 500 ms between
    requests) after [startJob] on four tiles that the store does not hold,
    at clock value 1000. *)
Definition fourStarted : t :=
  TileDownloader.startJob 1000 "job-1" "arcgis" fourTiles
    (create None None None).

(** The three timers armed by [rateLimit] in [fourStarted] fire when they
    are due. *)
Definition timersFire : list (Z * TileDownloader.Event) :=
  [ (1500, TileDownloader.TimerFires 1%nat);
    (1500, TileDownloader.TimerFires 2%nat);
    (1500, TileDownloader.TimerFires 3%nat) ].

(** Clock values of a run never decrease. *)
Fixpoint chronological (from : Z) (evs : list (Z * TileDownloader.Event))
  : bool :=
  match evs with
  | [] => true
  | (now, _) :: evs' => (from <=? now) && chronological now evs'
  end.

(** Consecutive requests are at least [gap] apart. *)
Fixpoint spacedBy (gap : Z) (times : list Z) : bool :=
  match times with
  | t1 :: ((t2 :: _) as rest) => (t2 - t1 >=? gap) && spacedBy gap rest
  | _ => true
  end.

(** A fresh instance with the default options whose store holds the one
    tile of zoom 0 for [arcgis]. *)
Definition worldStored : t :=
  let s := create None None None in
  TileDownloader.with_db
    (TileDatabase.saveTile 900 0 0 0 "arcgis" [Byte.x01] (database s)) s.

(** Clock values at which the requests were issued. *)
Definition requestTimes (s : t) : list Z :=
  map TileDownloader.req_time (TileDownloader.requests s).

(** A fetch waiting in [rateLimit] wakes [gap] after the last stamp or
    later. *)
Definition waitsLongEnough (gap : Z) (s : t) (f : TileDownloader.Fetch)
  : Prop :=
  match TileDownloader.fetch_phase f with
  | TileDownloader.RateWait wakeAt =>
      TileDownloader.lastRequestTime s + gap <= wakeAt
  | _ => True
  end.

(** A scheduler with one slot whose requests so far are [gap] apart, at
    clock value [clock]. *)
Definition paced (gap clock : Z) (s : t) : Prop :=
  TileDownloader.maxConcurrent s = 1
  /\ TileDownloader.minRequestInterval s = gap
  /\ TileDownloader.slotsMatch s
  /\ TileDownloader.activeDownloads s <= 1
  /\ spacedBy gap (requestTimes s) = true
  /\ Forall (fun time => time <= TileDownloader.lastRequestTime s)
            (requestTimes s)
  /\ TileDownloader.lastRequestTime s <= clock
  /\ Forall (waitsLongEnough gap s) (TileDownloader.inflight s).

End TileForge.

(* ================================================================== *)
(** * Properties of the tile calculator *)
(* ================================================================== *)

Module CalculatorProps.
Import TileCalculator.

Lemma zrange_length lo hi : length (zrange lo hi) = Z.to_nat (hi - lo + 1).
Proof. unfold zrange. now rewrite length_map, length_seq. Qed.

Lemma zrange_In lo hi i : In i (zrange lo hi) <-> lo <= i <= hi.
Proof.
  unfold zrange. rewrite in_map_iff. split.
  - intros (k & <- & Hk). apply in_seq in Hk. lia.
  - intros H. exists (Z.to_nat (i - lo)). split; [lia|].
    apply in_seq. lia.
Qed.

Lemma flat_map_length_sum {A B} (f : A -> list B) (l : list A) :
  Z.of_nat (length (flat_map f l))
  = fold_left (fun acc a => acc + Z.of_nat (length (f a))) l 0.
Proof.
  assert (G : forall acc,
             fold_left (fun acc a => acc + Z.of_nat (length (f a))) l acc
             = acc + Z.of_nat (length (flat_map f l))).
  { induction l as [|a l IH]; intros acc; simpl.
    - lia.
    - rewrite IH, length_app. lia. }
  rewrite G. lia.
Qed.

Lemma fold_left_ext_in {A B} (f g : A -> B -> A) (l : list B) :
  (forall a b, In b l -> f a b = g a b) ->
  forall a, fold_left f l a = fold_left g l a.
Proof.
  induction l as [|b l IH]; intros H a; simpl; [reflexivity|].
  rewrite H by now left. apply IH. intros; apply H; now right.
Qed.

Lemma tilesOfBounds_length tb :
  minX tb <= maxX tb -> minY tb <= maxY tb ->
  Z.of_nat (length (tilesOfBounds tb))
  = (maxX tb - minX tb + 1) * (maxY tb - minY tb + 1).
Proof.
  intros HX HY. unfold tilesOfBounds.
  rewrite flat_map_length_sum.
  assert (G : forall (l : list Z) acc,
             fold_left
               (fun acc (a : Z) =>
                  acc + Z.of_nat
                          (length (map (fun y => mkTile a y (tbz tb))
                                       (zrange (minY tb) (maxY tb))))) l acc
             = acc + Z.of_nat (length l) * (maxY tb - minY tb + 1)).
  { induction l as [|a l IH]; intros acc; simpl fold_left.
    - simpl. lia.
    - rewrite IH, length_map, zrange_length. simpl length. lia. }
  rewrite G, zrange_length. lia.
Qed.

Lemma getTileBounds_ordered b zoom :
  minX (getTileBounds b zoom) <= maxX (getTileBounds b zoom)
  /\ minY (getTileBounds b zoom) <= maxY (getTileBounds b zoom).
Proof. unfold getTileBounds; simpl. lia. Qed.

(** C4.  The closed-form count (width times height of the tile range,
    summed over the zoom levels) is the length of the enumerated tile list,
    for all bounds and zoom ranges, valid or not. *)
Theorem calculateTileCount_is_list_length :
  forall (b : GeoBounds) (minZoom maxZoom : Z),
    calculateTileCount b minZoom maxZoom
    = Z.of_nat (length (getTileList b minZoom maxZoom)).
Proof.
  intros b lo hi. unfold calculateTileCount, getTileList.
  rewrite flat_map_length_sum.
  apply fold_left_ext_in. intros acc zoom _.
  destruct (getTileBounds_ordered b zoom) as [HX HY].
  now rewrite tilesOfBounds_length.
Qed.


(** ** Tile ranges of valid bounds *)

Lemma pow2_nonneg zoom : 0 <= zoom -> (pow2 zoom == inject_Z (2 ^ zoom))%Q.
Proof.
  intros H. unfold pow2. now rewrite Zpower_Qpower.
Qed.

Lemma Qltb_false a b : Qltb a b = false <-> (b <= a)%Q.
Proof.
  unfold Qltb. rewrite negb_false_iff. apply Qle_bool_iff.
Qed.

Lemma isValidBounds_spec b :
  isValidBounds b = true <->
  ((- latLimit <= north b <= latLimit)%Q /\
   (- latLimit <= south b <= latLimit)%Q /\
   (- (180 # 1) <= east b <= 180 # 1)%Q /\
   (- (180 # 1) <= west b <= 180 # 1)%Q /\
   (south b < north b)%Q).
Proof.
  unfold isValidBounds.
  repeat match goal with
         | |- context [Qltb ?a ?b] =>
             let E := fresh "E" in
             destruct (Qltb a b) eqn:E;
             [ apply negb_true_iff in E;
               assert (~ (b <= a)%Q)
                 by (rewrite <- Qle_bool_iff; congruence); clear E
             | apply Qltb_false in E ]
         end; simpl;
    try (split; [discriminate | intros; tauto]).
  destruct (Qle_bool (north b) (south b)) eqn:EQ.
  - apply Qle_bool_iff in EQ. split; [discriminate|].
    intros (_ & _ & _ & _ & H). exfalso. now apply (Qlt_not_le _ _ H).
  - split; [intros _|reflexivity].
    repeat split; try assumption.
    apply Qnot_le_lt. rewrite <- Qle_bool_iff. congruence.
Qed.

(** The [x] index as a function of the longitude. *)
Lemma tileX_range lng zoom :
  0 <= zoom -> (- (180 # 1) <= lng <= 180 # 1)%Q ->
  0 <= tileX lng zoom <= 2 ^ zoom
  /\ (tileX lng zoom <= 2 ^ zoom - 1 <-> (lng < 180 # 1)%Q).
Proof.
  intros Hz [Hlo Hhi]. unfold tileX.
  set (v := ((lng + (180 # 1)) / (360 # 1))%Q).
  assert (Hn : (0 < 2 ^ zoom)%Z) by (apply Z.pow_pos_nonneg; lia).
  assert (HnQ : (0 < inject_Z (2 ^ zoom))%Q).
  { change 0%Q with (inject_Z 0). now rewrite <- Zlt_Qlt. }
  assert (Hv0 : (0 <= v)%Q).
  { unfold v. apply Qle_shift_div_l; [reflexivity|].
    rewrite Qmult_0_l.
    apply Qplus_le_l with (z := (- (180 # 1))%Q).
    ring_simplify. exact Hlo. }
  assert (Hv1 : (v <= 1)%Q).
  { unfold v. apply Qle_shift_div_r; [reflexivity|].
    apply Qplus_le_l with (z := (- (180 # 1))%Q).
    ring_simplify. exact Hhi. }
  assert (E : (v * pow2 zoom == v * inject_Z (2 ^ zoom))%Q)
    by now rewrite pow2_nonneg.
  rewrite (Qfloor_comp _ _ E).
  assert (L0 : (inject_Z 0 <= v * inject_Z (2 ^ zoom))%Q).
  { change (inject_Z 0) with 0%Q. apply Qmult_le_0_compat; [assumption|].
    now apply Qlt_le_weak. }
  assert (L1 : (v * inject_Z (2 ^ zoom) <= inject_Z (2 ^ zoom))%Q).
  { rewrite <- (Qmult_1_l (inject_Z (2 ^ zoom))) at 2.
    apply Qmult_le_compat_r; [assumption|]. now apply Qlt_le_weak. }
  apply Qfloor_resp_le in L0, L1. rewrite Qfloor_Z in L0, L1.
  split; [lia|]. split.
  - intros Hf. apply Qnot_le_lt. intros Hge.
    assert (Hv : (v == 1)%Q).
    { apply Qle_antisym; [assumption|].
      unfold v. apply Qle_shift_div_l; [reflexivity|].
      apply Qplus_le_l with (z := (- (180 # 1))%Q).
      ring_simplify. exact Hge. }
    assert (E1 : (v * inject_Z (2 ^ zoom) == inject_Z (2 ^ zoom))%Q)
      by (rewrite Hv; ring).
    rewrite (Qfloor_comp _ _ E1), Qfloor_Z in Hf. lia.
  - intros Hlt.
    assert (Hv : (v < 1)%Q).
    { unfold v. apply Qlt_shift_div_r; [reflexivity|].
      apply Qplus_lt_l with (z := (- (180 # 1))%Q).
      ring_simplify. exact Hlt. }
    assert (L2 : (v * inject_Z (2 ^ zoom) < inject_Z (2 ^ zoom))%Q).
    { rewrite <- (Qmult_1_l (inject_Z (2 ^ zoom))) at 2.
      now apply Qmult_lt_compat_r. }
    assert (Hf := Qfloor_le (v * inject_Z (2 ^ zoom))).
    assert (Hlt2 := Qle_lt_trans _ _ _ Hf L2).
    rewrite <- Zlt_Qlt in Hlt2. lia.
Qed.

(** The [y] index as a function of the latitude. *)
Lemma tileY_range lat zoom :
  0 <= zoom ->
  (0 <= tileY lat zoom <= 2 ^ zoom - 1 <-> onMercatorMap lat).
Proof.
  intros Hz. unfold tileY, onMercatorMap.
  set (v := mercatorFraction lat).
  assert (Hn : (0 < 2 ^ zoom)%Z) by (apply Z.pow_pos_nonneg; lia).
  assert (E : Q2R (pow2 zoom) = IZR (2 ^ zoom)).
  { rewrite (Qeq_eqR _ _ (pow2_nonneg Hz)). unfold Q2R, inject_Z. simpl.
    field. }
  rewrite E.
  assert (HnR : (0 < IZR (2 ^ zoom))%R) by now apply IZR_lt.
  destruct (Zfloor_bound (v * IZR (2 ^ zoom))) as [B1 B2].
  split.
  - intros [H0 H1]. apply IZR_le in H0, H1.
    rewrite minus_IZR in H1. split.
    + apply Rmult_le_reg_r with (r := IZR (2 ^ zoom)); [assumption|]. lra.
    + apply Rmult_lt_reg_r with (r := IZR (2 ^ zoom)); [assumption|]. lra.
  - intros [H0 H1]. split.
    + apply Zfloor_lub. simpl. apply Rmult_le_pos; lra.
    + assert (IZR (Zfloor (v * IZR (2 ^ zoom))) < IZR (2 ^ zoom))%R.
      { apply Rle_lt_trans with (1 := B1).
        rewrite <- (Rmult_1_l (IZR (2 ^ zoom))) at 2.
        now apply Rmult_lt_compat_r. }
      apply lt_IZR in H. lia.
Qed.

(** ** Latitudes on the Mercator map

    [mercatorFraction lat] is [(1 - ln (tan p + 1 / cos p) / PI) / 2] with
    [p] the latitude in radians; it lies in [[0, 1)] as long as the logarithm
    lies in [(-PI, PI)].  Up to 85 degrees from the equator this follows from
    [314 / 100 < PI], [87 / 1000 <= sin (PI / 36)] and [23 <= exp PI]. *)
Section MercatorRows.
Local Open Scope R_scope.

Lemma PI_above_314 : 314 / 100 < PI.
Proof.
  destruct (PI_2_3_7_ineq 1) as [L _].
  unfold PI_2_3_7_tg, tg_alt, Ratan_seq in L. simpl in L. lra.
Qed.

Lemma sin_PI36 : 870 / 10000 <= sin (PI / 36).
Proof.
  assert (P1 := PI_above_314). assert (P2 := PI_4).
  destruct (sin_bound (PI / 36) 0) as [L _]; [lra | lra |].
  eapply Rle_trans; [|exact L].
  unfold sin_approx, sin_term. simpl.
  set (a := PI / 36).
  assert (A1 : 314 / 3600 < a) by (unfold a; lra).
  assert (A2 : a <= 4 / 36) by (unfold a; lra).
  assert (A3 : a * a <= 16 / 1296) by nra.
  assert (A4 : a * (a * a) <= 16 / 1296 * a) by nra.
  lra.
Qed.

Lemma exp_PI : 23 <= exp PI.
Proof.
  assert (E0 : 1000766601 / 1000000000 <= exp (314 / 409600)).
  { eapply Rle_trans; [|apply exp_ineq1_le]. lra. }
  assert (E1 : 1001533789 / 1000000000 <= exp (314 / 204800)).
  { replace (314 / 204800) with (314 / 409600 + 314 / 409600) by lra.
    rewrite exp_plus. nra. }
  assert (E2 : 100306993 / 100000000 <= exp (314 / 102400)).
  { replace (314 / 102400) with (314 / 204800 + 314 / 204800) by lra.
    rewrite exp_plus. nra. }
  assert (E3 : 251537321 / 250000000 <= exp (314 / 51200)).
  { replace (314 / 51200) with (314 / 102400 + 314 / 102400) by lra.
    rewrite exp_plus. nra. }
  assert (E4 : 1012336381 / 1000000000 <= exp (314 / 25600)).
  { replace (314 / 25600) with (314 / 51200 + 314 / 51200) by lra.
    rewrite exp_plus. nra. }
  assert (E5 : 256206237 / 250000000 <= exp (314 / 12800)).
  { replace (314 / 12800) with (314 / 25600 + 314 / 25600) by lra.
    rewrite exp_plus. nra. }
  assert (E6 : 525133087 / 500000000 <= exp (314 / 6400)).
  { replace (314 / 6400) with (314 / 12800 + 314 / 12800) by lra.
    rewrite exp_plus. nra. }
  assert (E7 : 275764759 / 250000000 <= exp (314 / 3200)).
  { replace (314 / 3200) with (314 / 6400 + 314 / 6400) by lra.
    rewrite exp_plus. nra. }
  assert (E8 : 304184809 / 250000000 <= exp (314 / 1600)).
  { replace (314 / 1600) with (314 / 3200 + 314 / 3200) by lra.
    rewrite exp_plus. nra. }
  assert (E9 : 46264199 / 31250000 <= exp (314 / 800)).
  { replace (314 / 800) with (314 / 1600 + 314 / 1600) by lra.
    rewrite exp_plus. nra. }
  assert (E10 : 438349027 / 200000000 <= exp (314 / 400)).
  { replace (314 / 400) with (314 / 800 + 314 / 800) by lra.
    rewrite exp_plus. nra. }
  assert (E11 : 300234171 / 62500000 <= exp (314 / 200)).
  { replace (314 / 200) with (314 / 400 + 314 / 400) by lra.
    rewrite exp_plus. nra. }
  assert (E12 : 23075982703 / 1000000000 <= exp (314 / 100)).
  { replace (314 / 100) with (314 / 200 + 314 / 200) by lra.
    rewrite exp_plus. nra. }
  assert (P := PI_above_314).
  assert (M : exp (314 / 100) < exp PI) by now apply exp_increasing.
  lra.
Qed.

Lemma cos_far_from_pole :
  forall phi, - (17 * PI / 36) <= phi <= 17 * PI / 36 ->
              sin (PI / 36) <= cos phi.
Proof.
  assert (P := PI_RGT_0).
  assert (pos : forall phi, 0 <= phi <= 17 * PI / 36 ->
                            sin (PI / 36) <= cos phi).
  { intros phi H. rewrite <- (sin_shift phi).
    apply sin_incr_1; lra. }
  intros phi H. destruct (Rle_dec 0 phi).
  - apply pos. lra.
  - rewrite <- cos_neg. apply pos. lra.
Qed.

Lemma mercator_argument :
  forall phi, - (17 * PI / 36) <= phi <= 17 * PI / 36 ->
              exp (- PI) < tan phi + 1 / cos phi < exp PI.
Proof.
  intros phi H.
  assert (S36 := sin_PI36). assert (E := exp_PI).
  assert (C := cos_far_from_pole H).
  assert (B := SIN_bound phi). assert (B' := COS_bound phi).
  assert (Pyth := sin2_cos2 phi). unfold Rsqr in Pyth.
  set (s := sin phi) in *. set (c := cos phi) in *.
  assert (c0 : 0 < c) by lra.
  assert (U : tan phi + 1 / c = (1 + s) / c).
  { unfold tan. fold s c. field. lra. }
  rewrite U, exp_Ropp.
  assert (s1 : s < 1) by nra.
  assert (K : c * c / 2 <= 1 + s) by nra.
  split.
  - apply Rlt_le_trans with (c / 2).
    + apply Rle_lt_trans with (/ 23).
      * apply Rinv_le_contravar; lra.
      * lra.
    + apply Rmult_le_reg_r with c; [lra|].
      unfold Rdiv. rewrite (Rmult_assoc (1 + s)), Rinv_l by lra. lra.
  - apply Rle_lt_trans with (2 / c).
    + unfold Rdiv. apply Rmult_le_compat_r; [|lra].
      left. now apply Rinv_0_lt_compat.
    + apply Rlt_le_trans with 23; [|lra].
      apply Rmult_lt_reg_r with c; [lra|].
      unfold Rdiv. rewrite Rmult_assoc, Rinv_l by lra. lra.
Qed.

Lemma mercator_log :
  forall phi, - (17 * PI / 36) <= phi <= 17 * PI / 36 ->
              - PI < ln (tan phi + 1 / cos phi) < PI.
Proof.
  intros phi H. destruct (@mercator_argument phi H) as [L U].
  assert (E := exp_pos (- PI)).
  split.
  - rewrite <- (ln_exp (- PI)) at 1. apply ln_increasing; lra.
  - rewrite <- (ln_exp PI) at 1. apply ln_increasing; lra.
Qed.

Lemma onMercatorMap_within_85 :
  forall lat : Q, (- (85 # 1) <= lat <= 85 # 1)%Q -> onMercatorMap lat.
Proof.
  intros lat [L U]. apply Qle_Rle in L, U.
  assert (E : Q2R (85 # 1) = 85) by (unfold Q2R; simpl; lra).
  rewrite Q2R_opp in L. rewrite E in L, U.
  assert (P := PI_RGT_0).
  unfold onMercatorMap, mercatorFraction.
  set (phi := Q2R lat * PI / 180).
  assert (H : - (17 * PI / 36) <= phi <= 17 * PI / 36)
    by (unfold phi; split; nra).
  destruct (@mercator_log phi H) as [A B].
  set (l := ln (tan phi + 1 / cos phi)) in *.
  assert (D : -1 < l / PI < 1).
  { split.
    - apply Rmult_lt_reg_r with PI; [lra|].
      unfold Rdiv. rewrite Rmult_assoc, Rinv_l by lra. lra.
    - apply Rmult_lt_reg_r with PI; [lra|].
      unfold Rdiv. rewrite Rmult_assoc, Rinv_l by lra. lra. }
  lra.
Qed.

End MercatorRows.




End CalculatorProps.

(* ================================================================== *)
(** * Properties of [JsMap] *)
(* ================================================================== *)

Module JsMapProps.

Section Facts.
Variable V : Type.
Implicit Types (m : JsMap.t V) (k : string) (v : V).

Lemma get_has k m : JsMap.has k m = true <-> exists v, JsMap.get k m = Some v.
Proof.
  unfold JsMap.has, JsMap.get.
  induction m as [|[k' v'] m IH]; simpl.
  - split; [discriminate | intros [v H]; discriminate].
  - destruct (String.eqb k' k); simpl.
    + split; [intros _; now exists v' | reflexivity].
    + exact IH.
Qed.

Lemma get_none_has k m : JsMap.get k m = None <-> JsMap.has k m = false.
Proof.
  destruct (JsMap.has k m) eqn:E.
  - apply get_has in E as [v E]. rewrite E. split; discriminate.
  - split; [reflexivity|intros _].
    destruct (JsMap.get k m) eqn:G; [|reflexivity].
    assert (JsMap.has k m = true) by (apply get_has; eauto). congruence.
Qed.

Lemma has_In k m : JsMap.has k m = true <-> In k (JsMap.keys m).
Proof.
  unfold JsMap.has, JsMap.keys. rewrite existsb_exists, in_map_iff.
  split; intros (e & H1 & H2).
  - exists e. apply String.eqb_eq in H2. now split.
  - exists e. split; [assumption|]. now apply String.eqb_eq.
Qed.

Lemma set_fresh k v m :
  JsMap.has k m = false -> JsMap.set k v m = m ++ [(k, v)].
Proof.
  unfold JsMap.has. induction m as [|[k' v'] m IH]; simpl; [reflexivity|].
  destruct (String.eqb k' k); simpl; [discriminate|].
  intros H. now rewrite IH.
Qed.

Lemma get_set_same k v m : JsMap.get k (JsMap.set k v m) = Some v.
Proof.
  unfold JsMap.get. induction m as [|[k' v'] m IH]; simpl.
  - now rewrite String.eqb_refl.
  - destruct (String.eqb k' k) eqn:E; simpl.
    + now rewrite String.eqb_refl.
    + now rewrite E.
Qed.

Lemma get_set_other k k' v m :
  k' <> k -> JsMap.get k' (JsMap.set k v m) = JsMap.get k' m.
Proof.
  intros N. unfold JsMap.get.
  induction m as [|[k0 v0] m IH]; simpl.
  - destruct (String.eqb_spec k k'); [congruence|reflexivity].
  - destruct (String.eqb_spec k0 k); simpl.
    + subst k0. destruct (String.eqb_spec k k'); [congruence|reflexivity].
    + destruct (String.eqb k0 k'); [reflexivity|exact IH].
Qed.

Lemma has_set_same k v m : JsMap.has k (JsMap.set k v m) = true.
Proof. apply get_has. exists v. apply get_set_same. Qed.

Lemma has_set k k' v m :
  JsMap.has k' (JsMap.set k v m) = (String.eqb k k' || JsMap.has k' m)%bool.
Proof.
  destruct (String.eqb_spec k k') as [<-|N]; simpl.
  - apply has_set_same.
  - destruct (JsMap.has k' m) eqn:E.
    + apply get_has. apply get_has in E as [w E]. exists w.
      rewrite get_set_other; auto.
    + apply get_none_has. apply get_none_has in E.
      rewrite get_set_other; auto.
Qed.

Lemma keys_set_present k v m :
  JsMap.has k m = true -> JsMap.keys (JsMap.set k v m) = JsMap.keys m.
Proof.
  unfold JsMap.has, JsMap.keys.
  induction m as [|[k' v'] m IH]; simpl; [discriminate|].
  destruct (String.eqb_spec k' k); simpl.
  - now subst.
  - intros H. now rewrite IH.
Qed.

Lemma keys_set_fresh k v m :
  JsMap.has k m = false -> JsMap.keys (JsMap.set k v m) = JsMap.keys m ++ [k].
Proof.
  intros H. rewrite set_fresh by assumption.
  unfold JsMap.keys. now rewrite map_app.
Qed.

Lemma has_delete_same k m : JsMap.has k (JsMap.delete k m) = false.
Proof.
  unfold JsMap.has, JsMap.delete. induction m as [|[k' v'] m IH]; simpl.
  - reflexivity.
  - destruct (String.eqb k' k) eqn:E; simpl; [exact IH|].
    now rewrite E.
Qed.

Lemma get_delete_other k k' m :
  k' <> k -> JsMap.get k' (JsMap.delete k m) = JsMap.get k' m.
Proof.
  intros N. unfold JsMap.get, JsMap.delete.
  induction m as [|[k0 v0] m IH]; simpl; [reflexivity|].
  destruct (String.eqb_spec k0 k); simpl.
  - subst k0. destruct (String.eqb_spec k k'); [congruence|exact IH].
  - destruct (String.eqb k0 k'); [reflexivity|exact IH].
Qed.

Lemma has_delete_other k k' m :
  k' <> k -> JsMap.has k' (JsMap.delete k m) = JsMap.has k' m.
Proof.
  intros N. destruct (JsMap.has k' m) eqn:E.
  - apply get_has. apply get_has in E as [w E]. exists w.
    now rewrite get_delete_other.
  - apply get_none_has. apply get_none_has in E.
    now rewrite get_delete_other.
Qed.

Lemma has_delete_false k k' m :
  JsMap.has k' m = false -> JsMap.has k' (JsMap.delete k m) = false.
Proof.
  intros H. destruct (String.eqb_spec k' k) as [->|N].
  - apply has_delete_same.
  - now rewrite has_delete_other.
Qed.

Lemma lastKey_app m k v : JsMap.lastKey (m ++ [(k, v)]) = Some k.
Proof. unfold JsMap.lastKey. now rewrite rev_app_distr. Qed.

Lemma lastKey_set_fresh k v m :
  JsMap.has k m = false -> JsMap.lastKey (JsMap.set k v m) = Some k.
Proof. intros H. rewrite set_fresh by assumption. apply lastKey_app. Qed.

End Facts.

End JsMapProps.

(* ================================================================== *)
(** * Properties of the tile store *)
(* ================================================================== *)

Module StoreProps.
Import TileCalculator TileDatabase JsMapProps.

Lemma cache_manageCacheSize_has k db :
  JsMap.has k (cache db) = false ->
  JsMap.has k (cache (manageCacheSize db)) = false.
Proof.
  intros H. unfold manageCacheSize.
  destruct (JsMap.size (cache db) >=? maxCacheSize db); [|assumption].
  destruct (JsMap.firstKey (cache db)); [|assumption].
  simpl. now apply has_delete_false.
Qed.

Lemma tiles_manageCacheSize db : tiles (manageCacheSize db) = tiles db.
Proof.
  unfold manageCacheSize.
  destruct (JsMap.size (cache db) >=? maxCacheSize db); [|reflexivity].
  now destruct (JsMap.firstKey (cache db)).
Qed.

(** C7.  A [saveTile] of [data] followed at once by a [getTile] of the same
    key returns [data]. *)
Theorem getTile_after_saveTile :
  forall (now z x y : Z) (source : string) (data : Buffer) (db : t),
    fst (getTile z x y source (saveTile now z x y source data db))
    = Some data.
Proof.
  intros now z x y source data db.
  unfold getTile, saveTile. cbn [cache with_cache].
  now rewrite get_set_same.
Qed.

(** ** Recency order of the cache *)

Lemma getTile_promotes z x y source db data db' :
  getTile z x y source db = (Some data, db') ->
  JsMap.lastKey (cache db') = Some (getCacheKey z x y source).
Proof.
  unfold getTile.
  destruct (JsMap.get (getCacheKey z x y source) (cache db)) as [d|] eqn:G.
  - intros [= _ <-]. cbn [cache with_cache].
    apply lastKey_set_fresh, has_delete_same.
  - destruct (stmt_getTile z x y source (tiles db)) as [row|];
      [|discriminate].
    intros [= _ <-]. cbn [cache with_cache].
    apply lastKey_set_fresh, cache_manageCacheSize_has.
    now apply get_none_has.
Qed.

Lemma saveTile_fresh_is_last now z x y source data db :
  JsMap.has (getCacheKey z x y source) (cache db) = false ->
  JsMap.lastKey (cache (saveTile now z x y source data db))
  = Some (getCacheKey z x y source).
Proof.
  intros H. unfold saveTile. cbn [cache with_cache].
  apply lastKey_set_fresh, cache_manageCacheSize_has. exact H.
Qed.

Local Open Scope string_scope.

(** [hasTile] answers from the cache and leaves the older entry where it
    is. *)
Lemma hasTile_hit_keeps_order :
  hasTile 1 0 0 "arcgis" twoCached = (true, twoCached)
  /\ JsMap.keys (cache twoCached) = ["arcgis/1/0/0"; "arcgis/1/0/1"].
Proof. split; reflexivity. Qed.

(** [saveTile] on a cached key replaces the bytes where the key stands. *)
Lemma saveTile_overwrite_keeps_order :
  cache (saveTile 3 1 0 0 "arcgis" [Byte.x03] twoCached)
  = [("arcgis/1/0/0", [Byte.x03]); ("arcgis/1/0/1", [Byte.x02])].
Proof. reflexivity. Qed.

(** C6, as stated, fails: a cache hit of [hasTile] does not make the key
    the most recent entry. *)
Lemma cache_is_not_strict_lru : ~ strictLRU.
Proof.
  intros H.
  specialize (H OpHas 1 0 0 "arcgis" twoCached eq_refl).
  vm_compute in H. discriminate H.
Qed.

Local Close Scope string_scope.

(** C6, amended.  After a [getTile] that returns the tile (from the cache
    or from the backend) and after a [saveTile] of a key that was not
    cached, the key is the most recent entry of the cache; [hasTile]
    leaves the store, and so the order of the cache, as it was. *)
Theorem cache_recency :
  forall (now z x y : Z) (source : string) (data : Buffer) (db : t),
    (forall d db', getTile z x y source db = (Some d, db') ->
       JsMap.lastKey (cache db') = Some (getCacheKey z x y source))
    /\ (JsMap.has (getCacheKey z x y source) (cache db) = false ->
        JsMap.lastKey (cache (saveTile now z x y source data db))
        = Some (getCacheKey z x y source))
    /\ snd (hasTile z x y source db) = db.
Proof.
  intros now z x y source data db. split; [|split].
  - intros d db'. apply getTile_promotes.
  - apply saveTile_fresh_is_last.
  - unfold hasTile.
    now destruct (JsMap.has (getCacheKey z x y source) (cache db)).
Qed.


Lemma cache_recency_witness :
  JsMap.lastKey (cache (snd (getTile 1 0 0 "arcgis" twoCached)))
  = Some "arcgis/1/0/0"%string
  /\ JsMap.lastKey (cache (saveTile 3 1 0 2 "arcgis" [Byte.x03] twoCached))
     = Some "arcgis/1/0/2"%string.
Proof.
  split.
  - exact (proj1 (cache_recency 3 1 0 0 "arcgis" [Byte.x03] twoCached)
             [Byte.x01] (snd (getTile 1 0 0 "arcgis" twoCached)) eq_refl).
  - exact (proj1 (proj2 (cache_recency 3 1 0 2 "arcgis" [Byte.x03] twoCached))
             eq_refl).
Defined.

(** ** Range deletion *)

Lemma prefix_app (p s : string) : String.prefix p (p ++ s) = true.
Proof.
  induction p as [|c p IH]; simpl.
  - now destruct s.
  - destruct (Ascii.ascii_dec c c); [exact IH|congruence].
Qed.

Lemma append_assoc (a b c : string) :
  ((a ++ b) ++ c)%string = (a ++ (b ++ c))%string.
Proof. induction a as [|ch a IH]; simpl; [reflexivity|]. now rewrite IH. Qed.

Lemma getCacheKey_prefix z x y source :
  String.prefix (source ++ "/") (getCacheKey z x y source) = true.
Proof.
  unfold getCacheKey. rewrite <- append_assoc. apply prefix_app.
Qed.

(** One [DELETE] per zoom level removes the rows of that level only. *)
Lemma inRange_one_zoom source z xLo xHi yLo yHi r :
  inRange source z z xLo xHi yLo yHi r
  = (row_z r =? z) && String.eqb (row_source r) source
    && (xLo <=? row_x r) && (row_x r <=? xHi)
    && (yLo <=? row_y r) && (row_y r <=? yHi).
Proof.
  unfold inRange.
  rewrite !Z.geb_leb.
  destruct (String.eqb (row_source r) source); simpl;
    [|now rewrite andb_false_r].
  destruct (Z.eqb_spec (row_z r) z) as [->|N]; simpl.
  - now rewrite Z.leb_refl.
  - destruct (Z.leb_spec z (row_z r)), (Z.leb_spec (row_z r) z);
      simpl; try reflexivity; lia.
Qed.

Lemma inJobRange_spec source bounds lo hi r :
  inJobRange source bounds lo hi r
  = existsb
      (fun z =>
         let tb := getTileBounds bounds z in
         inRange source z z (minX tb) (maxX tb) (minY tb) (maxY tb) r)
      (zrange lo hi).
Proof.
  destruct (existsb _ (zrange lo hi)) eqn:E.
  - apply existsb_exists in E as (z & Hz & E).
    apply CalculatorProps.zrange_In in Hz.
    cbv zeta in E. rewrite inRange_one_zoom in E.
    repeat (apply andb_prop in E as [E ?]).
    apply Z.eqb_eq in E. subst z. unfold inJobRange.
    repeat (apply andb_true_intro; split); try assumption; lia.
  - destruct (inJobRange source bounds lo hi r) eqn:F; [|reflexivity].
    unfold inJobRange in F. cbv zeta in F.
    repeat (apply andb_prop in F as [F ?]).
    rewrite <- E. symmetry. apply existsb_exists.
    exists (row_z r). split.
    + apply CalculatorProps.zrange_In. lia.
    + cbv zeta. rewrite inRange_one_zoom, Z.eqb_refl. simpl.
      repeat (apply andb_true_intro; split); assumption.
Qed.

Lemma filter_length_le {A} (f : A -> bool) (l : list A) :
  (length (filter f l) <= length l)%nat.
Proof.
  induction l as [|a l IH]; simpl; [lia|]. destruct (f a); simpl; lia.
Qed.

Lemma filter_twice {A} (f g : A -> bool) (l : list A) :
  filter f (filter g l) = filter (fun a => g a && f a) l.
Proof.
  induction l as [|a l IH]; simpl; [reflexivity|].
  destruct (g a); simpl; [|exact IH]. destruct (f a); now rewrite IH.
Qed.

(** The loop of [deleteTilesForJob] over a list of zoom levels. *)
Lemma delete_loop source bounds (zs : list Z) :
  forall (rows : list TileRow) (total : Z),
    fold_left
      (fun (acc : list TileRow * Z) z =>
         let '(rows, totalDeleted) := acc in
         let tileBounds := getTileBounds bounds z in
         let '(rows', changes) :=
           stmt_deleteTilesByJob source z z
             (minX tileBounds) (maxX tileBounds)
             (minY tileBounds) (maxY tileBounds) rows in
         (rows', totalDeleted + changes))
      zs (rows, total)
    = let kept :=
        filter
          (fun r =>
             negb (existsb
                     (fun z =>
                        let tb := getTileBounds bounds z in
                        inRange source z z (minX tb) (maxX tb)
                                (minY tb) (maxY tb) r) zs)) rows in
      (kept, total + (Z.of_nat (length rows) - Z.of_nat (length kept))).
Proof.
  induction zs as [|z zs IH]; intros rows total.
  - simpl. rewrite forallb_filter_id.
    + f_equal. lia.
    + now apply forallb_forall.
  - cbn [fold_left].
    match goal with
    | |- fold_left _ zs ?acc = _ =>
        let acc' :=
          eval cbv beta iota zeta delta [stmt_deleteTilesByJob] in acc in
        change acc with acc'
    end.
    rewrite IH. cbv zeta. rewrite filter_twice.
    match goal with
    | |- (?A, _) = (?C, _) => assert (E : A = C)
    end.
    { apply filter_ext. intros r. cbn [existsb]. now rewrite negb_orb. }
    rewrite E. f_equal. lia.
Qed.

Lemma deleteTilesForJob_eq source bounds lo hi db :
  deleteTilesForJob source bounds lo hi db
  = let kept :=
      filter (fun r => negb (inJobRange source bounds lo hi r)) (tiles db) in
    (Z.of_nat (length (tiles db)) - Z.of_nat (length kept),
     with_cache
       (filter (fun e => negb (String.prefix (source ++ "/") (fst e)))
               (cache db))
       (with_tiles kept db)).
Proof.
  unfold deleteTilesForJob. rewrite delete_loop. cbv beta iota zeta.
  match goal with
  | |- (_, with_cache _ (with_tiles ?A _)) = (_, with_cache _ (with_tiles ?C _)) =>
      assert (E : A = C)
  end.
  { apply filter_ext. intros r. now rewrite inJobRange_spec. }
  rewrite E. f_equal.
Qed.


End StoreProps.

(* ================================================================== *)
(** * Properties of the facade *)
(* ================================================================== *)

Module FacadeProps.
Import TileCalculator TileForge.

(** ** Validation *)



(** ** Progress *)

Lemma Math_round_percent (n total : Z) :
  total > 0 ->
  TileDownloader.Math_round
    ((inject_Z n / inject_Z total) * (100 # 1))%Q
  = TileDownloader.Math_round ((100 # 1) * inject_Z n / inject_Z total)%Q.
Proof.
  intros H. unfold TileDownloader.Math_round. apply Qfloor_comp.
  assert (N : ~ (inject_Z total == 0)%Q).
  { intros E. unfold Qeq, inject_Z in E. simpl in E. lia. }
  field. exact N.
Qed.

(** In [oneOfFourStored] the job is active with one tile skipped and none
    downloaded: the scheduler reports 25, not 0. *)
Lemma progress_counts_skipped :
  exists r,
    getJobStatus "job-1" oneOfFourStored = Some r
    /\ report_downloadedTiles r = 0 /\ report_totalTiles r = 4
    /\ report_progress r = 25.
Proof. eexists. split; [reflexivity|]. repeat split. Qed.




(** ** The rate limit *)

(** C9 at a concrete run.  With the default options, [startJob] on four
    tiles at clock value 1000 issues the first request at once and arms
    three timers for 1500; when they fire, three requests are issued at
    the same clock value, although 500 ms are required between two
    requests. *)
Theorem rate_limit_not_kept_by_concurrent_fetches :
  TileDownloader.minRequestInterval fourStarted = 500
  /\ chronological 1000 timersFire = true
  /\ option_map
       (fun s => map TileDownloader.req_time (TileDownloader.requests s))
       (TileDownloader.run timersFire fourStarted)
     = Some [1000; 1500; 1500; 1500]
  /\ spacedBy 500 [1000; 1500; 1500; 1500] = false.
Proof. repeat split. Qed.

End FacadeProps.

(* ================================================================== *)
(** * Properties of the download scheduler *)
(* ================================================================== *)

Module SchedulerProps.
Import TileCalculator TileDownloader JobInvariant JsMapProps.

Ltac fields :=
  cbn [db maxConcurrent minRequestInterval queue activeDownloads counter
       activeJobs downloadStats lastRequestTime inflight requests infoLog
       with_db with_queue with_activeDownloads with_counter with_activeJobs
       with_downloadStats with_lastRequestTime with_inflight with_requests
       logInfo] in *.

Ltac break_match :=
  repeat match goal with
         | |- context [match ?x with _ => _ end] => destruct x eqn:?
         end.

(** ** What the registry holds about a job *)

Import TileDatabase(rowsOf).

Lemma rowsOf_updateRow_other j j' f d :
  j' <> j -> (forall r, TileDatabase.id (f r) = TileDatabase.id r) ->
  rowsOf j (TileDatabase.updateRow j' f d) = rowsOf j d.
Proof.
  intros N Hf. unfold rowsOf, TileDatabase.updateRow. cbn.
  induction (TileDatabase.download_jobs d) as [|r rows IH]; simpl;
    [reflexivity|].
  destruct (String.eqb_spec (TileDatabase.id r) j') as [E|E].
  - rewrite Hf, E.
    destruct (String.eqb_spec j' j); [congruence|]. exact IH.
  - destruct (String.eqb (TileDatabase.id r) j); now rewrite IH.
Qed.

Lemma rowsOf_updateRow_self j f d :
  (forall r, TileDatabase.id (f r) = TileDatabase.id r) ->
  rowsOf j (TileDatabase.updateRow j f d) = map f (rowsOf j d).
Proof.
  intros Hf. unfold rowsOf, TileDatabase.updateRow. cbn.
  induction (TileDatabase.download_jobs d) as [|r rows IH]; simpl;
    [reflexivity|].
  destruct (String.eqb_spec (TileDatabase.id r) j) as [E|E].
  - rewrite Hf, E, String.eqb_refl. simpl. now rewrite IH.
  - destruct (String.eqb_spec (TileDatabase.id r) j); [congruence|].
    exact IH.
Qed.

Lemma jobs_manageCacheSize d :
  TileDatabase.download_jobs (TileDatabase.manageCacheSize d)
  = TileDatabase.download_jobs d.
Proof.
  unfold TileDatabase.manageCacheSize. now break_match.
Qed.

Lemma jobs_saveTile now z x y source data d :
  TileDatabase.download_jobs (TileDatabase.saveTile now z x y source data d)
  = TileDatabase.download_jobs d.
Proof.
  unfold TileDatabase.saveTile. cbn. now rewrite jobs_manageCacheSize.
Qed.

Lemma hasTile_db z x y source d :
  snd (TileDatabase.hasTile z x y source d) = d.
Proof. unfold TileDatabase.hasTile. now break_match. Qed.

(** ** Completions in the log *)

Lemma completions_app j l1 l2 :
  completions j (l1 ++ l2) = completions j l1 ++ completions j l2.
Proof. unfold completions. apply flat_map_app. Qed.

Lemma completions_snoc_other j j' d sk f log :
  j' <> j ->
  completions j (log ++ [LogCompleted j' d sk f]) = completions j log.
Proof.
  intros N. rewrite completions_app. cbn.
  destruct (String.eqb_spec j' j); [congruence|]. now rewrite app_nil_r.
Qed.

Lemma completions_snoc_self j d sk f log :
  completions j (log ++ [LogCompleted j d sk f])
  = completions j log ++ [(d, sk, f)].
Proof.
  rewrite completions_app. cbn. now rewrite String.eqb_refl.
Qed.

(** ** The view of a job under the operations on another job *)

Lemma jview_handleTileDownloaded_other j j' now s :
  j' <> j -> jview j (handleTileDownloaded now j' s) = jview j s.
Proof.
  intros N. unfold handleTileDownloaded.
  destruct (JsMap.get j' (activeJobs s)); [|reflexivity].
  destruct (JsMap.get j' (downloadStats s)); [|reflexivity].
  destruct (_ =? 0); unfold jview, registryRows; fields;
    rewrite !get_set_other by congruence; try reflexivity.
  f_equal. apply (rowsOf_updateRow_other (j := j)); [assumption|reflexivity].
Qed.

Lemma jview_handleTileFailed_other j j' s :
  j' <> j -> jview j (handleTileFailed j' s) = jview j s.
Proof.
  intros N. unfold handleTileFailed.
  destruct (JsMap.get j' (activeJobs s)); [|reflexivity].
  destruct (JsMap.get j' (downloadStats s)); [|reflexivity].
  unfold jview, registryRows; fields.
  now rewrite !get_set_other by congruence.
Qed.

Lemma jview_handleTileSkipped_other j j' s :
  j' <> j -> jview j (handleTileSkipped j' s) = jview j s.
Proof.
  intros N. unfold handleTileSkipped.
  destruct (JsMap.get j' (downloadStats s)); [|reflexivity].
  unfold jview, registryRows; fields.
  now rewrite !get_set_other by congruence.
Qed.

Lemma jview_completeJob_other j j' now s :
  j' <> j -> jview j (completeJob now j' s) = jview j s.
Proof.
  intros N. unfold completeJob.
  destruct (JsMap.get j' (activeJobs s)); [|reflexivity].
  destruct (JsMap.get j' (downloadStats s)); [|reflexivity].
  unfold jview, registryRows; fields.
  rewrite !get_delete_other by congruence.
  rewrite completions_snoc_other by assumption.
  f_equal. unfold TileDatabase.updateJobStatus, TileDatabase.updateJobProgress.
  rewrite !rowsOf_updateRow_other; auto.
Qed.

(** ** The view of a job under the operations on the job itself *)

Lemma tenth_step d :
  0 <= d ->
  (Z.rem (d + 1) 10 =? 0) = true /\ 10 * ((d + 1) / 10) = d + 1
  \/ (Z.rem (d + 1) 10 =? 0) = false /\ 10 * ((d + 1) / 10) = 10 * (d / 10).
Proof.
  intros H. rewrite Z.rem_mod_nonneg by lia.
  destruct (Z.eqb_spec ((d + 1) mod 10) 0) as [E|E]; [left|right];
    (split; [reflexivity|]).
  - pose proof (Z.div_mod (d + 1) 10 ltac:(lia)). lia.
  - pose proof (Z.div_mod (d + 1) 10 ltac:(lia)).
    pose proof (Z.div_mod d 10 ltac:(lia)).
    pose proof (Z.mod_pos_bound (d + 1) 10 ltac:(lia)).
    pose proof (Z.mod_pos_bound d 10 ltac:(lia)).
    lia.
Qed.

(** ** Counting tasks and fetches *)

Lemma filter_count_app {A} (P : A -> bool) (l1 l2 : list A) :
  Z.of_nat (length (filter P (l1 ++ l2)))
  = Z.of_nat (length (filter P l1)) + Z.of_nat (length (filter P l2)).
Proof. rewrite filter_app, length_app. lia. Qed.

Lemma filter_count_one {A} (P : A -> bool) (a : A) :
  Z.of_nat (length (filter P [a])) = Z.b2z (P a).
Proof. cbn [filter]. now destruct (P a). Qed.

Lemma filter_count_nonneg {A} (P : A -> bool) (l : list A) :
  0 <= Z.of_nat (length (filter P l)).
Proof. lia. Qed.

Lemma filter_count_replaceNth {A} (P : A -> bool) (l : list A) i a a' :
  nth_error l i = Some a ->
  Z.of_nat (length (filter P (replaceNth i a' l)))
  = Z.of_nat (length (filter P l)) - Z.b2z (P a) + Z.b2z (P a').
Proof.
  revert i. induction l as [|b l IH]; intros [|i] H; simpl in H;
    try discriminate.
  - injection H as E. subst b. cbn [replaceNth filter].
    destruct (P a), (P a'); cbn [length Z.b2z]; lia.
  - cbn [replaceNth filter]. specialize (IH _ H).
    destruct (P b); cbn [length]; lia.
Qed.

Lemma filter_count_removeNth {A} (P : A -> bool) (l : list A) i a :
  nth_error l i = Some a ->
  Z.of_nat (length (filter P (removeNth i l)))
  = Z.of_nat (length (filter P l)) - Z.b2z (P a).
Proof.
  revert i. induction l as [|b l IH]; intros [|i] H; simpl in H;
    try discriminate.
  - injection H as E. subst b. cbn [removeNth filter].
    destruct (P a); cbn [length Z.b2z]; lia.
  - cbn [removeNth filter]. specialize (IH _ H).
    destruct (P b); cbn [length]; lia.
Qed.

Lemma length_replaceNth {A} (l : list A) i a :
  length (replaceNth i a l) = length l.
Proof.
  revert i. induction l as [|b l IH]; intros [|i]; simpl; auto.
Qed.

Lemma length_removeNth {A} (l : list A) i a :
  nth_error l i = Some a -> S (length (removeNth i l)) = length l.
Proof.
  revert i. induction l as [|b l IH]; intros [|i] H; simpl in *;
    try discriminate; auto.
Qed.

Lemma In_replaceNth {A} (l : list A) i a b :
  In b (replaceNth i a l) -> b = a \/ In b l.
Proof.
  revert i. induction l as [|c l IH]; intros [|i]; simpl; try tauto.
  - intros [H|H]; auto.
  - intros [H|H]; auto. destruct (IH _ H); auto.
Qed.

Lemma In_removeNth {A} (l : list A) i b :
  In b (removeNth i l) -> In b l.
Proof.
  revert i. induction l as [|c l IH]; intros [|i]; simpl; try tauto.
  intros [H|H]; eauto.
Qed.

Lemma jobTask_eq j task : jobTask j task = true <-> task_jobId task = j.
Proof. unfold jobTask. apply String.eqb_eq. Qed.

Lemma jobTask_neq j task : jobTask j task = false <-> task_jobId task <> j.
Proof. unfold jobTask. apply String.eqb_neq. Qed.

(** ** Issuing a request *)

Lemma getTileUrl_known source z x y c :
  Sources.ownSource source <> None <->
  Sources.getTileUrl source z x y c <> None.
Proof.
  unfold Sources.getTileUrl.
  destruct (Sources.ownSource source) as [config|]; [|tauto].
  destruct (Sources.subdomains config); split; congruence.
Qed.

Lemma issueRequest_frame now task s :
  let s1 := snd (issueRequest now task s) in
  queue s1 = queue s /\ inflight s1 = inflight s
  /\ activeDownloads s1 = activeDownloads s
  /\ maxConcurrent s1 = maxConcurrent s
  /\ (fst (issueRequest now task s) = Fetching
      \/ fst (issueRequest now task s) = Settled).
Proof.
  unfold issueRequest.
  destruct (Sources.getTileUrl _ _ _ _ _); cbn [fst snd]; fields.
  - tauto.
  - unfold handleTileFailed. break_match; fields; tauto.
Qed.

Lemma handleTileDownloaded_frame now k s :
  let s1 := handleTileDownloaded now k s in
  queue s1 = queue s /\ inflight s1 = inflight s
  /\ activeDownloads s1 = activeDownloads s
  /\ maxConcurrent s1 = maxConcurrent s.
Proof. unfold handleTileDownloaded. break_match; fields; tauto. Qed.

Lemma handleTileFailed_frame k s :
  let s1 := handleTileFailed k s in
  queue s1 = queue s /\ inflight s1 = inflight s
  /\ activeDownloads s1 = activeDownloads s
  /\ maxConcurrent s1 = maxConcurrent s.
Proof. unfold handleTileFailed. break_match; fields; tauto. Qed.

Lemma handleTileSkipped_frame k s :
  let s1 := handleTileSkipped k s in
  queue s1 = queue s /\ inflight s1 = inflight s
  /\ activeDownloads s1 = activeDownloads s
  /\ maxConcurrent s1 = maxConcurrent s
  /\ db s1 = db s /\ activeJobs s1 = activeJobs s
  /\ infoLog s1 = infoLog s.
Proof. unfold handleTileSkipped. break_match; fields; tauto. Qed.

Lemma count_nth_error {A} (P : A -> bool) (l : list A) i a :
  nth_error l i = Some a -> P a = true ->
  1 <= Z.of_nat (length (filter P l)).
Proof.
  intros H Pa. apply nth_error_In in H.
  assert (I : In a (filter P l)) by (apply filter_In; auto).
  destruct (filter P l); [destruct I|]. cbn [length]. lia.
Qed.

Lemma completeJob_frame now k s :
  let s1 := completeJob now k s in
  queue s1 = queue s /\ inflight s1 = inflight s
  /\ activeDownloads s1 = activeDownloads s
  /\ maxConcurrent s1 = maxConcurrent s.
Proof. unfold completeJob. break_match; fields; tauto. Qed.

(** ** Queueing the tiles of a job *)

Lemma startJob_eq now k sr tiles s :
  startJob now k sr tiles s = processQueue now (startJobQueued now k sr tiles s).
Proof. reflexivity. Qed.

Lemma alreadyStored_cons sr tile tiles d :
  alreadyStored sr (tile :: tiles) d
  = Z.b2z (fst (TileDatabase.hasTile (z tile) (x tile) (y tile) sr d))
    + alreadyStored sr tiles d.
Proof.
  unfold alreadyStored. cbn [filter].
  destruct (fst _); cbn [length Z.b2z]; lia.
Qed.

Lemma queueTiles_effect k sr :
  forall tiles s,
    let s' :=
      fold_left
        (fun s tile => queueTile k sr (z tile) (x tile) (y tile) s) tiles s in
    db s' = db s /\ activeJobs s' = activeJobs s /\ infoLog s' = infoLog s
    /\ inflight s' = inflight s /\ activeDownloads s' = activeDownloads s
    /\ maxConcurrent s' = maxConcurrent s
    /\ queue s'
       = queue s
         ++ map (fun t => mkTask k sr (z t) (x t) (y t))
              (filter
                 (fun t =>
                    negb (fst (TileDatabase.hasTile (z t) (x t) (y t) sr
                                 (db s)))) tiles)
    /\ (forall k', k' <> k ->
          JsMap.get k' (downloadStats s') = JsMap.get k' (downloadStats s))
    /\ JsMap.get k (downloadStats s')
       = option_map (addSkipped (alreadyStored sr tiles (db s)))
           (JsMap.get k (downloadStats s)).
Proof.
  induction tiles as [|tile tiles IH]; intros s; cbn [fold_left].
  - cbv zeta. repeat split; try reflexivity.
    + cbn [filter map]. now rewrite app_nil_r.
    + unfold alreadyStored. cbn [filter length].
      destruct (JsMap.get k (downloadStats s)) as [[a b c d]|];
        cbn [option_map]; [|reflexivity].
      unfold addSkipped. cbn. f_equal. f_equal. lia.
  - specialize (IH (queueTile k sr (z tile) (x tile) (y tile) s)).
    cbv zeta in IH |- *.
    destruct IH as (I1 & I2 & I3 & I4 & I5 & I6 & I7 & I8 & I9).
    assert (Q : let s1 := queueTile k sr (z tile) (x tile) (y tile) s in
                db s1 = db s /\ activeJobs s1 = activeJobs s
                /\ infoLog s1 = infoLog s /\ inflight s1 = inflight s
                /\ activeDownloads s1 = activeDownloads s
                /\ maxConcurrent s1 = maxConcurrent s
                /\ queue s1
                   = queue s
                     ++ (if fst (TileDatabase.hasTile (z tile) (x tile)
                                   (y tile) sr (db s))
                         then []
                         else [mkTask k sr (z tile) (x tile) (y tile)])
                /\ (forall k', k' <> k ->
                      JsMap.get k' (downloadStats s1)
                      = JsMap.get k' (downloadStats s))
                /\ JsMap.get k (downloadStats s1)
                   = option_map
                       (addSkipped
                          (Z.b2z (fst (TileDatabase.hasTile (z tile) (x tile)
                                         (y tile) sr (db s)))))
                       (JsMap.get k (downloadStats s))).
    { unfold queueTile.
      pose proof (hasTile_db (z tile) (x tile) (y tile) sr (db s)) as HD.
      destruct (TileDatabase.hasTile _ _ _ _ _) as [present d].
      cbn [fst snd] in *. subst d. destruct present.
      - unfold handleTileSkipped. fields.
        destruct (JsMap.get k (downloadStats s)) as [[a b c e]|] eqn:G;
          fields; repeat split; try reflexivity.
        + now rewrite app_nil_r.
        + intros k' N. now rewrite get_set_other.
        + now rewrite get_set_same.
        + now rewrite app_nil_r.
        + now rewrite G.
      - fields. repeat split; try reflexivity.
        destruct (JsMap.get k (downloadStats s)) as [[a b c e]|];
          cbn [option_map]; [|reflexivity].
        unfold addSkipped. cbn. f_equal. f_equal. lia. }
    cbv zeta in Q.
    destruct Q as (Q1 & Q2 & Q3 & Q4 & Q5 & Q6 & Q7 & Q8 & Q9).
    repeat split; try congruence.
    + rewrite I7, Q7, Q1. cbn [filter].
      destruct (fst _); cbn [negb map]; rewrite <- app_assoc; reflexivity.
    + intros k' N. rewrite I8, Q8; auto.
    + rewrite I9, Q9, Q1, alreadyStored_cons.
      destruct (JsMap.get k (downloadStats s)) as [[a b c e]|];
        cbn [option_map]; [|reflexivity].
      unfold addSkipped. cbn. f_equal. f_equal. lia.
Qed.

Section OneJob.

Variables (j src : string) (T K : Z) (base : list (Z * Z * Z)).
Variables (clean fresh : Prop).

Local Abbreviation accounting := (accounting T K base clean fresh).
Local Abbreviation jobInv := (jobInv j src T K base clean fresh).

Lemma accounting_downloaded now s n :
  accounting (jview j s) n -> 1 <= n ->
  accounting (jview j (handleTileDownloaded now j s)) (n - 1).
Proof.
  unfold JobInvariant.accounting, handleTileDownloaded, jview. cbn [v_job v_stats v_done v_rows].
  destruct (JsMap.get j (activeJobs s)) as [job|] eqn:EJ;
    destruct (JsMap.get j (downloadStats s)) as [st|] eqn:ES;
    try (intros []; fail).
  - intros (H1 & H2 & H3 & H4 & H5 & H6 & H7 & H8) Hn.
    destruct (tenth_step H3) as [[E1 E2]|[E1 E2]];
      cbn [stats_downloaded downloadedCount]; rewrite E1; fields;
      rewrite !get_set_same;
      cbn [stats_downloaded bump_downloaded job_totalTiles skippedCount
           downloadedCount failedCount];
      (repeat split; try assumption; try lia).
    + intros F r Hr. unfold registryRows in Hr. fields.
      unfold TileDatabase.updateJobProgress in Hr.
      rewrite rowsOf_updateRow_self in Hr by reflexivity.
      apply in_map_iff in Hr as (r0 & <- & _).
      cbn [TileDatabase.downloadedTiles TileDatabase.set_progress]. lia.
    + intros F r Hr. rewrite E2. now apply H8.
  - intros [Hn _] ?. lia.
Qed.

Lemma accounting_failed s n :
  accounting (jview j s) n -> 1 <= n -> ~ clean ->
  accounting (jview j (handleTileFailed j s)) (n - 1).
Proof.
  unfold JobInvariant.accounting, handleTileFailed, jview. cbn [v_job v_stats v_done v_rows].
  destruct (JsMap.get j (activeJobs s)) as [job|] eqn:EJ;
    destruct (JsMap.get j (downloadStats s)) as [st|] eqn:ES;
    try (intros []; fail).
  - intros (H1 & H2 & H3 & H4 & H5 & H6 & H7 & H8) Hn Hc.
    fields. rewrite !get_set_same.
    cbn [stats_failed bump_failed job_totalTiles skippedCount
         downloadedCount failedCount].
    repeat split; try assumption; try lia. intros F. now destruct Hc.
  - intros [Hn _] ?. lia.
Qed.

Lemma accounting_completed now s :
  accounting (jview j s) 0 ->
  JsMap.get j (activeJobs s) <> None ->
  accounting (jview j (completeJob now j s)) 0
  /\ JsMap.get j (activeJobs (completeJob now j s)) = None.
Proof.
  unfold JobInvariant.accounting, completeJob, jview. cbn [v_job v_stats v_done v_rows].
  destruct (JsMap.get j (activeJobs s)) as [job|] eqn:EJ;
    destruct (JsMap.get j (downloadStats s)) as [st|] eqn:ES;
    try (intros []; fail); try congruence.
  intros (H1 & H2 & H3 & H4 & H5 & H6 & H7 & H8) _. fields.
  assert (G1 : forall V (m : JsMap.t V), JsMap.get j (JsMap.delete j m) = None).
  { intros V m. apply get_none_has, has_delete_same. }
  rewrite !G1. split; [|reflexivity]. split; [reflexivity|].
  exists (downloadedCount st), (failedCount st).
  repeat split; try assumption; try lia.
  - rewrite completions_snoc_self. congruence.
  - unfold registryRows in H. fields.
    unfold TileDatabase.updateJobStatus, TileDatabase.updateJobProgress in H.
    rewrite !rowsOf_updateRow_self in H by reflexivity.
    apply in_map_iff in H as (r0 & <- & H).
    apply in_map_iff in H as (r1 & <- & _). reflexivity.
  - unfold registryRows in H. fields.
    unfold TileDatabase.updateJobStatus, TileDatabase.updateJobProgress in H.
    rewrite !rowsOf_updateRow_self in H by reflexivity.
    apply in_map_iff in H as (r0 & <- & H). reflexivity.
Qed.

Hypothesis cleanSource : clean -> Sources.ownSource src <> None.

Lemma issueRequest_accounting now task s n :
  accounting (jview j s) n ->
  (jobTask j task = true -> 1 <= n /\ task_source task = src) ->
  accounting (jview j (snd (issueRequest now task s)))
    (n - Z.b2z (jobTask j task
                && negb (unsettled
                           (mkFetch task (fst (issueRequest now task s)))))).
Proof.
  intros A H. unfold issueRequest.
  destruct (Sources.getTileUrl _ _ _ _ _) eqn:U; cbn [fst snd unsettled fetch_phase].
  - rewrite andb_false_r. cbn [Z.b2z]. rewrite Z.sub_0_r. exact A.
  - rewrite andb_true_r.
    destruct (jobTask j task) eqn:J; cbn [Z.b2z].
    + destruct (H eq_refl) as [Hn Hs]. apply jobTask_eq in J. rewrite J.
      apply accounting_failed; [exact A|exact Hn|].
      intros C. apply cleanSource in C.
      rewrite <- Hs in C. apply (getTileUrl_known _ (task_z task) (task_x task)
                                   (task_y task) (counter s)) in C.
      congruence.
    + apply jobTask_neq in J. rewrite jview_handleTileFailed_other by exact J.
      rewrite Z.sub_0_r. exact A.
Qed.

Lemma accounting_eq v v' n n' :
  accounting v n -> v = v' -> n = n' -> accounting v' n'.
Proof. now intros H <- <-. Qed.

Lemma downloadTile_inv now task q' s :
  jobInv (with_queue (task :: q') s) ->
  jobInv (with_queue q' (downloadTile now task s)).
Proof.
  intros [A [S1 S2]]. fields.
  assert (HT : jobTask j task = true -> task_source task = src).
  { intros J. apply S1; [now left|exact J]. }
  assert (HN : jobTask j task = true ->
               1 <= queued j (with_queue (task :: q') s)
                    + pending j (with_queue (task :: q') s)).
  { intros J. unfold queued, pending. fields. cbn [filter]. rewrite J.
    cbn [length]. lia. }
  unfold downloadTile.
  destruct (_ <? _).
  - split; [|split].
    + eapply accounting_eq; [exact A|reflexivity|].
      unfold queued, pending. fields.
      rewrite filter_count_app, filter_count_one.
      cbn [fetch_task unsettled fetch_phase filter].
      destruct (jobTask j task); cbn [length Z.b2z andb]; lia.
    + fields. intros t Ht. apply S1. now right.
    + fields. intros f Hf. apply in_app_or in Hf as [Hf|[<-|[]]].
      * now apply S2.
      * cbn [fetch_task]. intros J _. now apply HT.
  - pose proof (issueRequest_frame now task (with_lastRequestTime now s)) as F.
    pose proof (@issueRequest_accounting now task (with_lastRequestTime now s)
                  _ A) as G.
    destruct (issueRequest now task (with_lastRequestTime now s))
      as [ph s1] eqn:E.
    cbn [fst snd] in F, G. cbv zeta in F. fields.
    destruct F as (F1 & F2 & _ & _ & F5).
    split; [|split].
    + eapply accounting_eq; [apply G|reflexivity|].
      * intros J. split; [now apply HN|now apply HT].
      * unfold queued, pending. fields. rewrite F2.
        rewrite filter_count_app, filter_count_one.
        cbn [fetch_task filter].
        destruct (jobTask j task), (unsettled (mkFetch task ph));
          cbn [length negb andb Z.b2z]; lia.
    + fields. intros t Ht. apply S1. now right.
    + fields. rewrite F2. intros f Hf.
      apply in_app_or in Hf as [Hf|[<-|[]]].
      * now apply S2.
      * cbn [fetch_task]. intros J _. now apply HT.
Qed.

Lemma startTasks_inv now :
  forall q s, jobInv (with_queue q s) -> jobInv (startTasks now q s).
Proof.
  induction q as [|task q' IH]; intros s H; cbn [startTasks].
  - exact H.
  - destruct (_ <? _); [|exact H].
    apply IH. apply downloadTile_inv. exact H.
Qed.

Lemma completeJob_inv now k s :
  jobInv s ->
  (k = j ->
   forall job st,
     JsMap.get j (activeJobs s) = Some job ->
     JsMap.get j (downloadStats s) = Some st ->
     downloadedCount st + failedCount st + skippedCount st
     >= job_totalTiles job) ->
  jobInv (completeJob now k s).
Proof.
  intros [A S] C.
  destruct (completeJob_frame now k s) as (F1 & F2 & _).
  split.
  - unfold queued, pending. rewrite F1, F2.
    destruct (String.eqb_spec k j) as [->|N].
    + specialize (C eq_refl).
      destruct (JsMap.get j (activeJobs s)) as [job|] eqn:EJ.
      * assert (A' := A).
        unfold JobInvariant.accounting, jview in A'.
        cbn [v_job v_stats] in A'. rewrite EJ in A'.
        destruct (JsMap.get j (downloadStats s)) as [st|] eqn:ES;
          [|destruct A'].
        destruct A' as (H1 & H2 & H3 & H4 & H5 & _).
        specialize (C _ _ eq_refl eq_refl).
        assert (Z : queued j s + pending j s = 0).
        { unfold queued, pending in *. lia. }
        rewrite Z in A. unfold queued, pending in Z. rewrite Z.
        apply accounting_completed; [exact A|congruence].
      * unfold completeJob. rewrite EJ. exact A.
    + rewrite jview_completeJob_other by exact N. exact A.
  - unfold fromSource. rewrite F1, F2. exact S.
Qed.

Lemma checkJobs_inv now s : jobInv s -> jobInv (checkJobs now s).
Proof.
  unfold checkJobs. generalize (JsMap.keys (activeJobs s)).
  intros ks. revert s. induction ks as [|k ks IH]; intros s H; cbn [fold_left].
  - exact H.
  - apply IH.
    destruct (JsMap.get k (activeJobs s)) as [job|] eqn:EJ; [|exact H].
    destruct (JsMap.get k (downloadStats s)) as [st|] eqn:ES; [|exact H].
    destruct (_ && _) eqn:C; [|exact H].
    apply completeJob_inv; [exact H|].
    intros -> job' st' EJ' ES'.
    apply andb_prop in C as [C _]. rewrite EJ' in EJ. rewrite ES' in ES.
    injection EJ as ->. injection ES as ->. lia.
Qed.

Lemma processQueue_inv now s : jobInv s -> jobInv (processQueue now s).
Proof.
  intros H. unfold processQueue. apply checkJobs_inv, startTasks_inv.
  exact H.
Qed.

(** *** One turn of the event loop *)

Lemma timer_inv now i task wakeAt s :
  jobInv s ->
  nth_error (inflight s) i = Some (mkFetch task (RateWait wakeAt)) ->
  jobInv (setPhase i (fst (issueRequest now task (with_lastRequestTime now s)))
            (snd (issueRequest now task (with_lastRequestTime now s)))).
Proof.
  intros [A [S1 S2]] N.
  pose proof (issueRequest_frame now task (with_lastRequestTime now s)) as F.
  pose proof (@issueRequest_accounting now task (with_lastRequestTime now s)
                _ A) as G.
  destruct (issueRequest now task (with_lastRequestTime now s))
    as [ph s1] eqn:E.
  cbn [fst snd] in *. cbv zeta in F. fields.
  destruct F as (F1 & F2 & _ & _ & F5).
  unfold setPhase. rewrite F2, N. cbn [fetch_task].
  split; [|split].
  - eapply accounting_eq; [apply G|reflexivity|].
    + intros J. split.
      * unfold queued, pending.
        pose proof (@count_nth_error _
                      (fun f => jobTask j (fetch_task f) && unsettled f)
                      _ _ _ N) as C.
        cbn [fetch_task unsettled fetch_phase] in C. rewrite J in C.
        specialize (C eq_refl). lia.
      * apply (S2 _ (nth_error_In _ _ N)); [exact J|reflexivity].
    + unfold queued, pending. fields. rewrite F1.
      rewrite (@filter_count_replaceNth _ _ _ _ _ _ N).
      cbv beta. cbn [fetch_task].
      destruct (jobTask j task), ph;
        cbn [fetch_task unsettled fetch_phase negb andb Z.b2z]; lia.
  - fields. now rewrite F1.
  - fields. intros f Hf J U. apply In_replaceNth in Hf as [->|Hf].
    + cbn [fetch_task] in *.
      apply (S2 _ (nth_error_In _ _ N)); [exact J|reflexivity].
    + now apply S2.
Qed.

Lemma response_inv now i task r s :
  jobInv s ->
  nth_error (inflight s) i = Some (mkFetch task Fetching) ->
  (clean -> jobTask j task = true -> r <> Failure) ->
  jobInv
    (setPhase i Settled
       match r with
       | Success data =>
           handleTileDownloaded now (task_jobId task)
             (with_db (TileDatabase.saveTile now (task_z task)
                         (task_x task) (task_y task) (task_source task)
                         data (db s)) s)
       | Failure => handleTileFailed (task_jobId task) s
       end).
Proof.
  intros [A [S1 S2]] N C.
  assert (HN : jobTask j task = true -> 1 <= queued j s + pending j s).
  { intros J. unfold queued, pending.
    pose proof (@count_nth_error _
                  (fun f => jobTask j (fetch_task f) && unsettled f)
                  _ _ _ N) as P.
    cbn [fetch_task unsettled fetch_phase] in P. rewrite J in P.
    specialize (P eq_refl). lia. }
  set (s1 := match r with Success _ => _ | Failure => _ end).
  assert (F : queue s1 = queue s /\ inflight s1 = inflight s).
  { unfold s1. destruct r.
    - destruct (handleTileDownloaded_frame now (task_jobId task)
                  (with_db (TileDatabase.saveTile now (task_z task)
                         (task_x task) (task_y task) (task_source task)
                         data (db s)) s)) as (? & ? & _). fields. tauto.
    - destruct (handleTileFailed_frame (task_jobId task) s) as (? & ? & _).
      tauto. }
  destruct F as [F1 F2].
  assert (A1 : accounting (jview j s1)
                 (queued j s + pending j s - Z.b2z (jobTask j task))).
  { unfold s1. destruct (jobTask j task) eqn:J; cbn [Z.b2z].
    - assert (J' := J). apply jobTask_eq in J'. rewrite J'. destruct r.
      + apply accounting_downloaded; [|now apply HN].
        eapply accounting_eq; [exact A| |reflexivity].
        unfold jview, registryRows, TileDatabase.rowsOf. fields.
        now rewrite jobs_saveTile.
      + apply accounting_failed; [exact A|now apply HN|].
        intros Cl. now apply (C Cl eq_refl).
    - apply jobTask_neq in J. rewrite Z.sub_0_r. destruct r.
      + rewrite jview_handleTileDownloaded_other by exact J.
        eapply accounting_eq; [exact A| |reflexivity].
        unfold jview, registryRows, TileDatabase.rowsOf. fields.
        now rewrite jobs_saveTile.
      + now rewrite jview_handleTileFailed_other by exact J. }
  unfold setPhase. rewrite F2, N. cbn [fetch_task].
  split; [|split].
  - eapply accounting_eq; [exact A1|reflexivity|].
    unfold queued, pending. fields. rewrite F1.
    rewrite (@filter_count_replaceNth _ _ _ _ _ _ N).
    cbv beta. cbn [fetch_task unsettled fetch_phase].
    destruct (jobTask j task); cbn [negb andb Z.b2z]; lia.
  - fields. now rewrite F1.
  - fields. intros f Hf J U.
    apply In_replaceNth in Hf as [->|Hf].
    + discriminate U.
    + now apply S2.
Qed.

Lemma release_inv i task a s :
  jobInv s ->
  nth_error (inflight s) i = Some (mkFetch task Settled) ->
  jobInv (with_activeDownloads a
            (with_inflight (removeNth i (inflight s)) s)).
Proof.
  intros [A [S1 S2]] N. split; [|split].
  - eapply accounting_eq; [exact A|reflexivity|].
    unfold queued, pending. fields.
    rewrite (@filter_count_removeNth _ _ _ _ _ N).
    cbn [fetch_task unsettled fetch_phase]. rewrite andb_false_r.
    cbn [Z.b2z]. lia.
  - exact S1.
  - fields. intros f Hf. apply In_removeNth in Hf. now apply S2.
Qed.

Lemma filter_jobTask_other k tiles sr (P : Tile -> bool) :
  k <> j ->
  filter (jobTask j)
    (map (fun t => mkTask k sr (z t) (x t) (y t)) (filter P tiles)) = [].
Proof.
  intros N. induction (filter P tiles) as [|t l IH]; cbn [map filter];
    [reflexivity|].
  unfold jobTask at 1. cbn [task_jobId].
  destruct (String.eqb_spec k j); [congruence|exact IH].
Qed.

Lemma startJobQueued_other_inv now k sr tiles s :
  k <> j -> jobInv s -> jobInv (startJobQueued now k sr tiles s).
Proof.
  intros N [A [S1 S2]]. unfold startJobQueued. cbv zeta.
  match goal with
  | |- jobInv (fold_left _ tiles ?s0) =>
      destruct (queueTiles_effect k sr tiles s0)
        as (Q1 & Q2 & Q3 & Q4 & Q5 & Q6 & Q7 & Q8 & Q9);
      set (s1 := s0) in *
  end.
  set (s' := fold_left _ tiles s1) in *.
  assert (V : jview j s' = jview j s).
  { unfold jview, registryRows. rewrite Q1, Q2, Q3, Q8 by congruence.
    unfold s1. fields.
    rewrite !get_set_other by congruence.
    rewrite completions_app. cbn [completions flat_map]. rewrite app_nil_r.
    f_equal. unfold TileDatabase.updateJobStatus.
    apply rowsOf_updateRow_other; [exact N|reflexivity]. }
  split; [|split].
  - eapply accounting_eq; [exact A|now rewrite V|].
    unfold queued, pending. rewrite Q4, Q7. unfold s1. fields.
    rewrite filter_app, filter_jobTask_other by exact N.
    now rewrite app_nil_r.
  - rewrite Q7. unfold s1. fields. intros t Ht J.
    apply in_app_or in Ht as [Ht|Ht]; [now apply S1|].
    apply in_map_iff in Ht as (tile & <- & _).
    unfold jobTask in J. cbn [task_jobId] in J.
    apply String.eqb_eq in J. congruence.
  - rewrite Q4. unfold s1. fields. exact S2.
Qed.

Lemma filter_jobTask_cancel k q :
  k <> j ->
  filter (jobTask j)
    (filter (fun task => negb (String.eqb (task_jobId task) k)) q)
  = filter (jobTask j) q.
Proof.
  intros N. induction q as [|t q IH]; cbn [filter]; [reflexivity|].
  destruct (String.eqb_spec (task_jobId t) k) as [E|E]; cbn [negb filter].
  - unfold jobTask at 2. rewrite E.
    destruct (String.eqb_spec k j); [congruence|exact IH].
  - now rewrite IH.
Qed.

Lemma cancelJob_other_inv now k s :
  k <> j -> jobInv s -> jobInv (snd (cancelJob now k s)).
Proof.
  intros N [A [S1 S2]]. unfold cancelJob.
  destruct (JsMap.get k (activeJobs s)); cbn [snd]; [|now split].
  split; [|split].
  - eapply accounting_eq; [exact A| |].
    + unfold jview, registryRows. fields.
      rewrite !get_delete_other by congruence.
      rewrite completions_app. cbn [completions flat_map].
      rewrite app_nil_r. f_equal. symmetry.
      apply rowsOf_updateRow_other; [exact N|reflexivity].
    + unfold queued, pending. fields.
      now rewrite filter_jobTask_cancel.
  - fields. intros t Ht. apply filter_In in Ht as [Ht _]. now apply S1.
  - fields. exact S2.
Qed.

(** The invariant of job [j] is kept by every turn of the loop in which
    the caller leaves the job alone and, when [clean] is claimed, no fetch
    of the job fails. *)
Lemma step_inv now e s s' :
  jobInv s -> step now e s = Some s' ->
  leavesAlone j e = true ->
  (clean -> failsFor j e s = false) ->
  jobInv s'.
Proof.
  intros I S L C. destruct e as [i|i r|i|k sr tiles|k]; cbn [step] in S.
  - destruct (nth_error (inflight s) i) as [[task [w| |]]|] eqn:N;
      try discriminate.
    destruct (w <=? now); [|discriminate].
    pose proof (@timer_inv now i task w s I N) as H.
    destruct (issueRequest now task (with_lastRequestTime now s)).
    injection S as <-. exact H.
  - destruct (nth_error (inflight s) i) as [[task [w| |]]|] eqn:N;
      try discriminate.
    injection S as <-. apply response_inv; [exact I|exact N|].
    intros Cl J ->. specialize (C Cl). cbn [failsFor] in C.
    rewrite N in C. cbn [fetch_task] in C. congruence.
  - destruct (nth_error (inflight s) i) as [[task [w| |]]|] eqn:N;
      try discriminate.
    injection S as <-. apply processQueue_inv.
    fields. now apply release_inv with (task := task).
  - injection S as <-. rewrite startJob_eq. apply processQueue_inv.
    cbn [leavesAlone] in L. apply negb_true_iff, String.eqb_neq in L.
    now apply startJobQueued_other_inv.
  - injection S as <-.
    cbn [leavesAlone] in L. apply negb_true_iff, String.eqb_neq in L.
    now apply cancelJob_other_inv.
Qed.

End OneJob.

(** ** The invariant along a run *)

Lemma run_inv j src T K base (clean fresh : Prop) :
  (clean -> Sources.ownSource src <> None) ->
  forall evs s s',
    jobInv j src T K base clean fresh s ->
    run evs s = Some s' ->
    undisturbed j evs s = true ->
    (clean -> fetchesSucceed j evs s = true) ->
    jobInv j src T K base clean fresh s'.
Proof.
  intros CS. induction evs as [|[now e] evs IH]; intros s s' I R U F.
  - cbn in R. now injection R as <-.
  - cbn [run] in R. unfold undisturbed, fetchesSucceed in *.
    cbn [along] in U, F.
    destruct (step now e s) as [s1|] eqn:S; [|discriminate].
    apply andb_prop in U as [U1 U2].
    apply (IH s1 s'); [|exact R|exact U2|].
    + apply (@step_inv j src T K base clean fresh CS now e s s1 I S U1).
      intros C. specialize (F C). apply andb_prop in F as [F _].
      now apply negb_true_iff in F.
    + intros C. specialize (F C). now apply andb_prop in F as [_ F].
Qed.

(** ** Starting a job *)

Lemma count_zero_none {A} (P : A -> bool) (l : list A) a :
  Z.of_nat (length (filter P l)) = 0 -> In a l -> P a = false.
Proof.
  intros Z I. destruct (P a) eqn:E; [|reflexivity].
  assert (In a (filter P l)) by (apply filter_In; auto).
  destruct (filter P l); [contradiction|]. cbn [length] in Z. lia.
Qed.

Lemma filter_jobTask_self j sr (l : list Tile) :
  filter (jobTask j) (map (fun t => mkTask j sr (z t) (x t) (y t)) l)
  = map (fun t => mkTask j sr (z t) (x t) (y t)) l.
Proof.
  induction l as [|t l IH]; cbn [map filter]; [reflexivity|].
  unfold jobTask at 1. cbn [task_jobId]. rewrite String.eqb_refl.
  now rewrite IH.
Qed.

Lemma hasTile_updateJobStatus z x y sr now k st d :
  fst (TileDatabase.hasTile z x y sr (TileDatabase.updateJobStatus now k st d))
  = fst (TileDatabase.hasTile z x y sr d).
Proof.
  unfold TileDatabase.hasTile, TileDatabase.updateJobStatus,
    TileDatabase.updateRow.
  cbn [TileDatabase.cache TileDatabase.tiles TileDatabase.with_jobs].
  now destruct (JsMap.has _ _).
Qed.

Lemma alreadyStored_updateJobStatus sr tiles now k st d :
  alreadyStored sr tiles (TileDatabase.updateJobStatus now k st d)
  = alreadyStored sr tiles d.
Proof.
  unfold alreadyStored. do 2 f_equal. apply filter_ext. intros t.
  apply hasTile_updateJobStatus.
Qed.

Lemma startJobQueued_self_inv now j src tiles s0 (clean fresh : Prop) :
  quiet j s0 ->
  (fresh -> forall r, In r (registryRows j s0) ->
            TileDatabase.downloadedTiles r = 0) ->
  jobInv j src (Z.of_nat (length tiles))
    (alreadyStored src tiles (db s0)) (completions j (infoLog s0))
    clean fresh (startJobQueued now j src tiles s0).
Proof.
  intros [Q0 P0] FR. unfold startJobQueued. cbv zeta.
  match goal with
  | |- jobInv _ _ _ _ _ _ _ (fold_left _ tiles ?s1) =>
      destruct (queueTiles_effect j src tiles s1)
        as (Q1 & Q2 & Q3 & Q4 & Q5 & Q6 & Q7 & Q8 & Q9);
      set (s' := fold_left _ tiles s1) in *
  end.
  fields. rewrite get_set_same in Q9. cbn [option_map] in Q9.
  rewrite alreadyStored_updateJobStatus in Q9.
  split; [|split].
  - unfold accounting, jview. cbn [v_job v_stats v_done v_rows].
    rewrite Q2, Q9, Q3, get_set_same.
    unfold addSkipped.
    cbn [job_totalTiles skippedCount downloadedCount failedCount startTime].
    repeat split; try lia.
    + unfold queued, pending. rewrite Q7, Q4.
      unfold queued, pending in Q0, P0. rewrite P0.
      rewrite filter_count_app, Q0, filter_jobTask_self, length_map.
      unfold alreadyStored.
      pose proof (filter_length
                    (fun t => fst (TileDatabase.hasTile (z t) (x t) (y t) src
                                     (db s0))) tiles) as L.
      cbv beta in L.
      rewrite (filter_ext
                 (fun t =>
                    negb (fst (TileDatabase.hasTile (z t) (x t) (y t) src
                                 (TileDatabase.updateJobStatus now j
                                    TileDatabase.running (db s0)))))
                 (fun t =>
                    negb (fst (TileDatabase.hasTile (z t) (x t) (y t) src
                                 (db s0)))))
        by (intros t; now rewrite hasTile_updateJobStatus).
      lia.
    + rewrite completions_app. cbn [completions flat_map].
      now rewrite app_nil_r.
    + intros F r Hr. unfold registryRows in Hr. rewrite Q1 in Hr.
      unfold TileDatabase.updateJobStatus in Hr.
      rewrite rowsOf_updateRow_self in Hr by reflexivity.
      apply in_map_iff in Hr as (r0 & <- & Hr0).
      cbn [TileDatabase.downloadedTiles TileDatabase.set_status].
      rewrite (FR F r0 Hr0). reflexivity.
  - rewrite Q7. intros t Ht J.
    apply in_app_or in Ht as [Ht|Ht].
    + unfold queued in Q0.
      rewrite (@count_zero_none _ (jobTask j) (queue s0) t Q0 Ht) in J.
      discriminate.
    + apply in_map_iff in Ht as (tile & <- & _). reflexivity.
  - rewrite Q4. intros f Hf J U. unfold pending in P0.
    pose proof (@count_zero_none _ _ _ f P0 Hf) as Z. cbv beta in Z.
    rewrite J, U in Z. discriminate.
Qed.

(** ** Slots and fetches under way *)

Lemma downloadTile_frame now task s :
  let s' := downloadTile now task s in
  length (inflight s') = S (length (inflight s))
  /\ activeDownloads s' = activeDownloads s
  /\ maxConcurrent s' = maxConcurrent s
  /\ exists f, inflight s' = inflight s ++ [f] /\ (phaseWork f <= 3)%nat.
Proof.
  unfold downloadTile. destruct (_ <? _).
  - fields. rewrite length_app. cbn [length]. repeat split; try lia.
    eexists. split; [reflexivity|]. cbn. lia.
  - pose proof (issueRequest_frame now task (with_lastRequestTime now s)) as F.
    destruct (issueRequest now task (with_lastRequestTime now s))
      as [ph s1].
    cbn [fst snd] in F. cbv zeta in F. fields.
    destruct F as (F1 & F2 & F3 & F4 & F5).
    rewrite length_app, F2. cbn [length]. repeat split; try lia; try assumption.
    eexists. split; [reflexivity|].
    destruct F5 as [-> | ->]; cbn; lia.
Qed.

Lemma startTasks_slots now :
  forall q s,
    slotsMatch s ->
    let s' := startTasks now q s in
    slotsMatch s' /\ maxConcurrent s' = maxConcurrent s
    /\ (queue s' = [] \/ maxConcurrent s' <= activeDownloads s')
    /\ (3 * length (queue s') + list_sum (map phaseWork (inflight s'))
        <= 3 * length q + list_sum (map phaseWork (inflight s)))%nat.
Proof.
  induction q as [|task q IH]; intros s M; cbn [startTasks]; cbv zeta.
  - unfold slotsMatch in *. fields. repeat split; auto.
  - destruct (Z.ltb_spec (activeDownloads s) (maxConcurrent s)) as [L|L].
    + pose proof (downloadTile_frame now task
                    (with_activeDownloads (activeDownloads s + 1) s))
        as (D1 & D2 & D3 & f & D4 & D5).
      fields.
      specialize (IH (downloadTile now task
                        (with_activeDownloads (activeDownloads s + 1) s))).
      cbv zeta in IH. destruct IH as (I1 & I2 & I3 & I4).
      * unfold slotsMatch in *. rewrite D1, D2. lia.
      * repeat split; try assumption; try congruence.
        rewrite D4, map_app, list_sum_app in I4.
        cbn [map list_sum fold_right] in I4.
        fields. cbn [length]. lia.
    + unfold slotsMatch in *. fields. repeat split; auto.
Qed.

Lemma checkJobs_frame now s :
  let s' := checkJobs now s in
  queue s' = queue s /\ inflight s' = inflight s
  /\ activeDownloads s' = activeDownloads s
  /\ maxConcurrent s' = maxConcurrent s.
Proof.
  unfold checkJobs. generalize (JsMap.keys (activeJobs s)). intros ks.
  revert s. induction ks as [|k ks IH]; intros s; cbn [fold_left].
  - cbv zeta. auto.
  - cbv zeta in *. 
    match goal with
    | |- context [fold_left _ ks ?s1] =>
        destruct (IH s1) as (I1 & I2 & I3 & I4);
        assert (F : queue s1 = queue s /\ inflight s1 = inflight s
                    /\ activeDownloads s1 = activeDownloads s
                    /\ maxConcurrent s1 = maxConcurrent s)
    end.
    { break_match; auto. apply completeJob_frame. }
    destruct F as (F1 & F2 & F3 & F4). repeat split; congruence.
Qed.

Lemma processQueue_slots now s :
  slotsMatch s ->
  let s' := processQueue now s in
  slotsMatch s' /\ maxConcurrent s' = maxConcurrent s
  /\ (queue s' = [] \/ maxConcurrent s' <= activeDownloads s')
  /\ (work s' <= work s)%nat.
Proof.
  intros M. unfold processQueue. cbv zeta.
  destruct (startTasks_slots now (queue s) M) as (S1 & S2 & S3 & S4).
  cbv zeta in *.
  destruct (checkJobs_frame now (startTasks now (queue s) s))
    as (C1 & C2 & C3 & C4).
  cbv zeta in *. unfold slotsMatch, work in *.
  rewrite C1, C2, C3, C4. repeat split; auto.
Qed.

Lemma startJobQueued_frame now k sr tiles s :
  let s' := startJobQueued now k sr tiles s in
  inflight s' = inflight s /\ activeDownloads s' = activeDownloads s
  /\ maxConcurrent s' = maxConcurrent s.
Proof.
  unfold startJobQueued. cbv zeta.
  match goal with
  | |- context [fold_left _ tiles ?s1] =>
      destruct (queueTiles_effect k sr tiles s1)
        as (_ & _ & _ & Q4 & Q5 & Q6 & _)
  end.
  fields. auto.
Qed.

Lemma cancelJob_frame now k s :
  let s' := snd (cancelJob now k s) in
  inflight s' = inflight s /\ activeDownloads s' = activeDownloads s
  /\ maxConcurrent s' = maxConcurrent s.
Proof. unfold cancelJob. break_match; cbn [snd]; fields; auto. Qed.

Lemma step_slots now e s s' :
  slotsMatch s -> step now e s = Some s' ->
  slotsMatch s' /\ maxConcurrent s' = maxConcurrent s.
Proof.
  intros M S. destruct e as [i|i r|i|k sr tiles|k]; cbn [step] in S.
  - destruct (nth_error (inflight s) i) as [[task [w| |]]|] eqn:N;
      try discriminate.
    destruct (w <=? now); [|discriminate].
    pose proof (issueRequest_frame now task (with_lastRequestTime now s)) as F.
    destruct (issueRequest now task (with_lastRequestTime now s)) as [ph s1].
    cbn [fst snd] in F. cbv zeta in F. fields.
    destruct F as (F1 & F2 & F3 & F4 & _).
    injection S as <-. unfold setPhase, slotsMatch in *. rewrite F2, N.
    fields. rewrite length_replaceNth. split; congruence.
  - destruct (nth_error (inflight s) i) as [[task [w| |]]|] eqn:N;
      try discriminate.
    injection S as <-.
    match goal with
    | |- context [setPhase i Settled ?s1] =>
        assert (F : inflight s1 = inflight s
                    /\ activeDownloads s1 = activeDownloads s
                    /\ maxConcurrent s1 = maxConcurrent s);
        [|destruct F as (F2 & F3 & F4); set (s1' := s1) in *]
    end.
    { destruct r.
      - match goal with
        | |- context [handleTileDownloaded ?a ?b ?c] =>
            destruct (handleTileDownloaded_frame a b c) as (_ & ? & ? & ?)
        end. fields. auto.
      - destruct (handleTileFailed_frame (task_jobId task) s)
          as (_ & ? & ? & ?). auto. }
    unfold setPhase, slotsMatch in *. rewrite F2, N.
    fields. rewrite length_replaceNth. split; congruence.
  - destruct (nth_error (inflight s) i) as [[task [w| |]]|] eqn:N;
      try discriminate.
    injection S as <-.
    match goal with
    | |- context [processQueue now ?s1] =>
        destruct (@processQueue_slots now s1) as (P1 & P2 & _)
    end.
    + unfold slotsMatch in *. fields.
      pose proof (length_removeNth _ _ N). lia.
    + split; [exact P1|]. rewrite P2. reflexivity.
  - injection S as <-. rewrite startJob_eq.
    destruct (startJobQueued_frame now k sr tiles s) as (F1 & F2 & F3).
    cbv zeta in *.
    destruct (@processQueue_slots now (startJobQueued now k sr tiles s))
      as (P1 & P2 & _).
    + unfold slotsMatch in *. congruence.
    + split; [exact P1|]. congruence.
  - injection S as <-.
    destruct (cancelJob_frame now k s) as (F1 & F2 & F3). cbv zeta in *.
    unfold slotsMatch in *. split; congruence.
Qed.

Lemma create_slotsMatch d maxConcurrentDownloads rateLimit :
  slotsMatch (create d maxConcurrentDownloads rateLimit).
Proof. reflexivity. Qed.

(** In every state the scheduler reaches, each fetch under way holds one
    slot, and the bound on the slots is the configured one. *)
Lemma run_slots :
  forall evs s s',
    slotsMatch s -> run evs s = Some s' ->
    slotsMatch s' /\ maxConcurrent s' = maxConcurrent s.
Proof.
  induction evs as [|[now e] evs IH]; intros s s' M R; cbn [run] in R.
  - injection R as <-. auto.
  - destruct (step now e s) as [s1|] eqn:S; [|discriminate].
    destruct (step_slots now e M S) as [M1 C1].
    destruct (IH _ _ M1 R) as [M' C']. split; [exact M'|congruence].
Qed.

(** ** A job completes when the scheduler falls idle *)

Section Completion.

Variables (j src : string) (T K : Z) (base : list (Z * Z * Z)).
Variables (clean fresh : Prop).
Hypothesis cleanSource : clean -> Sources.ownSource src <> None.

Local Abbreviation jobInv := (jobInv j src T K base clean fresh).

Lemma active_counters s n job :
  accounting T K base clean fresh (jview j s) n ->
  JsMap.get j (activeJobs s) = Some job ->
  exists st,
    JsMap.get j (downloadStats s) = Some st
    /\ downloadedCount st + failedCount st + skippedCount st + n
       = job_totalTiles job.
Proof.
  unfold accounting, jview. cbn [v_job v_stats]. intros A E. rewrite E in A.
  destruct (JsMap.get j (downloadStats s)) as [st|]; [|destruct A].
  exists st. split; [reflexivity|]. lia.
Qed.

Lemma checkJobs_body_inv now k s :
  jobInv s ->
  queued j s + pending j s = 0 ->
  let s1 :=
    match JsMap.get k (activeJobs s), JsMap.get k (downloadStats s) with
    | Some job, Some stats =>
        if (downloadedCount stats + failedCount stats + skippedCount stats
            >=? job_totalTiles job) && (activeDownloads s =? 0)
        then completeJob now k s
        else s
    | _, _ => s
    end in
  jobInv s1 /\ queued j s1 + pending j s1 = 0
  /\ activeDownloads s1 = activeDownloads s.
Proof.
  intros I Hz. cbv zeta.
  destruct (JsMap.get k (activeJobs s)) as [job|] eqn:EJ; [|auto].
  destruct (JsMap.get k (downloadStats s)) as [st|] eqn:ES; [|auto].
  destruct (_ && _) eqn:C; [|auto].
  destruct (completeJob_frame now k s) as (F1 & F2 & F3 & _).
  cbv zeta in *. split; [|split].
  - apply completeJob_inv; [exact I|].
    intros -> job' st' EJ' ES'.
    apply andb_prop in C as [C _]. rewrite EJ' in EJ. rewrite ES' in ES.
    injection EJ as ->. injection ES as ->. lia.
  - unfold queued, pending in *. now rewrite F1, F2.
  - exact F3.
Qed.

Lemma checkJobs_completes now s :
  jobInv s -> queued j s + pending j s = 0 -> activeDownloads s = 0 ->
  JsMap.get j (activeJobs (checkJobs now s)) = None.
Proof.
  intros I Hz A. unfold checkJobs.
  assert (H : JsMap.get j (activeJobs s) <> None ->
              In j (JsMap.keys (activeJobs s))).
  { intros N. apply has_In, get_has.
    destruct (JsMap.get j (activeJobs s)); [eauto|congruence]. }
  revert H. generalize (JsMap.keys (activeJobs s)). intros ks.
  revert s I Hz A. induction ks as [|k ks IH]; intros s I Hz A H;
    cbn [fold_left].
  - destruct (JsMap.get j (activeJobs s)); [|reflexivity].
    exfalso. apply H. discriminate.
  - destruct (@checkJobs_body_inv now k s I Hz) as (I1 & Z1 & A1).
    cbv zeta in I1, Z1, A1.
    apply IH; try assumption; [congruence|].
    intros N. destruct (String.eqb_spec k j) as [->|NE].
    + exfalso. apply N.
      destruct (JsMap.get j (activeJobs s)) as [job|] eqn:EJ; [|exact EJ].
      destruct I as [Acc _]. rewrite Hz in Acc.
      destruct (@active_counters s 0 job Acc EJ) as (st & ES & D).
      rewrite ES.
      assert (C : (downloadedCount st + failedCount st + skippedCount st
                   >=? job_totalTiles job) && (activeDownloads s =? 0)
                  = true).
      { apply andb_true_intro. split; [apply Z.geb_le|apply Z.eqb_eq]; lia. }
      rewrite C.
      apply (@accounting_completed j T K base clean fresh now s Acc).
      congruence.
    + assert (E : JsMap.get j (activeJobs
                     match JsMap.get k (activeJobs s),
                           JsMap.get k (downloadStats s) with
                     | Some job, Some stats =>
                         if (downloadedCount stats + failedCount stats
                             + skippedCount stats >=? job_totalTiles job)
                            && (activeDownloads s =? 0)
                         then completeJob now k s
                         else s
                     | _, _ => s
                     end) = JsMap.get j (activeJobs s)).
      { break_match; try reflexivity.
        exact (f_equal v_job (jview_completeJob_other now s NE)). }
      rewrite E in N. destruct (H N) as [->|HI]; [congruence|exact HI].
Qed.

Lemma processQueue_done now s :
  jobInv s -> slotsMatch s -> 1 <= maxConcurrent s ->
  activeDownloads (processQueue now s) = 0 ->
  JsMap.get j (activeJobs (processQueue now s)) = None.
Proof.
  intros I M C A. unfold processQueue in *.
  pose proof (@startTasks_inv j src T K base clean fresh cleanSource now
                (queue s) s I) as I2.
  destruct (startTasks_slots now (queue s) M) as (M2 & C2 & Q2 & _).
  cbv zeta in *.
  destruct (checkJobs_frame now (startTasks now (queue s) s))
    as (_ & _ & A2 & _).
  cbv zeta in *. rewrite A2 in A.
  apply checkJobs_completes; [exact I2| |exact A].
  unfold queued, pending. unfold slotsMatch in M2.
  destruct Q2 as [Q2|Q2]; [|lia]. rewrite Q2.
  destruct (inflight (startTasks now (queue s) s));
    [reflexivity|cbn [length] in M2; lia].
Qed.

Lemma step_done now e s s' :
  jobInv s -> slotsMatch s -> 1 <= maxConcurrent s -> idleDone j s ->
  step now e s = Some s' -> leavesAlone j e = true ->
  idleDone j s'.
Proof.
  intros I M C D S L.
  destruct (step_slots now e M S) as [M' _].
  destruct e as [i|i r|i|k sr tiles|k]; cbn [step] in S.
  - destruct (nth_error (inflight s) i) as [[task [w| |]]|] eqn:N;
      try discriminate.
    destruct (w <=? now); [|discriminate].
    pose proof (issueRequest_frame now task (with_lastRequestTime now s)) as F.
    destruct (issueRequest now task (with_lastRequestTime now s)) as [ph s1].
    cbn [fst snd] in F. cbv zeta in F. fields.
    destruct F as (F1 & F2 & F3 & F4 & _).
    injection S as <-. intros A. exfalso.
    unfold slotsMatch, setPhase in *. rewrite F2, N in *. fields.
    rewrite length_replaceNth in M'.
    apply nth_error_In in N. destruct (inflight s); [destruct N|].
    cbn [length] in M'. lia.
  - destruct (nth_error (inflight s) i) as [[task [w| |]]|] eqn:N;
      try discriminate.
    injection S as <-. intros A. exfalso.
    match goal with
    | _ : context [setPhase i Settled ?s1] |- _ =>
        assert (F : inflight s1 = inflight s); [|set (s1' := s1) in *]
    end.
    { destruct r.
      - match goal with
        | |- context [handleTileDownloaded ?a ?b ?c] =>
            destruct (handleTileDownloaded_frame a b c) as (_ & ? & _)
        end. fields. auto.
      - destruct (handleTileFailed_frame (task_jobId task) s)
          as (_ & ? & _). auto. }
    unfold slotsMatch, setPhase in *. rewrite F, N in *. fields.
    rewrite length_replaceNth in M'.
    apply nth_error_In in N. destruct (inflight s); [destruct N|].
    cbn [length] in M'. lia.
  - destruct (nth_error (inflight s) i) as [[task [w| |]]|] eqn:N;
      try discriminate.
    injection S as <-. unfold idleDone. apply processQueue_done.
    + fields.
      now apply (@release_inv j src T K base clean fresh i task).
    + unfold slotsMatch in *. fields.
      pose proof (length_removeNth _ _ N). lia.
    + exact C.
  - injection S as <-. rewrite startJob_eq. unfold idleDone.
    cbn [leavesAlone] in L. apply negb_true_iff, String.eqb_neq in L.
    destruct (startJobQueued_frame now k sr tiles s) as (F1 & F2 & F3).
    cbv zeta in *.
    apply processQueue_done.
    + now apply startJobQueued_other_inv.
    + unfold slotsMatch in *. congruence.
    + congruence.
  - injection S as <-.
    cbn [leavesAlone] in L. apply negb_true_iff, String.eqb_neq in L.
    destruct (cancelJob_frame now k s) as (F1 & F2 & F3). cbv zeta in *.
    unfold idleDone in *. rewrite F2. intros A. specialize (D A).
    unfold cancelJob. destruct (JsMap.get k (activeJobs s)); cbn [snd];
      [|exact D].
    fields. rewrite get_delete_other by congruence. exact D.
Qed.

Lemma run_done :
  forall evs s s',
    jobInv s -> slotsMatch s -> 1 <= maxConcurrent s -> idleDone j s ->
    run evs s = Some s' ->
    undisturbed j evs s = true ->
    (clean -> fetchesSucceed j evs s = true) ->
    jobInv s' /\ idleDone j s'.
Proof.
  induction evs as [|[now e] evs IH]; intros s s' I M C D R U F.
  - cbn in R. injection R as <-. now split.
  - cbn [run] in R. unfold undisturbed, fetchesSucceed in *.
    cbn [along] in U, F.
    destruct (step now e s) as [s1|] eqn:S; [|discriminate].
    apply andb_prop in U as [U1 U2].
    destruct (step_slots now e M S) as [M1 C1].
    apply (IH s1 s'); try assumption.
    + apply (@step_inv j src T K base clean fresh cleanSource now e s s1 I S U1).
      intros Cl. specialize (F Cl). apply andb_prop in F as [F _].
      now apply negb_true_iff in F.
    + congruence.
    + exact (@step_done now e s s1 I M C D S U1).
    + intros Cl. specialize (F Cl). now apply andb_prop in F as [_ F].
Qed.

End Completion.

(** ** The run driven by [nextEvent] *)

Lemma list_sum_replaceNth {A} (w : A -> nat) (l : list A) i a a' :
  nth_error l i = Some a ->
  (list_sum (map w (replaceNth i a' l)) + w a
   = list_sum (map w l) + w a')%nat.
Proof.
  revert i. induction l as [|b l IH]; intros [|i] H; cbn [nth_error] in H;
    try discriminate.
  - injection H as ->. cbn [replaceNth map list_sum fold_right]. lia.
  - cbn [replaceNth map]. specialize (IH _ H).
    change (list_sum (?x :: ?r)) with (x + list_sum r)%nat. lia.
Qed.

Lemma list_sum_removeNth {A} (w : A -> nat) (l : list A) i a :
  nth_error l i = Some a ->
  (list_sum (map w (removeNth i l)) + w a = list_sum (map w l))%nat.
Proof.
  revert i. induction l as [|b l IH]; intros [|i] H; cbn [nth_error] in H;
    try discriminate.
  - injection H as ->. cbn [removeNth map list_sum fold_right]. lia.
  - cbn [removeNth map]. specialize (IH _ H).
    change (list_sum (?x :: ?r)) with (x + list_sum r)%nat. lia.
Qed.

Lemma step_work now e s s' :
  slotsMatch s -> step now e s = Some s' -> internal e = true ->
  (work s' < work s)%nat.
Proof.
  intros M S I. destruct e as [i|i r|i|k sr tiles|k]; cbn [step] in S;
    try discriminate I.
  - destruct (nth_error (inflight s) i) as [[task [w| |]]|] eqn:N;
      try discriminate.
    destruct (w <=? now); [|discriminate].
    pose proof (issueRequest_frame now task (with_lastRequestTime now s)) as F.
    destruct (issueRequest now task (with_lastRequestTime now s)) as [ph s1].
    cbn [fst snd] in F. cbv zeta in F. fields.
    destruct F as (F1 & F2 & F3 & F4 & F5).
    injection S as <-. unfold setPhase, work. rewrite F2, N. fields.
    rewrite F1.
    pose proof (@list_sum_replaceNth _ phaseWork _ _ _
                  (mkFetch task ph) N) as L.
    destruct F5 as [-> | ->];
      cbn [phaseWork fetch_phase fetch_task] in L |- *; lia.
  - destruct (nth_error (inflight s) i) as [[task [w| |]]|] eqn:N;
      try discriminate.
    injection S as <-.
    match goal with
    | |- context [setPhase i Settled ?s1] =>
        assert (F : queue s1 = queue s /\ inflight s1 = inflight s);
        [|destruct F as (F1 & F2); set (s1' := s1) in *]
    end.
    { destruct r.
      - match goal with
        | |- context [handleTileDownloaded ?a ?b ?c] =>
            destruct (handleTileDownloaded_frame a b c) as (? & ? & _)
        end. fields. auto.
      - destruct (handleTileFailed_frame (task_jobId task) s)
          as (? & ? & _). auto. }
    unfold setPhase, work. rewrite F2, N. fields. rewrite F1.
    pose proof (@list_sum_replaceNth _ phaseWork _ _ _
                  (mkFetch task Settled) N) as L.
    cbn [phaseWork fetch_phase fetch_task] in L |- *. lia.
  - destruct (nth_error (inflight s) i) as [[task [w| |]]|] eqn:N;
      try discriminate.
    injection S as <-.
    match goal with
    | |- context [processQueue now ?s1] =>
        destruct (@processQueue_slots now s1) as (_ & _ & _ & W)
    end.
    + unfold slotsMatch in *. fields.
      pose proof (length_removeNth _ _ N). lia.
    + eapply Nat.le_lt_trans; [exact W|]. unfold work. fields.
      pose proof (@list_sum_removeNth _ phaseWork _ _ _ N) as L.
      cbn [phaseWork fetch_phase fetch_task] in L |- *. lia.
Qed.

Lemma nextEvent_enabled now body s ev :
  nextEvent now body s = Some ev ->
  internal (snd ev) = true
  /\ (forall j, leavesAlone j (snd ev) = true
               /\ failsFor j (snd ev) s = false)
  /\ exists s', step (fst ev) (snd ev) s = Some s'.
Proof.
  unfold nextEvent.
  destruct (inflight s) as [|[task [w| |]] l] eqn:E; [discriminate|..];
    intros [= <-]; cbn [fst snd internal leavesAlone failsFor step];
    rewrite E; cbn [nth_error].
  - split; [reflexivity|]. split; [auto|].
    assert (H : (w <=? Z.max now w) = true) by (apply Z.leb_le; lia).
    rewrite H.
    destruct (issueRequest _ _ _). eauto.
  - split; [reflexivity|]. split; [auto|]. eauto.
  - split; [reflexivity|]. split; [auto|]. eauto.
Qed.

(** From any state in which the slots match the fetches under way, the
    run driven by [nextEvent] can be carried out and leaves the scheduler
    idle. *)
Lemma drain_runs :
  forall fuel s now body,
    slotsMatch s -> (work s <= fuel)%nat ->
    exists s',
      run (drain fuel now body s) s = Some s' /\ activeDownloads s' = 0.
Proof.
  induction fuel as [|fuel IH]; intros s now body M W.
  - cbn [drain run]. exists s. split; [reflexivity|].
    unfold work in W. unfold slotsMatch in M.
    destruct (inflight s) as [|f l]; [exact M|].
    cbn [map list_sum fold_right] in W.
    unfold phaseWork in W. destruct (fetch_phase f); lia.
  - cbn [drain].
    destruct (nextEvent now body s) as [[now' e]|] eqn:E.
    + destruct (nextEvent_enabled _ _ _ E) as (I & _ & s1 & S).
      cbn [fst snd] in I, S. rewrite S.
      destruct (step_slots _ _ M S) as [M1 _].
      pose proof (step_work _ _ M S I) as W1.
      destruct (IH s1 now' body M1 ltac:(lia)) as (s' & R & A).
      exists s'. cbn [run]. rewrite S. auto.
    + exists s. split; [reflexivity|].
      unfold nextEvent in E. unfold slotsMatch in M.
      destruct (inflight s); [exact M|discriminate].
Qed.

Lemma drain_polite j :
  forall fuel s now body,
    undisturbed j (drain fuel now body s) s = true
    /\ fetchesSucceed j (drain fuel now body s) s = true.
Proof.
  unfold undisturbed, fetchesSucceed.
  induction fuel as [|fuel IH]; intros s now body; cbn [drain].
  - split; reflexivity.
  - destruct (nextEvent now body s) as [[now' e]|] eqn:E;
      [|split; reflexivity].
    destruct (nextEvent_enabled _ _ _ E) as (_ & P & s1 & S).
    cbn [fst snd] in P, S. rewrite S. cbn [along]. rewrite S.
    destruct (P j) as [P1 P2]. rewrite P1, P2. cbn [negb andb].
    apply IH.
Qed.

(** ** The rows of the registry are never removed by the scheduler *)

Lemma ids_updateRow k f d :
  (forall r, TileDatabase.id (f r) = TileDatabase.id r) ->
  map TileDatabase.id (TileDatabase.download_jobs (TileDatabase.updateRow k f d))
  = map TileDatabase.id (TileDatabase.download_jobs d).
Proof.
  intros Hf. unfold TileDatabase.updateRow. cbn.
  induction (TileDatabase.download_jobs d) as [|r rows IH]; cbn [map];
    [reflexivity|].
  rewrite IH. destruct (String.eqb _ _); [now rewrite Hf|reflexivity].
Qed.

Lemma handleTileDownloaded_ids now k s :
  jobIds (handleTileDownloaded now k s) = jobIds s.
Proof.
  unfold handleTileDownloaded, jobIds. break_match; fields; try reflexivity;
    now apply ids_updateRow.
Qed.

Lemma handleTileFailed_db k s : db (handleTileFailed k s) = db s.
Proof. unfold handleTileFailed. now break_match. Qed.

Lemma issueRequest_db now task s : db (snd (issueRequest now task s)) = db s.
Proof.
  unfold issueRequest. break_match; cbn [snd]; fields; try reflexivity.
  now rewrite handleTileFailed_db.
Qed.

Lemma downloadTile_db now task s : db (downloadTile now task s) = db s.
Proof.
  unfold downloadTile. destruct (_ <? _); [reflexivity|].
  pose proof (issueRequest_db now task (with_lastRequestTime now s)) as H.
  destruct (issueRequest _ _ _). exact H.
Qed.

Lemma startTasks_db now : forall q s, db (startTasks now q s) = db s.
Proof.
  induction q as [|task q IH]; intros s; cbn [startTasks]; [reflexivity|].
  destruct (_ <? _); [|reflexivity].
  now rewrite IH, downloadTile_db.
Qed.

Lemma completeJob_ids now k s : jobIds (completeJob now k s) = jobIds s.
Proof.
  unfold completeJob, jobIds. break_match; fields; try reflexivity;
    unfold TileDatabase.updateJobStatus, TileDatabase.updateJobProgress;
    now rewrite !ids_updateRow.
Qed.

Lemma checkJobs_ids now s : jobIds (checkJobs now s) = jobIds s.
Proof.
  unfold checkJobs. generalize (JsMap.keys (activeJobs s)). intros ks.
  revert s. induction ks as [|k ks IH]; intros s; cbn [fold_left];
    [reflexivity|].
  rewrite IH. break_match; try reflexivity; apply completeJob_ids.
Qed.

Lemma processQueue_ids now s : jobIds (processQueue now s) = jobIds s.
Proof.
  unfold processQueue. rewrite checkJobs_ids. unfold jobIds.
  now rewrite startTasks_db.
Qed.

Lemma setPhase_db i ph s : db (setPhase i ph s) = db s.
Proof. unfold setPhase. now break_match. Qed.

Lemma step_ids now e s s' : step now e s = Some s' -> jobIds s' = jobIds s.
Proof.
  intros S. destruct e as [i|i r|i|k sr tiles|k]; cbn [step] in S.
  - destruct (nth_error (inflight s) i) as [[task [w| |]]|]; try discriminate.
    destruct (w <=? now); [|discriminate].
    pose proof (issueRequest_db now task (with_lastRequestTime now s)) as H.
    destruct (issueRequest _ _ _) as [ph s1]. injection S as <-.
    unfold jobIds. rewrite setPhase_db. cbn [snd] in H. now rewrite H.
  - destruct (nth_error (inflight s) i) as [[task [w| |]]|]; try discriminate.
    injection S as <-. unfold jobIds at 1. rewrite setPhase_db.
    destruct r.
    + fold (jobIds (handleTileDownloaded now (task_jobId task)
                      (with_db (TileDatabase.saveTile now (task_z task)
                         (task_x task) (task_y task) (task_source task)
                         data (db s)) s))).
      rewrite handleTileDownloaded_ids. unfold jobIds. fields.
      now rewrite jobs_saveTile.
    + now rewrite handleTileFailed_db.
  - destruct (nth_error (inflight s) i) as [[task [w| |]]|]; try discriminate.
    injection S as <-. now rewrite processQueue_ids.
  - injection S as <-. rewrite startJob_eq, processQueue_ids.
    unfold jobIds, startJobQueued. cbv zeta.
    match goal with
    | |- context [fold_left _ tiles ?s1] =>
        destruct (queueTiles_effect k sr tiles s1) as (Q1 & _)
    end.
    rewrite Q1. fields. unfold TileDatabase.updateJobStatus.
    now apply ids_updateRow.
  - injection S as <-. unfold cancelJob, jobIds.
    break_match; cbn [snd]; fields; try reflexivity;
      unfold TileDatabase.updateJobStatus; now apply ids_updateRow.
Qed.

Lemma run_ids : forall evs s s', run evs s = Some s' -> jobIds s' = jobIds s.
Proof.
  induction evs as [|[now e] evs IH]; intros s s' R; cbn [run] in R.
  - now injection R as <-.
  - destruct (step now e s) as [s1|] eqn:S; [|discriminate].
    rewrite (IH _ _ R). exact (step_ids _ _ _ S).
Qed.

Lemma getJob_ids j s :
  TileDatabase.getJob j (db s) <> None <-> In j (jobIds s).
Proof.
  unfold TileDatabase.getJob, jobIds.
  induction (TileDatabase.download_jobs (db s)) as [|r rows IH];
    cbn [find map In].
  - tauto.
  - destruct (String.eqb_spec (TileDatabase.id r) j) as [E|E].
    + split; [auto|discriminate].
    + rewrite IH. tauto.
Qed.

Lemma getJob_row j s r :
  TileDatabase.getJob j (db s) = Some r -> In r (registryRows j s).
Proof.
  unfold TileDatabase.getJob, registryRows, TileDatabase.rowsOf.
  intros H. apply find_some in H as [H1 H2]. apply filter_In. auto.
Qed.

End SchedulerProps.

(* ================================================================== *)
(** * Jobs from start to completion or cancellation *)
(* ================================================================== *)

Module JobProps.
Import TileCalculator TileDownloader JobInvariant JsMapProps SchedulerProps.

Lemma startJob_established now j src tiles s0 (clean fresh : Prop) :
  (clean -> Sources.ownSource src <> None) ->
  quiet j s0 ->
  (fresh -> forall r, In r (registryRows j s0) ->
            TileDatabase.downloadedTiles r = 0) ->
  jobInv j src (Z.of_nat (length tiles))
    (alreadyStored src tiles (db s0)) (completions j (infoLog s0))
    clean fresh (startJob now j src tiles s0).
Proof.
  intros CS Q FR. rewrite startJob_eq.
  apply processQueue_inv; [exact CS|].
  now apply startJobQueued_self_inv.
Qed.

Lemma startJob_idleDone now j src tiles s0 :
  slotsMatch s0 -> quiet j s0 -> 1 <= maxConcurrent s0 ->
  slotsMatch (startJob now j src tiles s0)
  /\ 1 <= maxConcurrent (startJob now j src tiles s0)
  /\ idleDone j (startJob now j src tiles s0).
Proof.
  intros M Q C. rewrite startJob_eq.
  destruct (startJobQueued_frame now j src tiles s0) as (F1 & F2 & F3).
  cbv zeta in *.
  assert (MQ : slotsMatch (startJobQueued now j src tiles s0)).
  { unfold slotsMatch in *. congruence. }
  destruct (processQueue_slots now MQ) as (P1 & P2 & _).
  cbv zeta in *. split; [exact P1|]. split; [congruence|].
  unfold idleDone.
  apply (@processQueue_done j src (Z.of_nat (length tiles))
           (alreadyStored src tiles (db s0)) (completions j (infoLog s0))
           False False).
  - tauto.
  - apply startJobQueued_self_inv; [exact Q|tauto].
  - exact MQ.
  - congruence.
Qed.



(** The run of [oneOfFourStored] driven by successful responses ends
    with the counters (3, 1, 0) logged and [completed] in the registry. *)
Example four_tiles_one_stored_completes :
  let s1 := TileForge.oneOfFourStored in
  option_map
    (fun s =>
       (completions "job-1" (infoLog s),
        option_map
          (fun r => (TileDatabase.downloadedTiles r, TileDatabase.status r))
          (TileDatabase.getJob "job-1" (db s))))
    (run (drain (work s1) 1000 [Byte.x07] s1) s1)
  = Some ([(3, 1, 0)], Some (3, TileDatabase.completed)).
Proof. vm_compute. reflexivity. Qed.

(** Why the job must find nothing of its own in the scheduler when it is
    started: [halfFetched] holds one queued task and one fetch of the
    job; the second [startJob] resets the counters, and the job completes
    with 3 downloaded tiles for a list of 1. *)
Example restart_counts_earlier_fetches :
  queued "job-1" TileForge.halfFetched = 1
  /\ pending "job-1" TileForge.halfFetched = 1
  /\ option_map (fun s => completions "job-1" (infoLog s))
       (run (drain (work TileForge.restarted) 1001 [Byte.x07]
               TileForge.restarted) TileForge.restarted)
     = Some [(3, 0, 0)].
Proof. repeat split; vm_compute; reflexivity. Qed.

(** ** Cancellation *)

Lemma getJob_updateRow_self j f d :
  (forall r, TileDatabase.id (f r) = TileDatabase.id r) ->
  TileDatabase.getJob j (TileDatabase.updateRow j f d)
  = option_map f (TileDatabase.getJob j d).
Proof.
  intros Hf. unfold TileDatabase.getJob, TileDatabase.updateRow. cbn.
  induction (TileDatabase.download_jobs d) as [|r rows IH]; cbn [map find];
    [reflexivity|].
  destruct (String.eqb_spec (TileDatabase.id r) j) as [E|E].
  - rewrite Hf, E, String.eqb_refl. reflexivity.
  - destruct (String.eqb_spec (TileDatabase.id r) j); [congruence|exact IH].
Qed.

Lemma tenth_lag d : 0 <= d -> 0 <= d - 10 * (d / 10) <= 9.
Proof.
  intros H. pose proof (Z.div_mod d 10 ltac:(lia)).
  pose proof (Z.mod_pos_bound d 10 ltac:(lia)). lia.
Qed.

(** C10.  [cancelJob] on an active job returns [true], leaves the tiles
    and the cache alone, and rewrites in the registry only the rows of
    the job, of which it changes [status], to [cancelled], and
    [updatedAt]; the status of the job is answered from that row
    afterwards.  For a job whose row had a downloaded counter of 0 when
    it was started, and which the caller has left alone since, the
    counter in that row is the last multiple of ten of the live counter:
    the report after a cancellation shows up to 9 downloaded tiles fewer
    than were downloaded. *)
Theorem cancel_keeps_progress_snapshot :
  (forall (now : Z) (j : string) (s : t) (job : Job),
      JsMap.get j (activeJobs s) = Some job ->
      let s' := snd (cancelJob now j s) in
      fst (cancelJob now j s) = true
      /\ TileDatabase.tiles (db s') = TileDatabase.tiles (db s)
      /\ TileDatabase.cache (db s') = TileDatabase.cache (db s)
      /\ TileDatabase.download_jobs (db s')
         = map (fun r => if String.eqb (TileDatabase.id r) j
                         then TileDatabase.set_status TileDatabase.cancelled
                                now r
                         else r)
             (TileDatabase.download_jobs (db s))
      /\ forall row,
           TileDatabase.getJob j (db s) = Some row ->
           exists row',
             TileDatabase.getJob j (db s') = Some row'
             /\ TileDatabase.sameButStatus row row'
             /\ TileDatabase.status row' = TileDatabase.cancelled
             /\ TileDatabase.updatedAt row' = now
             /\ TileForge.getJobStatus j s'
                = Some (TileForge.StoredReport (TileForge.storedStatus row')))
  /\ (forall (now0 : Z) (j src : string) (tiles : list Tile) (s0 s : t)
             (evs : list (Z * Event)) (st : Stats)
             (row : TileDatabase.JobRow),
         quiet j s0 ->
         (forall r, In r (registryRows j s0) ->
                    TileDatabase.downloadedTiles r = 0) ->
         run evs (startJob now0 j src tiles s0) = Some s ->
         undisturbed j evs (startJob now0 j src tiles s0) = true ->
         isJobActive j s = true ->
         JsMap.get j (downloadStats s) = Some st ->
         TileDatabase.getJob j (db s) = Some row ->
         TileDatabase.downloadedTiles row = 10 * (downloadedCount st / 10)
         /\ 0 <= downloadedCount st - TileDatabase.downloadedTiles row <= 9).
Proof.
  split.
  - intros now j s job EJ s'.
    unfold s', cancelJob. rewrite EJ. cbn [fst snd]. fields.
    split; [reflexivity|]. split; [reflexivity|]. split; [reflexivity|].
    split; [reflexivity|]. intros row ER.
    exists (TileDatabase.set_status TileDatabase.cancelled now row).
    assert (G : TileDatabase.getJob j
                  (TileDatabase.updateJobStatus now j TileDatabase.cancelled
                     (db s))
                = Some (TileDatabase.set_status TileDatabase.cancelled now row)).
    { unfold TileDatabase.updateJobStatus.
      rewrite getJob_updateRow_self by reflexivity. now rewrite ER. }
    split; [exact G|]. split; [repeat split|]. split; [reflexivity|].
    split; [reflexivity|].
    unfold TileForge.getJobStatus, TileDownloader.getJobStatus. fields.
    assert (N : JsMap.get j (JsMap.delete j (activeJobs s)) = None)
      by apply get_none_has, has_delete_same.
    rewrite N. unfold TileForge.database. fields. now rewrite G.
  - intros now0 j src tiles s0 s evs st row Q FR R U A ES ER.
    assert (I : jobInv j src (Z.of_nat (length tiles))
                  (alreadyStored src tiles (db s0))
                  (completions j (infoLog s0)) False True s).
    { apply (@run_inv j src _ _ _ False True ltac:(tauto) evs
               (startJob now0 j src tiles s0) s); try assumption; try tauto.
      apply startJob_established; [tauto|exact Q|]. intros _. exact FR. }
    unfold isJobActive in A. apply get_has in A as [job EJ].
    destruct I as [Acc _]. unfold accounting, jview in Acc.
    cbn [v_job v_stats v_done v_rows] in Acc. rewrite EJ, ES in Acc.
    destruct Acc as (_ & _ & Hd & _ & _ & _ & _ & Hrows).
    specialize (Hrows Logic.I row (getJob_row _ _ ER)).
    split; [exact Hrows|]. rewrite Hrows. now apply tenth_lag.
Qed.

Lemma cancel_keeps_progress_snapshot_witness :
  exists s row row',
    run TileForge.nineFetched
      (startJob 1000 "job-1" "arcgis" TileForge.twelveTiles
         TileForge.registered) = Some s
    /\ option_map downloadedCount (JsMap.get "job-1" (downloadStats s))
       = Some 9
    /\ TileDatabase.getJob "job-1" (db s) = Some row
    /\ TileDatabase.downloadedTiles row = 0
    /\ TileDatabase.getJob "job-1" (db (snd (cancelJob 2600 "job-1" s)))
       = Some row'
    /\ TileDatabase.status row' = TileDatabase.cancelled
    /\ TileDatabase.downloadedTiles row' = TileDatabase.downloadedTiles row.
Proof.
  destruct (run TileForge.nineFetched
              (startJob 1000 "job-1" "arcgis" TileForge.twelveTiles
                 TileForge.registered)) as [s|] eqn:R;
    [|vm_compute in R; discriminate R].
  destruct (JsMap.get "job-1" (activeJobs s)) as [job|] eqn:EJ;
    [|vm_compute in R; injection R as <-; vm_compute in EJ; discriminate EJ].
  destruct (JsMap.get "job-1" (downloadStats s)) as [st|] eqn:ES;
    [|vm_compute in R; injection R as <-; vm_compute in ES; discriminate ES].
  destruct (TileDatabase.getJob "job-1" (db s)) as [row|] eqn:ER;
    [|vm_compute in R; injection R as <-; vm_compute in ER; discriminate ER].
  assert (D : downloadedCount st = 9).
  { vm_compute in R. injection R as <-. vm_compute in ES.
    injection ES as <-. reflexivity. }
  assert (Q : quiet "job-1" TileForge.registered)
    by (split; vm_compute; reflexivity).
  assert (FR : forall r, In r (registryRows "job-1" TileForge.registered) ->
                         TileDatabase.downloadedTiles r = 0).
  { intros r Hr. vm_compute in Hr. destruct Hr as [<-|[]]. reflexivity. }
  assert (U : undisturbed "job-1" TileForge.nineFetched
                (startJob 1000 "job-1" "arcgis" TileForge.twelveTiles
                   TileForge.registered) = true)
    by (vm_compute; reflexivity).
  assert (A : isJobActive "job-1" s = true).
  { unfold isJobActive. apply get_has. eauto. }
  destruct cancel_keeps_progress_snapshot as [Frame Lag].
  destruct (Lag 1000 "job-1"%string "arcgis"%string TileForge.twelveTiles
              TileForge.registered s TileForge.nineFetched st row
              Q FR R U A ES ER) as [L _].
  destruct (Frame 2600 "job-1"%string s job EJ) as (_ & _ & _ & _ & F).
  destruct (F row ER) as (row' & G & S & C & _).
  exists s, row, row'. split; [reflexivity|].
  split; [rewrite ES; cbn [option_map]; now rewrite D|].
  split; [exact ER|]. split; [rewrite L, D; reflexivity|].
  split; [exact G|]. split; [exact C|].
  now destruct S as (_ & _ & _ & _ & _ & _ & _ & S & _).
Defined.

End JobProps.

(* ================================================================== *)
(** * The tile grid: corners, enumeration, validity *)
(* ================================================================== *)

Module GridProps.
Import TileCalculator CalculatorProps.

(** ** From a tile to its corner and back *)

Lemma pow2_pos z : (0 < pow2 z)%Q.
Proof. unfold pow2. now apply Qpower_0_lt. Qed.

Lemma tileX_of_corner x z : tileX (ll_lng (tileToLatLng x 0 z)) z = x.
Proof.
  unfold tileToLatLng, tileX. cbn [ll_lng].
  assert (P := pow2_pos z). set (n := pow2 z) in *.
  assert (E : ((inject_Z x / n * (360 # 1) - (180 # 1) + (180 # 1))
               / (360 # 1) * n == inject_Z x)%Q).
  { field. intros H. rewrite H in P. now apply (Qlt_irrefl 0). }
  rewrite E. apply Qfloor_Z.
Qed.

Section Corner.
Local Open Scope R_scope.

(** [tan a + 1 / cos a] at [a = atan (sinh t)] is [exp t]. *)
Lemma mercator_of_gudermannian t :
  tan (atan (sinh t)) + 1 / cos (atan (sinh t)) = exp t.
Proof.
  rewrite tan_atan.
  assert (B := atan_bound (sinh t)).
  assert (C : 0 < cos (atan (sinh t))) by (apply cos_gt_0; lra).
  assert (T := tan_atan (sinh t)). unfold tan in T.
  assert (Pyth := sin2_cos2 (atan (sinh t))). unfold Rsqr in Pyth.
  set (c := cos (atan (sinh t))) in *.
  set (s := sin (atan (sinh t))) in *.
  assert (Hs : s = sinh t * c).
  { rewrite <- T. field. lra. }
  assert (Ep := exp_pos t). assert (En := exp_pos (- t)).
  assert (I : exp t * exp (- t) = 1).
  { rewrite <- exp_plus. replace (t + - t) with 0 by ring. apply exp_0. }
  assert (H : cosh t * cosh t - sinh t * sinh t = 1).
  { unfold cosh, sinh. nra. }
  assert (Ch : 0 < cosh t) by (unfold cosh; lra).
  assert (Hq : (1 / c) * (1 / c) = cosh t * cosh t).
  { rewrite Hs in Pyth.
    assert (c * c * (cosh t * cosh t) = 1) by nra.
    field_simplify_eq; [|lra]. nra. }
  assert (Ic : 0 < 1 / c) by (apply Rdiv_lt_0_compat; lra).
  assert (Hc : 1 / c = cosh t) by nra.
  rewrite Hc. unfold cosh, sinh. lra.
Qed.

Lemma tileYR_of_corner x y z :
  tileYR (ll_lat (tileToLatLng x y z)) z = y.
Proof.
  unfold tileToLatLng, tileYR, mercatorFractionR. cbn [ll_lat].
  assert (P := pow2_pos z). apply Qlt_Rlt in P.
  replace (Q2R 0) with 0 in P by (unfold Q2R; simpl; lra).
  set (n := Q2R (pow2 z)) in *.
  set (t := PI * (1 - 2 * IZR y / n)).
  assert (Pi := PI_RGT_0).
  replace (atan (sinh t) * 180 / PI * PI / 180) with (atan (sinh t))
    by (field; lra).
  rewrite mercator_of_gudermannian, ln_exp.
  replace ((1 - t / PI) / 2 * n) with (IZR y)
    by (unfold t; field; lra).
  apply ZfloorZ.
Qed.

End Corner.


(** ** The enumerated tiles *)

Lemma map_NoDup {A B} (f : A -> B) (l : list A) :
  (forall a b, f a = f b -> a = b) -> NoDup l -> NoDup (map f l).
Proof.
  intros Hf. induction 1 as [|a l Ha Hl IH]; simpl; constructor; [|assumption].
  intros H. apply in_map_iff in H as (b & Hb & Hin).
  apply Hf in Hb. now subst.
Qed.

Lemma zrange_NoDup lo hi : NoDup (zrange lo hi).
Proof.
  unfold zrange. apply map_NoDup; [|apply seq_NoDup].
  intros a b H. lia.
Qed.

Lemma tilesOfBounds_In tb t :
  In t (tilesOfBounds tb)
  <-> z t = tbz tb /\ minX tb <= x t <= maxX tb /\ minY tb <= y t <= maxY tb.
Proof.
  unfold tilesOfBounds. rewrite in_flat_map. split.
  - intros (a & Ha & Ht). apply in_map_iff in Ht as (b & <- & Hb).
    apply zrange_In in Ha, Hb. cbn [x y z]. tauto.
  - intros (Hz & Hx & Hy). exists (x t). split; [now apply zrange_In|].
    apply in_map_iff. exists (y t). split; [|now apply zrange_In].
    destruct t; cbn [x y z] in *. now subst.
Qed.

Lemma flat_map_NoDup {A B} (f : A -> list B) (l : list A) :
  NoDup l -> (forall a, In a l -> NoDup (f a)) ->
  (forall a a' b, In a l -> In a' l -> In b (f a) -> In b (f a') -> a = a') ->
  NoDup (flat_map f l).
Proof.
  induction 1 as [|a l Ha Hl IH]; intros Hf Hd; simpl; [constructor|].
  assert (D : forall b, In b (f a) -> ~ In b (flat_map f l)).
  { intros b Hb Hin. apply in_flat_map in Hin as (a' & Ha' & Hb').
    apply Ha. rewrite (Hd a a' b); auto; [now left | now right]. }
  assert (N : NoDup (flat_map f l)).
  { apply IH; [intros; apply Hf; now right|].
    intros a1 a2 b H1 H2. apply Hd; now right. }
  assert (Na : NoDup (f a)) by (apply Hf; now left).
  clear - D N Na. induction Na as [|b m Hb Hm IHm]; simpl; [assumption|].
  constructor.
  - rewrite in_app_iff. intros [H|H]; [contradiction|].
    apply (D b); [now left | assumption].
  - apply IHm. intros c Hc. apply D. now right.
Qed.

Lemma tilesOfBounds_NoDup tb : NoDup (tilesOfBounds tb).
Proof.
  unfold tilesOfBounds. apply flat_map_NoDup.
  - apply zrange_NoDup.
  - intros a _. apply map_NoDup; [|apply zrange_NoDup].
    intros b c H. now injection H.
  - intros a a' t _ _ H1 H2.
    apply in_map_iff in H1 as (b & <- & _).
    apply in_map_iff in H2 as (c & H2 & _). now injection H2.
Qed.

(** X2.  [getTileList] enumerates exactly the tiles whose zoom is in
    [[minZoom, maxZoom]] and whose column and row lie in the tile range of
    the bounds at that zoom, each of them once. *)
Theorem getTileList_enumerates_range_once :
  forall (b : GeoBounds) (minZoom maxZoom : Z),
    (forall t : Tile,
        In t (getTileList b minZoom maxZoom)
        <-> minZoom <= z t <= maxZoom
            /\ minX (getTileBounds b (z t)) <= x t
               <= maxX (getTileBounds b (z t))
            /\ minY (getTileBounds b (z t)) <= y t
               <= maxY (getTileBounds b (z t)))
    /\ NoDup (getTileList b minZoom maxZoom).
Proof.
  intros b lo hi. split.
  - intros t. unfold getTileList. rewrite in_flat_map. split.
    + intros (k & Hk & Ht). apply zrange_In in Hk.
      apply tilesOfBounds_In in Ht as (Hz & Hx & Hy).
      cbn [tbz getTileBounds] in Hz. rewrite Hz. tauto.
    + intros (Hz & Hx & Hy). exists (z t). split; [now apply zrange_In|].
      apply tilesOfBounds_In. cbn [tbz getTileBounds]. tauto.
  - unfold getTileList. apply flat_map_NoDup.
    + apply zrange_NoDup.
    + intros; apply tilesOfBounds_NoDup.
    + intros a a' t _ _ H1 H2.
      apply tilesOfBounds_In in H1 as (H1 & _).
      apply tilesOfBounds_In in H2 as (H2 & _).
      cbn [tbz getTileBounds] in H1, H2. congruence.
Qed.

(** ** Corners of the tile range *)

Lemma tileX_monotone lng lng' zoom :
  (lng <= lng')%Q -> tileX lng zoom <= tileX lng' zoom.
Proof.
  intros H. unfold tileX. apply Qfloor_resp_le.
  assert (P := pow2_pos zoom).
  apply Qmult_le_compat_r; [|now apply Qlt_le_weak].
  apply Qmult_le_compat_r; [|discriminate].
  now apply Qplus_le_l.
Qed.

Section Rows.
Local Open Scope R_scope.

Local Abbreviation g := mercatorArgument.

Lemma g_fraction a : 0 < cos a -> g a = (1 + sin a) / cos a.
Proof. intros C. unfold mercatorArgument, tan. field. lra. Qed.

Lemma g_monotone_north a b :
  0 <= a -> a <= b -> b < PI / 2 -> 1 <= g a <= g b.
Proof.
  intros A AB B. assert (Pi := PI_RGT_0).
  assert (Ca : 0 < cos a) by (apply cos_gt_0; lra).
  assert (Cb : 0 < cos b) by (apply cos_gt_0; lra).
  rewrite (@g_fraction a Ca), (@g_fraction b Cb).
  assert (S1 : sin a <= sin b) by (apply sin_incr_1; lra).
  assert (S0 : 0 <= sin a) by (apply sin_ge_0; lra).
  assert (C1 : cos b <= cos a) by (apply cos_decr_1; lra).
  assert (C2 := COS_bound a).
  split.
  - apply Rmult_le_reg_r with (cos a); [assumption|].
    unfold Rdiv. rewrite Rmult_assoc, Rinv_l by lra. lra.
  - apply Rmult_le_reg_r with (cos a); [assumption|].
    apply Rmult_le_reg_r with (cos b); [assumption|].
    replace ((1 + sin a) / cos a * cos a * cos b)
      with ((1 + sin a) * cos b) by (field; lra).
    replace ((1 + sin b) / cos b * cos a * cos b)
      with ((1 + sin b) * cos a) by (field; lra).
    nra.
Qed.

Lemma g_reflect a : 0 < cos a -> g a * g (- a) = 1.
Proof.
  intros C. assert (C' : 0 < cos (- a)) by now rewrite cos_neg.
  rewrite (@g_fraction a C), (@g_fraction (- a) C'), cos_neg, sin_neg.
  assert (Pyth := sin2_cos2 a). unfold Rsqr in Pyth.
  field_simplify_eq; [|lra]. nra.
Qed.

Lemma g_monotone a b :
  - (PI / 2) < a -> a <= b -> b < PI / 2 -> 0 < g a <= g b.
Proof.
  intros A AB B. assert (Pi := PI_RGT_0).
  assert (south_of_equator :
            forall c d, - (PI / 2) < c -> c <= d -> d <= 0 ->
                        0 < g c <= g d /\ g d <= 1).
  { intros c d Hc Hcd Hd.
    assert (Cc : 0 < cos c) by (apply cos_gt_0; lra).
    assert (Cd : 0 < cos d) by (apply cos_gt_0; lra).
    assert (M : 1 <= g (- d) <= g (- c)) by (apply g_monotone_north; lra).
    assert (Rc := @g_reflect c Cc). assert (Rd := @g_reflect d Cd).
    assert (Pc : 0 < g c) by nra.
    assert (Pd : 0 < g d) by nra.
    split; [split; [assumption|]|]; nra. }
  destruct (Rle_dec 0 a) as [A0|A0]; [|destruct (Rle_dec b 0) as [B0|B0]].
  - destruct (@g_monotone_north a b A0 AB B). lra.
  - destruct (@south_of_equator a b A AB B0). lra.
  - destruct (@south_of_equator a 0 A ltac:(lra) ltac:(lra)) as [[P L] _].
    destruct (@g_monotone_north 0 b ltac:(lra) ltac:(lra) B) as [_ U].
    destruct (@south_of_equator 0 0 ltac:(lra) ltac:(lra) ltac:(lra))
      as [_ O].
    destruct (@g_monotone_north 0 0 ltac:(lra) ltac:(lra) ltac:(lra))
      as [O' _].
    lra.
Qed.

Lemma mercatorFraction_antitone lat lat' :
  (- (90 # 1) < lat)%Q -> (lat <= lat')%Q -> (lat' < 90 # 1)%Q ->
  mercatorFraction lat' <= mercatorFraction lat.
Proof.
  intros L M U. apply Qlt_Rlt in L, U. apply Qle_Rle in M.
  assert (E : Q2R (90 # 1) = 90) by (unfold Q2R; simpl; lra).
  rewrite Q2R_opp in L. rewrite E in L, U.
  assert (Pi := PI_RGT_0).
  unfold mercatorFraction. cbv zeta.
  set (a := Q2R lat * PI / 180). set (b := Q2R lat' * PI / 180).
  destruct (@g_monotone a b) as [P G]; [unfold a; nra | unfold a, b; nra
                                       | unfold b; nra |].
  unfold mercatorArgument in P, G.
  assert (Ln : ln (tan a + 1 / cos a) <= ln (tan b + 1 / cos b)).
  { destruct G as [G|G]; [left; apply ln_increasing; lra | rewrite G; lra]. }
  assert (D : ln (tan a + 1 / cos a) / PI <= ln (tan b + 1 / cos b) / PI).
  { unfold Rdiv. apply Rmult_le_compat_r; [|assumption].
    left. now apply Rinv_0_lt_compat. }
  lra.
Qed.

Lemma tileY_antitone lat lat' zoom :
  (- (90 # 1) < lat)%Q -> (lat <= lat')%Q -> (lat' < 90 # 1)%Q ->
  (tileY lat' zoom <= tileY lat zoom)%Z.
Proof.
  intros L M U. unfold tileY. cbv zeta. apply Zfloor_le.
  apply Rmult_le_compat_r; [|now apply mercatorFraction_antitone].
  assert (P := pow2_pos zoom). apply Qlt_Rlt in P.
  replace (Q2R 0) with 0 in P by (unfold Q2R; simpl; lra). lra.
Qed.

End Rows.

Lemma isValidBounds_swap_longitudes n s e w :
  isValidBounds (mkBounds n s w e) = isValidBounds (mkBounds n s e w).
Proof.
  unfold isValidBounds. cbn [north south east west].
  destruct (Qltb n (- latLimit) || Qltb latLimit n); [reflexivity|].
  destruct (Qltb s (- latLimit) || Qltb latLimit s); [reflexivity|].
  destruct (Qltb e (- (180 # 1)) || Qltb (180 # 1) e);
    destruct (Qltb w (- (180 # 1)) || Qltb (180 # 1) w); reflexivity.
Qed.



(** ** Validity of the enumerated tiles *)

Lemma isValidZoomRange_spec lo hi :
  isValidZoomRange lo hi = true <-> 0 <= lo /\ lo <= hi /\ hi <= 22.
Proof.
  unfold isValidZoomRange.
  destruct (lo <? 0) eqn:E1, (lo >? 22) eqn:E2, (hi <? 0) eqn:E3,
           (hi >? 22) eqn:E4, (lo >? hi) eqn:E5; simpl;
    rewrite ?Z.ltb_lt, ?Z.ltb_ge, ?Z.gtb_ltb in *;
    rewrite ?Z.ltb_lt, ?Z.ltb_ge in *;
    split; try discriminate; try lia; intros; reflexivity.
Qed.



End GridProps.

(* ================================================================== *)
(** * Keys of the store *)
(* ================================================================== *)

Module KeyProps.
Import Text TileDatabase.

Lemma occurs_app c a b : occurs c (a ++ b) = occurs c a || occurs c b.
Proof.
  induction a as [|d a IH]; simpl; [reflexivity|].
  now rewrite IH, orb_assoc.
Qed.

(** A string is cut in one way only at its last occurrence of [c]. *)
Lemma cut_at_last c a a' b b' :
  (a ++ String c b = a' ++ String c b')%string ->
  occurs c b = false -> occurs c b' = false ->
  a = a' /\ b = b'.
Proof.
  revert a'. induction a as [|d a IH]; intros [|d' a'] E Hb Hb'; simpl in E.
  - injection E as E. now split.
  - injection E as E1 E2. subst d'.
    rewrite E2, occurs_app in Hb. simpl in Hb.
    rewrite Ascii.eqb_refl, orb_true_r in Hb. discriminate.
  - injection E as E1 E2. subst d.
    rewrite <- E2, occurs_app in Hb'. simpl in Hb'.
    rewrite Ascii.eqb_refl, orb_true_r in Hb'. discriminate.
  - injection E as E1 E2. subst d'.
    destruct (IH a' E2 Hb Hb') as [-> ->]. now split.
Qed.

Lemma uint_digits c (d : Decimal.uint) :
  occurs c "0123456789" = false ->
  occurs c (DecimalString.NilEmpty.string_of_uint d) = false.
Proof.
  intros H. simpl in H. repeat (apply orb_false_iff in H as [? H]).
  induction d; simpl; rewrite ?IHd; rewrite ?orb_false_r; assumption || reflexivity.
Qed.

Lemma showZ_digits c n :
  occurs c "-0123456789" = false -> occurs c (showZ n) = false.
Proof.
  intros H. simpl in H. apply orb_false_iff in H as [M H].
  assert (U : forall d, occurs c (DecimalString.NilZero.string_of_uint d)
                        = false).
  { intros d. assert (G := @uint_digits c d H).
    destruct d; try exact G. simpl.
    simpl in H. apply orb_false_iff in H as [H _]. now rewrite H. }
  unfold showZ, DecimalString.NilZero.string_of_int.
  destruct (Z.to_int n); [apply U|].
  simpl. now rewrite M, U.
Qed.

Lemma to_int_proper n :
  Z.to_int n <> Decimal.Pos Decimal.Nil /\ Z.to_int n <> Decimal.Neg Decimal.Nil.
Proof.
  destruct n; simpl; split; try discriminate;
    intros E; injection E as E; now apply DecimalPos.Unsigned.to_uint_nonnil in E.
Qed.

Lemma showZ_injective n n' : showZ n = showZ n' -> n = n'.
Proof.
  unfold showZ. intros E.
  destruct (to_int_proper n) as [P N]. destruct (to_int_proper n') as [P' N'].
  apply DecimalZ.to_int_inj.
  assert (S := DecimalString.NilZero.isi _ P N).
  assert (S' := DecimalString.NilZero.isi _ P' N').
  rewrite E in S. congruence.
Qed.

Lemma cacheKey_components z x y z' x' y' (source source' : string) :
  getCacheKey z x y source = getCacheKey z' x' y' source' ->
  z = z' /\ x = x' /\ y = y' /\ source = source'.
Proof.
  unfold getCacheKey.
  assert (A : forall a b c d : string,
             (a ++ "/" ++ b ++ "/" ++ c ++ "/" ++ d
              = ((a ++ "/" ++ b) ++ "/" ++ c) ++ "/" ++ d)%string).
  { intros. now rewrite <- !StoreProps.append_assoc. }
  rewrite !A. intros E.
  assert (D : forall n, occurs "/" (showZ n) = false)
    by (intros; now apply showZ_digits).
  apply cut_at_last in E as [E Ey]; [|apply D|apply D].
  apply cut_at_last in E as [E Ex]; [|apply D|apply D].
  apply cut_at_last in E as [E Ez]; [|apply D|apply D].
  apply showZ_injective in Ex, Ey, Ez. tauto.
Qed.

(** X5.  Two tiles have the same cache key exactly when they have the
    same source and the same coordinates: the key of the form
    source/z/x/y identifies the tile. *)
Theorem getCacheKey_injective :
  forall (z x y z' x' y' : Z) (source source' : string),
    getCacheKey z x y source = getCacheKey z' x' y' source'
    <-> z = z' /\ x = x' /\ y = y' /\ source = source'.
Proof.
  intros z x y z' x' y' s s'. split.
  - apply cacheKey_components.
  - now intros (-> & -> & -> & ->).
Qed.

End KeyProps.

(* ================================================================== *)
(** * The cache in front of the table *)
(* ================================================================== *)

Module CacheProps.
Import TileCalculator TileDatabase JsMapProps StoreProps KeyProps.

Section MapFacts.
Variable V : Type.
Implicit Types (m : JsMap.t V) (k : string) (v : V).

Lemma In_delete k k' v m :
  In (k', v) (JsMap.delete k m) <-> In (k', v) m /\ k' <> k.
Proof.
  unfold JsMap.delete. rewrite filter_In. simpl. rewrite negb_true_iff.
  split; intros [H1 H2]; split; auto.
  - intros ->. rewrite String.eqb_refl in H2. discriminate.
  - now apply String.eqb_neq.
Qed.

Lemma keys_delete k m :
  JsMap.keys (JsMap.delete k m)
  = filter (fun k' => negb (String.eqb k' k)) (JsMap.keys m).
Proof.
  induction m as [|[k0 v0] m IH]; simpl; [reflexivity|].
  destruct (String.eqb k0 k); simpl; [exact IH|]. f_equal. exact IH.
Qed.

Lemma NoDup_keys_delete k m :
  NoDup (JsMap.keys m) -> NoDup (JsMap.keys (JsMap.delete k m)).
Proof. intros H. rewrite keys_delete. now apply NoDup_filter. Qed.

Lemma NoDup_keys_set k v m :
  NoDup (JsMap.keys m) -> NoDup (JsMap.keys (JsMap.set k v m)).
Proof.
  intros H. destruct (JsMap.has k m) eqn:E.
  - now rewrite keys_set_present.
  - rewrite keys_set_fresh by assumption.
    apply NoDup_app; [assumption | constructor; [intros []|constructor] |].
    intros a Ha [<-|[]]. apply has_In in Ha. congruence.
Qed.

Lemma In_keys k v m : In (k, v) m -> In k (JsMap.keys m).
Proof. intros H. unfold JsMap.keys. now apply (in_map fst) in H. Qed.

Lemma In_set k v k' v' m :
  NoDup (JsMap.keys m) -> In (k', v') (JsMap.set k v m) ->
  (k' = k /\ v' = v) \/ (k' <> k /\ In (k', v') m).
Proof.
  induction m as [|[k0 v0] m IH]; simpl; intros N H.
  - destruct H as [H|[]]. injection H as <- <-. now left.
  - inversion N as [|? ? N1 N2]; subst.
    destruct (String.eqb_spec k0 k) as [->|D]; simpl in H.
    + destruct H as [H|H]; [injection H as <- <-; now left|].
      right. split; [|now right].
      intros ->. apply N1. eapply In_keys; eassumption.
    + destruct H as [H|H].
      * injection H as <- <-. right. split; [assumption | now left].
      * destruct (IH N2 H) as [?|[? ?]]; [now left|].
        right. split; [assumption | now right].
Qed.

Lemma get_In k v m : JsMap.get k m = Some v -> In (k, v) m.
Proof.
  unfold JsMap.get. intros H.
  destruct (find _ m) as [[k0 v0]|] eqn:F; [|discriminate].
  injection H as <-. apply find_some in F as [F E].
  apply String.eqb_eq in E. simpl in E. now subst.
Qed.

Lemma size_set k v m : JsMap.size (JsMap.set k v m) <= JsMap.size m + 1.
Proof.
  unfold JsMap.size. induction m as [|[k0 v0] m IH]; cbn [JsMap.set length].
  - lia.
  - destruct (String.eqb k0 k); cbn [length] in *; lia.
Qed.

Lemma size_delete k m : JsMap.size (JsMap.delete k m) <= JsMap.size m.
Proof.
  unfold JsMap.size, JsMap.delete.
  pose proof (filter_length_le (fun e : string * V => negb (String.eqb (fst e) k)) m).
  lia.
Qed.

Lemma size_delete_first k m :
  JsMap.firstKey m = Some k ->
  JsMap.size (JsMap.delete k m) <= JsMap.size m - 1.
Proof.
  destruct m as [|[k0 v0] m]; cbn [JsMap.firstKey]; [discriminate|].
  intros H. injection H as ->.
  unfold JsMap.delete. cbn [filter fst]. rewrite String.eqb_refl.
  cbn [negb]. pose proof (size_delete k m) as D.
  unfold JsMap.size, JsMap.delete in *. cbn [length]. lia.
Qed.

End MapFacts.

(** ** Rows and keys *)

Lemma tileKeyIs_keyOf z x y source r :
  tileKeyIs z x y source r = true <-> keyOf r = getCacheKey z x y source.
Proof.
  unfold tileKeyIs, keyOf. split.
  - intros H. repeat (apply andb_prop in H as [H ?]).
    apply Z.eqb_eq in H. apply Z.eqb_eq in H2, H1.
    apply String.eqb_eq in H0. now subst.
  - intros E.
    destruct (@cacheKey_components _ _ _ _ _ _ _ _ E) as (-> & -> & -> & ->).
    now rewrite !Z.eqb_refl, String.eqb_refl.
Qed.

Lemma find_row z x y source rows r :
  NoDup (map keyOf rows) -> In r rows ->
  keyOf r = getCacheKey z x y source ->
  stmt_getTile z x y source rows = Some r.
Proof.
  unfold stmt_getTile. induction rows as [|a rows IH]; intros N Hin E.
  - destruct Hin.
  - simpl in N. inversion N as [|? ? N1 N2]; subst. simpl.
    destruct (tileKeyIs z x y source a) eqn:Ta.
    + destruct Hin as [->|Hin]; [reflexivity|].
      apply tileKeyIs_keyOf in Ta. exfalso. apply N1.
      rewrite Ta, <- E. now apply in_map.
    + destruct Hin as [->|Hin].
      * apply tileKeyIs_keyOf in E. congruence.
      * now apply IH.
Qed.

Lemma stmt_hasTile_getTile z x y source rows :
  stmt_hasTile z x y source rows
  = match stmt_getTile z x y source rows with
    | Some _ => true
    | None => false
    end.
Proof.
  unfold stmt_hasTile, stmt_getTile.
  induction rows as [|a rows IH]; simpl; [reflexivity|].
  now destruct (tileKeyIs z x y source a).
Qed.

Lemma NoDup_map_filter (Row Key : Type) (keyOfRow : Row -> Key)
  (keep : Row -> bool) :
  forall rows : list Row,
    NoDup (map keyOfRow rows) -> NoDup (map keyOfRow (filter keep rows)).
Proof.
  intros rows. induction rows as [|r rows IH]; cbn [map filter]; intros N.
  - constructor.
  - apply NoDup_cons_iff in N as [Fresh Rest].
    destruct (keep r); cbn [map]; [|now apply IH].
    apply NoDup_cons; [|now apply IH].
    intros Hin. apply Fresh.
    apply in_map_iff in Hin as (r' & E & Hr').
    apply filter_In in Hr' as [Hr' _].
    apply in_map_iff. now exists r'.
Qed.

(** ** The store stays well formed *)

Lemma cache_manageCacheSize db :
  NoDup (JsMap.keys (cache db)) ->
  NoDup (JsMap.keys (cache (manageCacheSize db)))
  /\ forall e, In e (cache (manageCacheSize db)) -> In e (cache db).
Proof.
  intros K. unfold manageCacheSize.
  destruct (JsMap.size (cache db) >=? maxCacheSize db); [|now split].
  destruct (JsMap.firstKey (cache db)) as [k|]; [|now split].
  cbn [cache with_cache]. split.
  - now apply NoDup_keys_delete.
  - intros [k' d] H. now apply In_delete in H as [H _].
Qed.

Lemma wellFormed_manageCacheSize db :
  wellFormed db -> wellFormed (manageCacheSize db).
Proof.
  intros (T & K & C). destruct (cache_manageCacheSize db K) as [K' S].
  split; [now rewrite tiles_manageCacheSize|]. split; [exact K'|].
  intros k d H. rewrite tiles_manageCacheSize. apply C. now apply S.
Qed.

Lemma wellFormed_saveTile now z x y source data db :
  wellFormed db -> wellFormed (saveTile now z x y source data db).
Proof.
  intros (T & K & C). unfold saveTile. cbv zeta.
  set (rows := stmt_insertTile z x y source now data (tiles db)).
  set (db1 := with_tiles rows db).
  destruct (cache_manageCacheSize db1 K) as [K' S].
  split; [|split]; cbn [cache with_cache tiles].
  - rewrite tiles_manageCacheSize. cbn [db1 with_tiles tiles].
    unfold rows, stmt_insertTile. rewrite map_app. apply NoDup_app.
    + now apply NoDup_map_filter.
    + simpl. constructor; [intros []|constructor].
    + intros k Hk [<-|[]]. apply in_map_iff in Hk as (r & E & Hr).
      apply filter_In in Hr as [_ Hr]. apply negb_true_iff in Hr.
      assert (tileKeyIs z x y source r = true)
        by (apply tileKeyIs_keyOf; exact E).
      congruence.
  - now apply NoDup_keys_set.
  - intros k d H. rewrite tiles_manageCacheSize. cbn [db1 with_tiles tiles].
    apply In_set in H; [|exact K']. destruct H as [[-> ->]|[D H]].
    + exists (mkTileRow z x y source now data). split; [|now split].
      unfold rows, stmt_insertTile. apply in_or_app. right. now left.
    + apply S in H. cbn [db1 with_tiles cache] in H.
      destruct (C k d H) as (r & Hr & E & Hd).
      exists r. split; [|now split].
      unfold rows, stmt_insertTile. apply in_or_app. left.
      apply filter_In. split; [assumption|]. apply negb_true_iff.
      destruct (tileKeyIs z x y source r) eqn:Tk; [|reflexivity].
      apply tileKeyIs_keyOf in Tk. congruence.
Qed.

Lemma wellFormed_getTile z x y source db :
  wellFormed db -> wellFormed (snd (getTile z x y source db)).
Proof.
  intros W. assert (W' := W). destruct W' as (T & K & C).
  unfold getTile. cbv zeta.
  destruct (JsMap.get (getCacheKey z x y source) (cache db)) as [data|] eqn:G.
  - cbn [snd]. split; [exact T|]. split; cbn [cache with_cache tiles].
    + apply NoDup_keys_set. now apply NoDup_keys_delete.
    + intros k d H. apply In_set in H; [|now apply NoDup_keys_delete].
      destruct H as [[-> ->]|[D H]].
      * apply C. now apply get_In.
      * apply In_delete in H as [H _]. now apply C.
  - destruct (stmt_getTile z x y source (tiles db)) as [row|] eqn:F;
      [|exact W].
    cbn [snd]. apply wellFormed_manageCacheSize in W.
    destruct W as (T1 & K1 & C1).
    split; [exact T1|]. split; cbn [cache with_cache tiles].
    + now apply NoDup_keys_set.
    + intros k d H. apply In_set in H; [|exact K1].
      destruct H as [[-> ->]|[D H]]; [|now apply C1].
      exists row. rewrite tiles_manageCacheSize.
      apply find_some in F as [F1 F2]. split; [assumption|].
      split; [now apply tileKeyIs_keyOf | reflexivity].
Qed.

Lemma wellFormed_deleteTile z x y source db :
  wellFormed db -> wellFormed (deleteTile z x y source db).
Proof.
  intros (T & K & C). unfold deleteTile, stmt_deleteTile. cbv zeta.
  split; [|split]; cbn [cache with_cache with_tiles tiles].
  - now apply NoDup_map_filter.
  - now apply NoDup_keys_delete.
  - intros k d H. apply In_delete in H as [H D].
    destruct (C k d H) as (r & Hr & E & Hd). exists r.
    split; [|now split]. apply filter_In. split; [assumption|].
    apply negb_true_iff.
    destruct (tileKeyIs z x y source r) eqn:Tk; [|reflexivity].
    apply tileKeyIs_keyOf in Tk. congruence.
Qed.

Lemma wellFormed_deleteTilesForJob source bounds lo hi db :
  wellFormed db ->
  wellFormed (snd (deleteTilesForJob source bounds lo hi db)).
Proof.
  intros (T & K & C). rewrite deleteTilesForJob_eq. cbv zeta. cbn [snd].
  split; [|split]; cbn [cache with_cache with_tiles tiles].
  - now apply NoDup_map_filter.
  - unfold JsMap.keys. now apply NoDup_map_filter.
  - intros k d H. apply filter_In in H as [H P]. cbn [fst] in P.
    apply negb_true_iff in P.
    destruct (C k d H) as (r & Hr & E & Hd). exists r.
    split; [|now split]. apply filter_In. split; [assumption|].
    apply negb_true_iff. unfold inJobRange. cbv zeta.
    destruct (String.eqb_spec (row_source r) source) as [Es|]; [|reflexivity].
    exfalso. rewrite <- E in P. unfold keyOf in P. rewrite Es in P.
    rewrite getCacheKey_prefix in P. discriminate.
Qed.

(** X6.  A store created by the constructor is well formed, and every
    tile operation keeps it so: no two rows of [tiles] share a key, no
    two cache entries share a key, and every cached buffer is the data of
    the row with its key. *)
Theorem store_stays_well_formed :
  (forall cacheSize, wellFormed (create cacheSize))
  /\ forall db : t,
      wellFormed db ->
      (forall now z x y source data,
          wellFormed (saveTile now z x y source data db))
      /\ (forall z x y source, wellFormed (snd (getTile z x y source db)))
      /\ (forall z x y source, wellFormed (snd (hasTile z x y source db)))
      /\ (forall z x y source, wellFormed (deleteTile z x y source db))
      /\ (forall source bounds minZoom maxZoom,
             wellFormed
               (snd (deleteTilesForJob source bounds minZoom maxZoom db))).
Proof.
  split.
  - intros c. unfold create, wellFormed. cbn [tiles cache map JsMap.keys].
    split; [constructor|]. split; [constructor|]. intros k d [].
  - intros db W.
    split; [intros now z x y source data
           |split; [intros z x y source
                   |split; [intros z x y source
                           |split; [intros z x y source
                                   |intros source bounds lo hi]]]].
    + now apply wellFormed_saveTile.
    + now apply wellFormed_getTile.
    + unfold hasTile. cbv zeta.
      now destruct (JsMap.has _ (cache db)).
    + now apply wellFormed_deleteTile.
    + now apply wellFormed_deleteTilesForJob.
Qed.

Lemma wellFormed_create cacheSize : wellFormed (create cacheSize).
Proof.
  unfold create, wellFormed. cbn [tiles cache map JsMap.keys].
  split; [constructor|]. split; [constructor|]. intros k d [].
Qed.

Lemma getTile_reads_table db z x y source :
  wellFormed db ->
  fst (getTile z x y source db)
  = option_map row_data (stmt_getTile z x y source (tiles db))
  /\ fst (hasTile z x y source db) = stmt_hasTile z x y source (tiles db).
Proof.
  intros (T & K & C).
  assert (hit : forall data,
             JsMap.get (getCacheKey z x y source) (cache db) = Some data ->
             exists r, stmt_getTile z x y source (tiles db) = Some r
                       /\ row_data r = data).
  { intros data G. apply get_In in G.
    destruct (C _ _ G) as (r & Hr & E & Hd). exists r.
    split; [|assumption]. now apply find_row. }
  split.
  - unfold getTile. cbv zeta.
    destruct (JsMap.get _ (cache db)) as [data|] eqn:G.
    + destruct (hit data eq_refl) as (r & -> & <-). reflexivity.
    + now destruct (stmt_getTile z x y source (tiles db)).
  - unfold hasTile. cbv zeta.
    destruct (JsMap.has _ (cache db)) eqn:H; [|reflexivity].
    apply get_has in H as [data G].
    destruct (hit data G) as (r & F & _).
    cbn [fst]. now rewrite stmt_hasTile_getTile, F.
Qed.

(** X7.  In a well-formed store the cache is transparent: [getTile]
    returns the data of the row of [tiles] with that key, and [null]
    when there is none; [hasTile] answers whether there is one. *)
Theorem cache_is_transparent :
  forall (db : t) (z x y : Z) (source : string),
    wellFormed db ->
    fst (getTile z x y source db)
    = option_map row_data (stmt_getTile z x y source (tiles db))
    /\ fst (hasTile z x y source db)
       = stmt_hasTile z x y source (tiles db).
Proof. intros. now apply getTile_reads_table. Qed.

Lemma cache_is_transparent_witness :
  fst (getTile 1 0 0 "arcgis" twoCached)
  = option_map row_data (stmt_getTile 1 0 0 "arcgis" (tiles twoCached))
  /\ fst (hasTile 1 0 0 "arcgis" twoCached)
     = stmt_hasTile 1 0 0 "arcgis" (tiles twoCached).
Proof.
  apply (@cache_is_transparent twoCached 1 0 0 "arcgis").
  unfold twoCached.
  apply wellFormed_saveTile, wellFormed_saveTile, wellFormed_create.
Defined.

(** ** Capacity *)

Lemma keepsCapacity_manageCacheSize db :
  1 <= maxCacheSize db -> withinCapacity db ->
  maxCacheSize (manageCacheSize db) = maxCacheSize db
  /\ JsMap.size (cache (manageCacheSize db)) <= maxCacheSize db - 1.
Proof.
  unfold withinCapacity, manageCacheSize. intros M W.
  destruct (Z.geb_spec (JsMap.size (cache db)) (maxCacheSize db)) as [G|G].
  - destruct (JsMap.firstKey (cache db)) as [k|] eqn:F.
    + cbn [maxCacheSize cache with_cache]. split; [reflexivity|].
      pose proof (size_delete_first _ F). lia.
    + destruct (cache db); [|destruct p; discriminate].
      unfold JsMap.size in G. cbn [length] in G. lia.
  - split; [reflexivity | lia].
Qed.

(** X8.  The cache never holds more than [maxCacheSize] entries: a store
    made by the constructor with a capacity option that is absent or not
    negative has a capacity of at least 1 and an empty cache, and every
    tile operation on a store with a capacity of at least 1 leaves the
    capacity as it is and the cache within it. *)
Theorem cache_never_exceeds_capacity :
  (forall cacheSize : option Z,
      (forall v, cacheSize = Some v -> 0 <= v) ->
      1 <= maxCacheSize (create cacheSize)
      /\ withinCapacity (create cacheSize))
  /\ forall db : t,
      1 <= maxCacheSize db -> withinCapacity db ->
      (forall now z x y source data,
          keepsCapacity db (saveTile now z x y source data db))
      /\ (forall z x y source, keepsCapacity db (snd (getTile z x y source db)))
      /\ (forall z x y source, keepsCapacity db (snd (hasTile z x y source db)))
      /\ (forall z x y source, keepsCapacity db (deleteTile z x y source db))
      /\ (forall source bounds minZoom maxZoom,
             keepsCapacity db
               (snd (deleteTilesForJob source bounds minZoom maxZoom db))).
Proof.
  split.
  - intros c Hc. unfold create, withinCapacity, Defaults.orDefault.
    cbn [maxCacheSize cache]. unfold JsMap.size, Defaults.cacheSize.
    cbn [length].
    destruct c as [v|]; [|lia]. specialize (Hc v eq_refl).
    destruct (Z.eqb_spec v 0); lia.
  - intros db M W. unfold keepsCapacity.
    split; [intros now z x y source data
           |split; [intros z x y source
                   |split; [intros z x y source
                           |split; [intros z x y source
                                   |intros source bounds lo hi]]]].
    + unfold saveTile. cbv zeta.
      set (db1 := with_tiles _ db).
      destruct (@keepsCapacity_manageCacheSize db1 M W) as [E S].
      unfold withinCapacity. cbn [maxCacheSize cache with_cache].
      split; [exact E|]. rewrite E.
      pose proof (size_set (getCacheKey z x y source) data
                    (cache (manageCacheSize db1))).
      cbn [db1 maxCacheSize with_tiles] in *. lia.
    + unfold getTile. cbv zeta.
      destruct (JsMap.get _ (cache db)) as [d|] eqn:G.
      * cbn [snd]. unfold withinCapacity. cbn [maxCacheSize cache with_cache].
        split; [reflexivity|].
        apply get_In in G.
        assert (F : JsMap.size (JsMap.delete (getCacheKey z x y source)
                                  (cache db)) <= JsMap.size (cache db) - 1).
        { clear - G. unfold JsMap.size, JsMap.delete.
          induction (cache db) as [|[k0 v0] m IH]; [destruct G|].
          cbn [filter fst length].
          destruct (String.eqb_spec k0 (getCacheKey z x y source)) as [E|N];
            cbn [negb length].
          - pose proof (filter_length_le
                          (fun e : string * Buffer =>
                             negb (String.eqb (fst e)
                                     (getCacheKey z x y source))) m). lia.
          - destruct G as [G|G]; [injection G as -> _; congruence|].
            specialize (IH G). lia. }
        pose proof (size_set (getCacheKey z x y source) d
                      (JsMap.delete (getCacheKey z x y source) (cache db))).
        unfold withinCapacity in W. lia.
      * destruct (stmt_getTile z x y source (tiles db)) as [row|];
          [|cbn [snd]; now split].
        cbn [snd].
        destruct (@keepsCapacity_manageCacheSize db M W) as [E S].
        unfold withinCapacity. cbn [maxCacheSize cache with_cache].
        split; [exact E|]. rewrite E.
        pose proof (size_set (getCacheKey z x y source) (row_data row)
                      (cache (manageCacheSize db))). lia.
    + unfold hasTile. cbv zeta.
      destruct (JsMap.has _ (cache db)); cbn [snd]; now split.
    + unfold deleteTile, withinCapacity in *. cbv zeta.
      cbn [maxCacheSize cache with_cache with_tiles].
      split; [reflexivity|].
      pose proof (size_delete (getCacheKey z x y source) (cache db)). lia.
    + rewrite deleteTilesForJob_eq. cbv zeta. cbn [snd].
      unfold withinCapacity in *.
      cbn [maxCacheSize cache with_cache with_tiles].
      split; [reflexivity|]. unfold JsMap.size in *.
      pose proof (filter_length_le
                    (fun e : string * Buffer =>
                       negb (String.prefix (source ++ "/") (fst e)))
                    (cache db)). lia.
Qed.

(** ** Deleting and overwriting one tile *)

Lemma find_filter_other {A} (p q : A -> bool) (l : list A) :
  (forall a, p a = true -> q a = true) ->
  find p (filter q l) = find p l.
Proof.
  intros H. induction l as [|a l IH]; simpl; [reflexivity|].
  destruct (q a) eqn:Q; simpl.
  - destruct (p a); [reflexivity | exact IH].
  - destruct (p a) eqn:P; [|exact IH]. apply H in P. congruence.
Qed.

Lemma other_key z x y source z' x' y' source' r :
  (z', x', y', source') <> (z, x, y, source) ->
  tileKeyIs z' x' y' source' r = true ->
  negb (tileKeyIs z x y source r) = true.
Proof.
  intros N H. apply negb_true_iff.
  destruct (tileKeyIs z x y source r) eqn:E; [|reflexivity].
  apply tileKeyIs_keyOf in H, E. rewrite H in E.
  destruct (@cacheKey_components _ _ _ _ _ _ _ _ E) as (-> & -> & -> & ->).
  now elim N.
Qed.

Lemma other_cache_key z x y source z' x' y' source' :
  (z', x', y', source') <> (z, x, y, source) ->
  getCacheKey z' x' y' source' <> getCacheKey z x y source.
Proof.
  intros N E.
  destruct (@cacheKey_components _ _ _ _ _ _ _ _ E) as (-> & -> & -> & ->).
  now elim N.
Qed.

(** X9.  [deleteTile] removes its key and nothing else: afterwards
    [hasTile] and [getTile] do not find the key, in the cache or in the
    table, and answer for every other key what they answered before. *)
Theorem deleteTile_removes_only_its_key :
  forall (db : t) (z x y : Z) (source : string),
    let db' := deleteTile z x y source db in
    fst (hasTile z x y source db') = false
    /\ fst (getTile z x y source db') = None
    /\ forall (z' x' y' : Z) (source' : string),
        (z', x', y', source') <> (z, x, y, source) ->
        fst (hasTile z' x' y' source' db') = fst (hasTile z' x' y' source' db)
        /\ fst (getTile z' x' y' source' db')
           = fst (getTile z' x' y' source' db).
Proof.
  intros db z x y source db'.
  assert (gone : stmt_getTile z x y source (tiles db') = None).
  { unfold db', deleteTile, stmt_deleteTile, stmt_getTile. cbv zeta.
    cbn [tiles with_cache with_tiles].
    destruct (find _ _) as [r|] eqn:F; [|reflexivity].
    apply find_some in F as [F1 F2]. apply filter_In in F1 as [_ F1].
    rewrite F2 in F1. discriminate. }
  assert (uncached : JsMap.has (getCacheKey z x y source) (cache db') = false).
  { unfold db', deleteTile. cbv zeta. cbn [cache with_cache].
    apply has_delete_same. }
  split; [|split].
  - unfold hasTile. cbv zeta. rewrite uncached. cbn [fst].
    now rewrite stmt_hasTile_getTile, gone.
  - unfold getTile. cbv zeta. apply get_none_has in uncached.
    now rewrite uncached, gone.
  - intros z' x' y' source' N.
    assert (K := @other_cache_key z x y source z' x' y' source' N).
    assert (T : stmt_getTile z' x' y' source' (tiles db')
                = stmt_getTile z' x' y' source' (tiles db)).
    { unfold db', deleteTile, stmt_deleteTile, stmt_getTile. cbv zeta.
      cbn [tiles with_cache with_tiles]. apply find_filter_other.
      intros r. now apply other_key. }
    assert (G : JsMap.get (getCacheKey z' x' y' source') (cache db')
                = JsMap.get (getCacheKey z' x' y' source') (cache db)).
    { unfold db', deleteTile. cbv zeta. cbn [cache with_cache].
      now apply get_delete_other. }
    split.
    + unfold hasTile. cbv zeta.
      assert (H : JsMap.has (getCacheKey z' x' y' source') (cache db')
                  = JsMap.has (getCacheKey z' x' y' source') (cache db)).
      { unfold db', deleteTile. cbv zeta. cbn [cache with_cache].
        now apply has_delete_other. }
      rewrite H. destruct (JsMap.has _ (cache db)); [reflexivity|].
      cbn [fst]. now rewrite !stmt_hasTile_getTile, T.
    + unfold getTile. cbv zeta. rewrite G, T.
      destruct (JsMap.get _ (cache db)); [reflexivity|].
      now destruct (stmt_getTile z' x' y' source' (tiles db)).
Qed.

Lemma filter_all (Row : Type) :
  forall rows : list Row, filter (fun _ => true) rows = rows.
Proof.
  intros rows. induction rows as [|r rows IH]; cbn [filter];
    [reflexivity | now rewrite IH].
Qed.

Lemma find_app_miss {A} (p : A -> bool) (l : list A) (a : A) :
  p a = false -> find p (l ++ [a]) = find p l.
Proof.
  intros H. induction l as [|b l IH]; simpl; [now rewrite H|].
  destruct (p b); [reflexivity | exact IH].
Qed.

Lemma count_without_key (p : TileRow -> bool) z x y source rows :
  NoDup (map keyOf rows) ->
  (forall r, tileKeyIs z x y source r = true -> p r = true) ->
  Z.of_nat (length (filter p
                      (filter (fun r => negb (tileKeyIs z x y source r)) rows)))
  = Z.of_nat (length (filter p rows))
    - (if stmt_hasTile z x y source rows then 1 else 0).
Proof.
  intros N P. unfold stmt_hasTile.
  induction rows as [|a rows IH]; [reflexivity|].
  simpl in N. inversion N as [|? ? N1 N2]; subst.
  specialize (IH N2). cbn [filter existsb].
  destruct (tileKeyIs z x y source a) eqn:Ta; cbn [negb orb].
  - rewrite (P a Ta). cbn [length].
    assert (E : existsb (tileKeyIs z x y source) rows = false).
    { destruct (existsb _ rows) eqn:E; [|reflexivity].
      apply existsb_exists in E as (r & Hr & Tr).
      apply tileKeyIs_keyOf in Ta, Tr. exfalso. apply N1.
      rewrite Ta, <- Tr. now apply in_map. }
    rewrite E in IH. lia.
  - cbn [filter]. destruct (p a); cbn [length]; lia.
Qed.

Lemma count_other_source (p : TileRow -> bool) z x y source rows :
  (forall r, tileKeyIs z x y source r = true -> p r = false) ->
  filter p (filter (fun r => negb (tileKeyIs z x y source r)) rows)
  = filter p rows.
Proof.
  intros P. induction rows as [|a rows IH]; [reflexivity|].
  cbn [filter]. destruct (tileKeyIs z x y source a) eqn:Ta; cbn [negb].
  - now rewrite (P a Ta).
  - cbn [filter]. now rewrite IH.
Qed.

(** X10.  [saveTile] is an upsert: in a well-formed store it adds one
    row when the key is new and replaces the row when the key is stored,
    so the counts of [getTotalTileCount] and of [getTileCount] for its
    source grow by one or stay, the count of every other source stays,
    and [getTile] of every other key returns what it returned before,
    whatever the cache evicted. *)
Theorem saveTile_is_an_upsert :
  forall (db : t) (now z x y : Z) (source : string) (data : Buffer),
    wellFormed db ->
    let db' := saveTile now z x y source data db in
    let added := if fst (hasTile z x y source db) then 0 else 1 in
    getTotalTileCount db' = getTotalTileCount db + added
    /\ getTileCount source db' = getTileCount source db + added
    /\ (forall source', source' <> source ->
          getTileCount source' db' = getTileCount source' db)
    /\ forall (z' x' y' : Z) (source' : string),
        (z', x', y', source') <> (z, x, y, source) ->
        fst (getTile z' x' y' source' db')
        = fst (getTile z' x' y' source' db).
Proof.
  intros db now z x y source data W db' added.
  assert (W' : wellFormed db') by now apply wellFormed_saveTile.
  destruct (@getTile_reads_table db z x y source W) as [_ H].
  unfold added. rewrite H. clear added H.
  assert (T : tiles db'
              = filter (fun r => negb (tileKeyIs z x y source r)) (tiles db)
                ++ [mkTileRow z x y source now data]).
  { unfold db', saveTile. cbv zeta. cbn [tiles with_cache].
    now rewrite tiles_manageCacheSize. }
  assert (N : NoDup (map keyOf (tiles db))) by apply W.
  split; [|split; [|split]].
  - unfold getTotalTileCount. rewrite T, length_app. cbn [length].
    pose proof (@count_without_key (fun _ => true) z x y source (tiles db) N
                  ltac:(reflexivity)) as C.
    rewrite !filter_all in C.
    destruct (stmt_hasTile z x y source (tiles db)); lia.
  - unfold getTileCount, stmt_getTileCount. rewrite T, filter_app, length_app.
    cbn [filter row_source]. rewrite String.eqb_refl. cbn [length].
    pose proof (@count_without_key
                  (fun r => String.eqb (row_source r) source) z x y source
                  (tiles db) N) as C.
    rewrite Nat2Z.inj_add, C.
    + destruct (stmt_hasTile z x y source (tiles db)); cbn [length]; lia.
    + intros r Hr. unfold tileKeyIs in Hr.
      now apply andb_prop in Hr as [_ Hr].
  - intros source' D. unfold getTileCount, stmt_getTileCount.
    rewrite T, filter_app. cbn [filter row_source].
    destruct (String.eqb_spec source source') as [E|_]; [congruence|].
    rewrite app_nil_r, count_other_source; [reflexivity|].
    intros r Hr. unfold tileKeyIs in Hr. apply andb_prop in Hr as [_ Hr].
    apply String.eqb_eq in Hr. rewrite Hr.
    now apply String.eqb_neq, not_eq_sym.
  - intros z' x' y' source' D.
    destruct (@getTile_reads_table db' z' x' y' source' W') as [-> _].
    destruct (@getTile_reads_table db z' x' y' source' W) as [-> _].
    f_equal. rewrite T. unfold stmt_getTile.
    rewrite find_app_miss.
    + apply find_filter_other. intros r. now apply other_key.
    + destruct (tileKeyIs z' x' y' source' _) eqn:E; [|reflexivity].
      apply tileKeyIs_keyOf in E. unfold keyOf in E.
      cbn [row_z row_x row_y row_source] in E.
      symmetry in E. now apply other_cache_key in E.
Qed.

Lemma wellFormed_twoCached : wellFormed twoCached.
Proof.
  unfold twoCached.
  apply wellFormed_saveTile, wellFormed_saveTile, wellFormed_create.
Qed.

Lemma saveTile_is_an_upsert_witness :
  let db := twoCached in
  let db' := saveTile 3 1 0 0 "arcgis" [Byte.x03] db in
  let added := if fst (hasTile 1 0 0 "arcgis" db) then 0 else 1 in
  getTotalTileCount db' = getTotalTileCount db + added
  /\ getTileCount "arcgis" db' = getTileCount "arcgis" db + added
  /\ (forall source', source' <> "arcgis"%string ->
        getTileCount source' db' = getTileCount source' db)
  /\ forall (z' x' y' : Z) (source' : string),
      (z', x', y', source') <> (1, 0, 0, "arcgis"%string) ->
      fst (getTile z' x' y' source' db')
      = fst (getTile z' x' y' source' db).
Proof.
  exact (@saveTile_is_an_upsert twoCached 3 1 0 0 "arcgis" [Byte.x03]
           wellFormed_twoCached).
Defined.

End CacheProps.

(* ================================================================== *)
(** * Tile URLs *)
(* ================================================================== *)

Module SourceProps.
Import Text Sources.

Local Open Scope string_scope.

Lemma substring_all s : String.substring 0 (String.length s) s = s.
Proof. induction s as [|c s IH]; simpl; [reflexivity|]. now rewrite IH. Qed.

Lemma append_empty s : s ++ EmptyString = s.
Proof. induction s as [|c s IH]; simpl; [reflexivity|]. now rewrite IH. Qed.

Lemma index_cons pat c s :
  String.index 0 pat (String c s)
  = if String.prefix pat (String c s) then Some 0%nat
    else match String.index 0 pat s with
         | Some n => Some (S n)
         | None => None
         end.
Proof. reflexivity. Qed.

Lemma replaceFirst_skip p pat by_ c s :
  String.prefix (String p pat) (String c s) = false ->
  replaceFirst (String p pat) by_ (String c s)
  = String c (replaceFirst (String p pat) by_ s).
Proof.
  intros H. unfold replaceFirst. rewrite index_cons, H.
  destruct (String.index 0 (String p pat) s) as [n|]; [|reflexivity].
  cbn [String.substring String.length Nat.add Nat.sub String.append].
  reflexivity.
Qed.

Lemma replaceFirst_here3 a b c by_ rest :
  replaceFirst (String a (String b (String c EmptyString))) by_
    (String a (String b (String c rest)))
  = by_ ++ rest.
Proof.
  assert (P : String.prefix (String a (String b (String c EmptyString)))
                (String a (String b (String c rest))) = true).
  { cbn [String.prefix].
    destruct (Ascii.ascii_dec a a); [|congruence].
    destruct (Ascii.ascii_dec b b); [|congruence].
    destruct (Ascii.ascii_dec c c); [|congruence].
    now destruct rest. }
  unfold replaceFirst. rewrite index_cons, P.
  cbn [String.substring String.length Nat.add Nat.sub String.append].
  now rewrite ?Nat.sub_0_r, substring_all.
Qed.

Lemma replaceFirst_app_lacking p pat by_ a s :
  occurs p a = false ->
  replaceFirst (String p pat) by_ (a ++ s)
  = a ++ replaceFirst (String p pat) by_ s.
Proof.
  induction a as [|c a IH]; cbn [occurs String.append]; intros H;
    [reflexivity|].
  apply orb_false_iff in H as [H1 H2].
  rewrite replaceFirst_skip; [now rewrite IH|].
  cbn [String.prefix]. destruct (Ascii.ascii_dec p c) as [->|]; [|reflexivity].
  now rewrite Ascii.eqb_refl in H1.
Qed.

Lemma showZ_plain n : occurs "{" (showZ n) = false.
Proof. now apply KeyProps.showZ_digits. Qed.

Ltac fill :=
  repeat match goal with
         | |- context [replaceFirst (String ?a (String ?b (String ?c EmptyString)))
                         ?by_ (String ?a (String ?b (String ?c ?rest)))] =>
             rewrite (replaceFirst_here3 a b c by_ rest)
         | |- context [replaceFirst (String ?p ?pat) ?by_ (String ?c ?s)] =>
             rewrite (@replaceFirst_skip p pat by_ c s) by reflexivity
         | |- context [replaceFirst (String ?p ?pat) ?by_ (showZ ?n ++ ?s)] =>
             rewrite (@replaceFirst_app_lacking p pat by_ (showZ n) s)
               by apply showZ_plain
         end.

Lemma subdomain_of_counter counter :
  0 <= counter ->
  nth (Z.to_nat (Z.rem counter 4)) ["0"; "1"; "2"; "3"] "0"
  = showZ (counter mod 4).
Proof.
  intros H. rewrite Z.rem_mod_nonneg by lia.
  pose proof (Z.mod_pos_bound counter 4 ltac:(lia)) as B.
  assert (C : counter mod 4 = 0 \/ counter mod 4 = 1 \/ counter mod 4 = 2
              \/ counter mod 4 = 3) by lia.
  destruct C as [-> | [-> | [-> | ->]]]; reflexivity.
Qed.

(** X11.  [getTileUrl] fills the template of the source: the two ArcGIS
    sources get [.../tile/z/y/x], whatever the counter; Google gets
    [x], [y], [z] as query parameters and the subdomain [counter mod 4];
    a name that is no own property of [tileSources] has no URL. *)
Theorem getTileUrl_fills_the_template :
  forall z x y counter : Z,
    getTileUrl "arcgis" z x y counter
    = Some ("https://server.arcgisonline.com/ArcGIS/rest/services/World_Imagery/MapServer/tile/"
            ++ showZ z ++ "/" ++ showZ y ++ "/" ++ showZ x)
    /\ getTileUrl "esri-world-imagery" z x y counter
       = Some ("https://services.arcgisonline.com/ArcGIS/rest/services/World_Imagery/MapServer/tile/"
               ++ showZ z ++ "/" ++ showZ y ++ "/" ++ showZ x)
    /\ (0 <= counter ->
        getTileUrl "google" z x y counter
        = Some ("https://mt" ++ showZ (counter mod 4)
                ++ ".google.com/vt/lyrs=s&x=" ++ showZ x
                ++ "&y=" ++ showZ y ++ "&z=" ++ showZ z))
    /\ forall source,
        ownSource source = None -> getTileUrl source z x y counter = None.
Proof.
  intros z x y counter. split; [|split; [|split]].
  - unfold getTileUrl.
    change (ownSource "arcgis")
      with (Some (mkSource "https://server.arcgisonline.com/ArcGIS/rest/services/World_Imagery/MapServer/tile/{z}/{y}/{x}" [])).
    cbn [url subdomains]. fill. now rewrite ?append_empty.
  - unfold getTileUrl.
    change (ownSource "esri-world-imagery")
      with (Some (mkSource "https://services.arcgisonline.com/ArcGIS/rest/services/World_Imagery/MapServer/tile/{z}/{y}/{x}" [])).
    cbn [url subdomains]. fill. now rewrite ?append_empty.
  - intros C. unfold getTileUrl.
    change (ownSource "google")
      with (Some (mkSource "https://mt{s}.google.com/vt/lyrs=s&x={x}&y={y}&z={z}"
                           ["0"; "1"; "2"; "3"])).
    cbn [url subdomains length Z.of_nat Pos.of_succ_nat Pos.succ].
    rewrite (subdomain_of_counter C). fill. now rewrite ?append_empty.
  - intros source H. unfold getTileUrl. now rewrite H.
Qed.

End SourceProps.

(* ================================================================== *)
(** * Log levels *)
(* ================================================================== *)

Module LoggerProps.
Import Logger.

Local Open Scope string_scope.

Lemma lookup_method m :
  lookup (methodName m)
  = Number match m with error => 0 | warn => 1 | info => 2 | debug => 3 end.
Proof. now destruct m. Qed.

Lemma lookup_other level :
  level <> "error" -> level <> "warn" -> level <> "info" ->
  level <> "debug" ->
  lookup level
  = if existsb (String.eqb level) Sources.inheritedProperties
    then Object else Undefined.
Proof.
  intros E W I D. unfold lookup, LOG_LEVELS. cbn [find fst].
  repeat match goal with
         | |- context [String.eqb ?a level] =>
             destruct (String.eqb_spec a level); [congruence|]
         end.
  reflexivity.
Qed.

(** X12.  The level of a logger filters its messages as follows.  At
    [warn], errors and warnings are written; at [debug], everything.  At
    every other level that is no property name inherited from
    [Object.prototype], and so at [error], whose number 0 is replaced by
    the number of [info], everything but debug messages is written: no
    level keeps warnings or informational messages out without keeping
    errors out as well.  At an inherited property name nothing is
    written. *)
Theorem logger_levels :
  forall (level : string) (m : Method),
    prints "warn" m = match m with error | warn => true | _ => false end
    /\ prints "debug" m = true
    /\ prints "error" m = prints "info" m
    /\ (level <> "warn" -> level <> "debug" ->
        prints level m
        = if existsb (String.eqb level) Sources.inheritedProperties
          then false
          else match m with debug => false | _ => true end).
Proof.
  intros level m. split; [now destruct m|]. split; [now destruct m|].
  split; [now destruct m|]. intros W D.
  destruct (String.eqb_spec level "error") as [->|E]; [now destruct m|].
  destruct (String.eqb_spec level "info") as [->|I]; [now destruct m|].
  unfold prints, currentLevel. rewrite lookup_method, (lookup_other E W I D).
  destruct (existsb _ _); now destruct m.
Qed.

End LoggerProps.

(* ================================================================== *)
(** * The job registry *)
(* ================================================================== *)

Module RegistryProps.
Import TileCalculator TileDatabase.

Lemma getJob_app_fresh j row rows db :
  download_jobs db = rows ->
  find (fun r => String.eqb (id r) j) rows = None ->
  find (fun r => String.eqb (id r) j) (rows ++ [row])
  = if String.eqb (id row) j then Some row else None.
Proof.
  intros _ H. induction rows as [|a rows IH]; cbn [find app] in *;
    [reflexivity|].
  destruct (String.eqb (id a) j); [discriminate|]. now apply IH.
Qed.

Lemma getJob_app_other j row rows :
  id row <> j ->
  find (fun r => String.eqb (id r) j) (rows ++ [row])
  = find (fun r => String.eqb (id r) j) rows.
Proof.
  intros N. induction rows as [|a rows IH]; cbn [find app].
  - now destruct (String.eqb_spec (id row) j).
  - destruct (String.eqb (id a) j); [reflexivity | exact IH].
Qed.

Lemma getJob_updateRow j k f db :
  (forall r, id (f r) = id r) ->
  getJob j (updateRow k f db)
  = if String.eqb j k then option_map f (getJob j db) else getJob j db.
Proof.
  intros Hf. unfold getJob, updateRow. cbn [download_jobs with_jobs].
  induction (download_jobs db) as [|a rows IH]; cbn [find map].
  - now destruct (String.eqb j k).
  - destruct (String.eqb_spec (id a) k) as [Ek|Ek].
    + rewrite Hf. destruct (String.eqb_spec (id a) j) as [Ej|Ej].
      * assert (E : j = k) by congruence.
        now rewrite E, String.eqb_refl.
      * exact IH.
    + destruct (String.eqb_spec (id a) j) as [Ej|Ej]; [|exact IH].
      destruct (String.eqb_spec j k); [congruence | reflexivity].
Qed.

Lemma getJob_deleteJob j k db :
  getJob j (deleteJob k db) = if String.eqb j k then None else getJob j db.
Proof.
  unfold getJob, deleteJob. cbn [download_jobs with_jobs].
  induction (download_jobs db) as [|a rows IH]; cbn [find filter].
  - now destruct (String.eqb j k).
  - destruct (String.eqb_spec (id a) k) as [Ek|Ek]; cbn [negb find].
    + rewrite IH. destruct (String.eqb_spec j k); [reflexivity|].
      destruct (String.eqb_spec (id a) j); [congruence | reflexivity].
    + destruct (String.eqb_spec (id a) j) as [Ej|Ej]; [|exact IH].
      destruct (String.eqb_spec j k); [congruence | reflexivity].
Qed.

(** X13.  The registry keeps one row per job id.  [createDownloadJob]
    with an id that is registered fails; with a new id it adds a row that
    [getJob] returns as written, pending and with no tile downloaded, and
    leaves the rows of the other ids, the tiles and the cache as they
    were.  [deleteJob] removes the row of its id and no other. *)
Theorem registry_insert_lookup_delete :
  forall (db : t) (now : Z) (jobId jobName source : string)
         (bounds : GeoBounds) (minZoom maxZoom totalTiles : Z)
         (country city : option string),
    match createDownloadJob now jobId jobName source bounds minZoom maxZoom
            totalTiles country city db with
    | None => getJob jobId db <> None
    | Some db' =>
        getJob jobId db = None
        /\ getJob jobId db'
           = Some (mkJobRow jobId jobName source bounds minZoom maxZoom
                     totalTiles 0 pending country city now now)
        /\ (forall j, j <> jobId -> getJob j db' = getJob j db)
        /\ tiles db' = tiles db /\ cache db' = cache db
        /\ (uniqueJobIds db -> uniqueJobIds db')
        /\ deleteJob jobId db' = db
    end
    /\ (forall j, getJob j (deleteJob jobId db)
                  = if String.eqb j jobId then None else getJob j db)
    /\ (uniqueJobIds db -> uniqueJobIds (deleteJob jobId db)).
Proof.
  intros db now j nm src b lo hi total co ci. split; [|split].
  - unfold createDownloadJob.
    destruct (getJob j db) as [r|] eqn:G; [discriminate|].
    set (row := mkJobRow j nm src b lo hi total 0 pending co ci now now).
    split; [reflexivity|]. split; [|split; [|split; [|split; [|split]]]].
    + unfold getJob in *. cbn [download_jobs with_jobs].
      rewrite (@getJob_app_fresh j row _ db eq_refl G).
      cbn [row id]. now rewrite String.eqb_refl.
    + intros k N. unfold getJob. cbn [download_jobs with_jobs].
      apply getJob_app_other. cbn [row id]. congruence.
    + reflexivity.
    + reflexivity.
    + unfold uniqueJobIds. cbn [download_jobs with_jobs]. intros U.
      rewrite map_app. apply NoDup_app; [exact U | |].
      * cbn. constructor; [intros []|constructor].
      * intros k Hk [<-|[]]. cbn [row id] in Hk.
        apply in_map_iff in Hk as (r & E & Hr).
        unfold getJob in G. apply (find_none _ _ G) in Hr.
        rewrite E, String.eqb_refl in Hr. discriminate.
    + unfold deleteJob. cbn [download_jobs with_jobs tiles cache maxCacheSize].
      rewrite filter_app. cbn [filter row id]. rewrite String.eqb_refl.
      cbn [negb]. rewrite app_nil_r.
      assert (F : filter (fun r => negb (String.eqb (id r) j))
                    (download_jobs db) = download_jobs db).
      { apply forallb_filter_id, forallb_forall. intros r Hr.
        unfold getJob in G. now rewrite (find_none _ _ G r Hr). }
      rewrite F. now destruct db.
  - intros k. apply getJob_deleteJob.
  - unfold uniqueJobIds, deleteJob. cbn [download_jobs with_jobs].
    apply CacheProps.NoDup_map_filter.
Qed.

End RegistryProps.

(* ================================================================== *)
(** * Slots, job maps and late responses *)
(* ================================================================== *)

Module QueueProps.
Import TileCalculator TileDownloader JsMapProps SchedulerProps.

(** ** Slots *)

Lemma downloadTile_queue now task s :
  queue (downloadTile now task s) = queue s.
Proof.
  unfold downloadTile. destruct (_ <? _); [reflexivity|].
  pose proof (issueRequest_frame now task (with_lastRequestTime now s)) as F.
  destruct (issueRequest _ _ _) as [ph s1]. cbn [fst snd] in F.
  cbv zeta in F. fields. tauto.
Qed.

Lemma startTasks_bound now :
  forall q s,
    activeDownloads s <= maxConcurrent s ->
    activeDownloads (startTasks now q s) <= maxConcurrent (startTasks now q s).
Proof.
  induction q as [|task q IH]; intros s B; cbn [startTasks]; [exact B|].
  destruct (Z.ltb_spec (activeDownloads s) (maxConcurrent s)) as [L|L];
    [|exact B].
  apply IH.
  destruct (downloadTile_frame now task
              (with_activeDownloads (activeDownloads s + 1) s))
    as (_ & D2 & D3 & _).
  rewrite D2, D3. fields. lia.
Qed.

Lemma processQueue_saturated now s :
  slotsMatch s -> activeDownloads s <= maxConcurrent s ->
  saturated (processQueue now s).
Proof.
  intros M B. destruct (processQueue_slots now M) as (P1 & P2 & P3 & _).
  cbv zeta in *. split; [exact P1|].
  assert (B' : activeDownloads (processQueue now s)
               <= maxConcurrent (processQueue now s)).
  { unfold processQueue.
    destruct (checkJobs_frame now (startTasks now (queue s) s))
      as (_ & _ & C3 & C4).
    cbv zeta in *. rewrite C3, C4. now apply startTasks_bound. }
  split; [exact B'|]. destruct P3 as [P3|P3]; [now left | right; lia].
Qed.

Lemma step_saturated now e s s' :
  saturated s -> step now e s = Some s' -> saturated s'.
Proof.
  intros (M & B & Q) S.
  destruct (step_slots now e M S) as [M' C'].
  destruct e as [i|i r|i|k sr tiles|k]; cbn [step] in S.
  - destruct (nth_error (inflight s) i) as [[task [w| |]]|] eqn:N;
      try discriminate.
    destruct (w <=? now); [|discriminate].
    pose proof (issueRequest_frame now task (with_lastRequestTime now s)) as F.
    destruct (issueRequest now task (with_lastRequestTime now s)) as [ph s1].
    cbn [fst snd] in F. cbv zeta in F. fields.
    destruct F as (F1 & F2 & F3 & F4 & _). injection S as <-.
    assert (E : queue (setPhase i ph s1) = queue s
                /\ activeDownloads (setPhase i ph s1) = activeDownloads s).
    { unfold setPhase. destruct (nth_error (inflight s1) i); fields; auto. }
    destruct E as [E1 E2]. split; [exact M'|]. rewrite E1, E2, C'. tauto.
  - destruct (nth_error (inflight s) i) as [[task [w| |]]|] eqn:N;
      try discriminate.
    injection S as <-.
    match goal with
    | |- saturated (setPhase i Settled ?s1) =>
        assert (F : queue s1 = queue s
                    /\ activeDownloads s1 = activeDownloads s);
        [|set (s1' := s1) in *]
    end.
    { destruct r.
      - match goal with
        | |- context [handleTileDownloaded ?a ?b ?c] =>
            destruct (handleTileDownloaded_frame a b c) as (? & _ & ? & _)
        end. fields. auto.
      - destruct (handleTileFailed_frame (task_jobId task) s)
          as (? & _ & ? & _). auto. }
    destruct F as [F1 F2].
    assert (E : queue (setPhase i Settled s1') = queue s
                /\ activeDownloads (setPhase i Settled s1')
                   = activeDownloads s).
    { unfold setPhase. destruct (nth_error (inflight s1') i); fields; auto. }
    destruct E as [E1 E2]. split; [exact M'|]. rewrite E1, E2, C'. tauto.
  - destruct (nth_error (inflight s) i) as [[task [w| |]]|] eqn:N;
      try discriminate.
    injection S as <-. apply processQueue_saturated.
    + unfold slotsMatch in *. fields.
      pose proof (length_removeNth _ _ N). lia.
    + fields. lia.
  - injection S as <-. rewrite startJob_eq.
    destruct (startJobQueued_frame now k sr tiles s) as (F1 & F2 & F3).
    cbv zeta in *. apply processQueue_saturated.
    + unfold slotsMatch in *. congruence.
    + congruence.
  - injection S as <-.
    destruct (cancelJob_frame now k s) as (F1 & F2 & F3). cbv zeta in *.
    split; [exact M'|]. rewrite F2, F3. split; [exact B|].
    destruct Q as [Q|Q]; [left | now right].
    unfold cancelJob. destruct (JsMap.get k (activeJobs s)); cbn [snd];
      fields; [|exact Q]. now rewrite Q.
Qed.

(** X14.  The scheduler never runs more fetches than it has slots, and
    it never lets a tile wait while a slot is free: from a state with
    these two properties (as the constructor makes it), every run of
    events leads to a state with them, with the same number of slots. *)
Theorem fetches_fill_the_slots :
  forall (s0 : t),
    saturated s0 ->
    forall evs s,
      run evs s0 = Some s ->
      Z.of_nat (length (inflight s)) <= maxConcurrent s
      /\ maxConcurrent s = maxConcurrent s0
      /\ (queue s = [] \/ Z.of_nat (length (inflight s)) = maxConcurrent s).
Proof.
  intros s0 H0 evs. revert s0 H0.
  induction evs as [|[now e] evs IH]; intros s0 H0 s R; cbn [run] in R.
  - injection R as <-. destruct H0 as (M & B & Q). unfold slotsMatch in M.
    rewrite <- M. tauto.
  - destruct (step now e s0) as [s1|] eqn:S; [|discriminate].
    destruct (step_slots now e (proj1 H0) S) as [_ C].
    destruct (IH s1 (step_saturated now e H0 S) s R) as (I1 & I2 & I3).
    repeat split; try assumption. congruence.
Qed.

Lemma fetches_fill_the_slots_witness :
  Z.of_nat (length (inflight TileForge.fourStarted))
  <= maxConcurrent TileForge.fourStarted
  /\ maxConcurrent TileForge.fourStarted
     = maxConcurrent (TileForge.create None None None)
  /\ (queue TileForge.fourStarted = []
      \/ Z.of_nat (length (inflight TileForge.fourStarted))
         = maxConcurrent TileForge.fourStarted).
Proof.
  assert (H0 : saturated (TileForge.create None None None)).
  { split; [reflexivity|]. split; [discriminate | now left]. }
  apply (@fetches_fill_the_slots (TileForge.create None None None) H0
           [(1000, CallStartJob "job-1" "arcgis" TileForge.fourTiles)]
           TileForge.fourStarted).
  vm_compute. reflexivity.
Defined.

(** ** The two maps of the jobs *)

Section Keys.
Variables V W : Type.

Lemma keys_set_together k (v : V) (w : W) (m : JsMap.t V) (m' : JsMap.t W) :
  JsMap.keys m = JsMap.keys m' ->
  JsMap.keys (JsMap.set k v m) = JsMap.keys (JsMap.set k w m').
Proof.
  revert m'. induction m as [|[k0 v0] m IH]; intros [|[k1 w1] m'] E;
    try discriminate; cbn [JsMap.set JsMap.keys map fst] in *.
  - reflexivity.
  - injection E as E1 E2. subst k1.
    destruct (String.eqb k0 k); cbn [map fst]; f_equal; auto.
    now apply IH.
Qed.

Lemma keys_delete_together k (m : JsMap.t V) (m' : JsMap.t W) :
  JsMap.keys m = JsMap.keys m' ->
  JsMap.keys (JsMap.delete k m) = JsMap.keys (JsMap.delete k m').
Proof. intros E. now rewrite !CacheProps.keys_delete, E. Qed.

End Keys.

Lemma keys_set_known {V} k (v v' : V) (m : JsMap.t V) :
  JsMap.get k m = Some v' -> JsMap.keys (JsMap.set k v m) = JsMap.keys m.
Proof.
  intros G. apply keys_set_present. apply get_has. eauto.
Qed.

Lemma handleTileDownloaded_inStep now k s :
  inStep s -> inStep (handleTileDownloaded now k s).
Proof.
  unfold inStep, handleTileDownloaded. intros E.
  destruct (JsMap.get k (activeJobs s)) eqn:G1; [|exact E].
  destruct (JsMap.get k (downloadStats s)) eqn:G2; [|exact E].
  destruct (_ =? _); fields;
    now rewrite (@keys_set_known _ k _ _ _ G1), (@keys_set_known _ k _ _ _ G2).
Qed.

Lemma handleTileFailed_inStep k s : inStep s -> inStep (handleTileFailed k s).
Proof.
  unfold inStep, handleTileFailed. intros E.
  destruct (JsMap.get k (activeJobs s)) eqn:G1; [|exact E].
  destruct (JsMap.get k (downloadStats s)) eqn:G2; [|exact E].
  fields. now rewrite (@keys_set_known _ k _ _ _ G1), (@keys_set_known _ k _ _ _ G2).
Qed.

Lemma handleTileSkipped_inStep k s :
  inStep s -> inStep (handleTileSkipped k s).
Proof.
  unfold inStep, handleTileSkipped. intros E.
  destruct (JsMap.get k (downloadStats s)) eqn:G2; [|exact E].
  fields. now rewrite (@keys_set_known _ k _ _ _ G2).
Qed.

Lemma completeJob_inStep now k s : inStep s -> inStep (completeJob now k s).
Proof.
  unfold inStep, completeJob. intros E.
  destruct (JsMap.get k (activeJobs s)); [|exact E].
  destruct (JsMap.get k (downloadStats s)); [|exact E].
  fields. now apply keys_delete_together.
Qed.

Lemma issueRequest_inStep now task s :
  inStep s -> inStep (snd (issueRequest now task s)).
Proof.
  unfold issueRequest. intros E.
  destruct (Sources.getTileUrl _ _ _ _ _); cbn [snd].
  - exact E.
  - apply handleTileFailed_inStep. exact E.
Qed.

Lemma downloadTile_inStep now task s :
  inStep s -> inStep (downloadTile now task s).
Proof.
  unfold downloadTile. intros E. destruct (_ <? _); [exact E|].
  pose proof (@issueRequest_inStep now task (with_lastRequestTime now s) E)
    as H.
  destruct (issueRequest _ _ _) as [ph s1]. exact H.
Qed.

Lemma startTasks_inStep now :
  forall q s, inStep s -> inStep (startTasks now q s).
Proof.
  induction q as [|task q IH]; intros s E; cbn [startTasks]; [exact E|].
  destruct (_ <? _); [|exact E].
  apply IH. now apply downloadTile_inStep.
Qed.

Lemma checkJobs_inStep now s : inStep s -> inStep (checkJobs now s).
Proof.
  unfold checkJobs. generalize (JsMap.keys (activeJobs s)). intros ks.
  revert s. induction ks as [|k ks IH]; intros s E; cbn [fold_left];
    [exact E|].
  apply IH. break_match; try exact E. now apply completeJob_inStep.
Qed.

Lemma processQueue_inStep now s : inStep s -> inStep (processQueue now s).
Proof.
  intros E. unfold processQueue.
  now apply checkJobs_inStep, startTasks_inStep.
Qed.

Lemma queueTiles_inStep k sr :
  forall tiles s,
    inStep s ->
    inStep (fold_left
              (fun s tile => queueTile k sr (z tile) (x tile) (y tile) s)
              tiles s).
Proof.
  induction tiles as [|tile tiles IH]; intros s E; cbn [fold_left];
    [exact E|].
  apply IH. unfold queueTile.
  destruct (TileDatabase.hasTile _ _ _ _ _) as [present d].
  destruct present; [apply handleTileSkipped_inStep|]; exact E.
Qed.

Lemma startJob_inStep now k sr tiles s :
  inStep s -> inStep (startJob now k sr tiles s).
Proof.
  intros E. unfold startJob. cbv zeta. apply processQueue_inStep.
  apply queueTiles_inStep. unfold inStep in *. fields.
  now apply keys_set_together.
Qed.

Lemma cancelJob_inStep now k s :
  inStep s -> inStep (snd (cancelJob now k s)).
Proof.
  unfold inStep, cancelJob. intros E.
  destruct (JsMap.get k (activeJobs s)); cbn [snd]; [|exact E].
  fields. now apply keys_delete_together.
Qed.

Lemma setPhase_maps i ph s :
  activeJobs (setPhase i ph s) = activeJobs s
  /\ downloadStats (setPhase i ph s) = downloadStats s.
Proof. unfold setPhase. destruct (nth_error _ _); fields; auto. Qed.

Lemma step_inStep now e s s' :
  inStep s -> step now e s = Some s' -> inStep s'.
Proof.
  intros E S. destruct e as [i|i r|i|k sr tiles|k]; cbn [step] in S.
  - destruct (nth_error (inflight s) i) as [[task [w| |]]|];
      try discriminate.
    destruct (w <=? now); [|discriminate].
    pose proof (@issueRequest_inStep now task (with_lastRequestTime now s) E)
      as H.
    destruct (issueRequest _ _ _) as [ph s1]. injection S as <-.
    unfold inStep in *. destruct (setPhase_maps i ph s1) as [-> ->].
    exact H.
  - destruct (nth_error (inflight s) i) as [[task [w| |]]|];
      try discriminate.
    injection S as <-. unfold inStep at 1.
    match goal with
    | |- context [setPhase i Settled ?s1] =>
        destruct (setPhase_maps i Settled s1) as [-> ->];
        change (inStep s1)
    end.
    destruct r; [apply handleTileDownloaded_inStep
                |apply handleTileFailed_inStep]; exact E.
  - destruct (nth_error (inflight s) i) as [[task [w| |]]|];
      try discriminate.
    injection S as <-. apply processQueue_inStep. exact E.
  - injection S as <-. now apply startJob_inStep.
  - injection S as <-. now apply cancelJob_inStep.
Qed.

Lemma get_keys_together {V W} k (m : JsMap.t V) (m' : JsMap.t W) :
  JsMap.keys m = JsMap.keys m' ->
  (JsMap.get k m = None <-> JsMap.get k m' = None).
Proof.
  intros E. rewrite !get_none_has.
  assert (H : JsMap.has k m = true <-> JsMap.has k m' = true)
    by now rewrite !has_In, E.
  destruct (JsMap.has k m), (JsMap.has k m'); intuition congruence.
Qed.

(** X15.  [activeJobs] and [downloadStats] keep the same keys along
    every run that starts with the same keys in both, as after the
    constructor.  So [getJobStatus] of the scheduler answers for exactly
    the jobs that [isJobActive] reports, and [getActiveJobs] lists one
    status per active job and no [null]. *)
Theorem job_maps_stay_in_step :
  forall (s0 : t),
    inStep s0 ->
    forall evs s,
      run evs s0 = Some s ->
      inStep s
      /\ (forall j, isJobActive j s = true <-> getJobStatus j s <> None)
      /\ length (getActiveJobs s) = length (activeJobs s)
      /\ Forall (fun o => o <> None) (getActiveJobs s).
Proof.
  intros s0 H0 evs s R.
  assert (E : inStep s).
  { revert s0 H0 R. induction evs as [|[now e] evs IH]; intros s0 H0 R;
      cbn [run] in R.
    - now injection R as <-.
    - destruct (step now e s0) as [s1|] eqn:S; [|discriminate].
      exact (IH s1 (step_inStep now e H0 S) R). }
  assert (A : forall j, isJobActive j s = true <-> getJobStatus j s <> None).
  { intros j. unfold isJobActive, getJobStatus.
    pose proof (@get_keys_together _ _ j _ _ E) as K.
    destruct (JsMap.get j (activeJobs s)) as [job|] eqn:G1.
    - assert (H : JsMap.has j (activeJobs s) = true)
        by (apply get_has; eauto).
      rewrite H.
      destruct (JsMap.get j (downloadStats s)) as [st|].
      + split; [discriminate | reflexivity].
      + exfalso. assert (X : Some job = None) by now apply K.
        discriminate.
    - apply get_none_has in G1. rewrite G1. split; [discriminate|].
      intros N. now elim N. }
  split; [exact E|]. split; [exact A|]. split.
  - unfold getActiveJobs, JsMap.keys. now rewrite !length_map.
  - unfold getActiveJobs. apply Forall_forall. intros o Ho.
    apply in_map_iff in Ho as (j & <- & Hj).
    apply A. now apply has_In.
Qed.

Lemma job_maps_stay_in_step_witness :
  inStep TileForge.fourStarted
  /\ (forall j, isJobActive j TileForge.fourStarted = true
                <-> getJobStatus j TileForge.fourStarted <> None)
  /\ length (getActiveJobs TileForge.fourStarted)
     = length (activeJobs TileForge.fourStarted)
  /\ Forall (fun o => o <> None) (getActiveJobs TileForge.fourStarted).
Proof.
  assert (H0 : inStep (TileForge.create None None None)) by reflexivity.
  apply (@job_maps_stay_in_step (TileForge.create None None None) H0
           [(1000, CallStartJob "job-1" "arcgis" TileForge.fourTiles)]
           TileForge.fourStarted).
  vm_compute. reflexivity.
Defined.

(** ** Responses that arrive after the job has gone *)

(** X16.  [cancelJob] does not abort the fetches under way, and a job
    that has completed may still have settled fetches to release.  When
    the response of a fetch arrives for a job that is no longer active,
    the tile is saved all the same and [getTile] serves it, while the
    registry, the counters of the jobs and the queue stay as they are. *)
Theorem late_response_only_stores_the_tile :
  forall (now : Z) (j : string) (s : t),
    let s1 := snd (cancelJob now j s) in
    inflight s1 = inflight s
    /\ isJobActive j s1 = false
    /\ forall (now' : Z) (i : nat) (task : Task) (data : Buffer) (s2 : t),
        nth_error (inflight s2) i = Some (mkFetch task Fetching) ->
        isJobActive (task_jobId task) s2 = false ->
        exists s3,
          step now' (ResponseArrives i (Success data)) s2 = Some s3
          /\ TileDatabase.download_jobs (db s3)
             = TileDatabase.download_jobs (db s2)
          /\ activeJobs s3 = activeJobs s2
          /\ downloadStats s3 = downloadStats s2
          /\ queue s3 = queue s2
          /\ fst (TileDatabase.getTile (task_z task) (task_x task)
                    (task_y task) (task_source task) (db s3))
             = Some data.
Proof.
  intros now j s s1. split; [|split].
  - apply (cancelJob_frame now j s).
  - unfold s1, cancelJob, isJobActive.
    destruct (JsMap.get j (activeJobs s)) eqn:G; cbn [snd]; fields.
    + apply has_delete_same.
    + now apply get_none_has.
  - intros now' i task data s2 N A. cbn [step]. rewrite N.
    eexists. split; [reflexivity|].
    unfold isJobActive in A. apply get_none_has in A.
    unfold handleTileDownloaded. fields. rewrite A.
    unfold setPhase. fields. rewrite N. fields.
    split; [apply jobs_saveTile|]. repeat (split; [reflexivity|]).
    unfold TileDatabase.getTile, TileDatabase.saveTile. cbv zeta.
    cbn [TileDatabase.cache TileDatabase.with_cache].
    now rewrite get_set_same.
Qed.

End QueueProps.

(* ================================================================== *)
(** * The rate limit of a scheduler with one slot *)
(* ================================================================== *)

Module PacingProps.
Import TileCalculator TileDownloader JsMapProps SchedulerProps.
Import TileForge(requestTimes, waitsLongEnough, paced, spacedBy, chronological).

Lemma paced_clockwork gap clock s s' :
  clockwork s' = clockwork s -> paced gap clock s -> paced gap clock s'.
Proof.
  unfold clockwork, paced, requestTimes, slotsMatch. intros E.
  injection E as E1 E2 E3 E4 E5 E6.
  rewrite E1, E2, E3, E4, E5, E6.
  intros (P1 & P2 & P3 & P4 & P5 & P6 & P7 & P8).
  repeat split; try assumption.
  eapply Forall_impl; [|exact P8]. intros f.
  unfold waitsLongEnough. now rewrite E2.
Qed.

Lemma handleTileDownloaded_clockwork now k s :
  clockwork (handleTileDownloaded now k s) = clockwork s.
Proof. unfold handleTileDownloaded, clockwork. now break_match. Qed.

Lemma handleTileFailed_clockwork k s :
  clockwork (handleTileFailed k s) = clockwork s.
Proof. unfold handleTileFailed, clockwork. now break_match. Qed.

Lemma handleTileSkipped_clockwork k s :
  clockwork (handleTileSkipped k s) = clockwork s.
Proof. unfold handleTileSkipped, clockwork. now break_match. Qed.

Lemma completeJob_clockwork now k s :
  clockwork (completeJob now k s) = clockwork s.
Proof. unfold completeJob, clockwork. now break_match. Qed.

Lemma checkJobs_clockwork now s : clockwork (checkJobs now s) = clockwork s.
Proof.
  unfold checkJobs. generalize (JsMap.keys (activeJobs s)). intros ks.
  revert s. induction ks as [|k ks IH]; intros s; cbn [fold_left];
    [reflexivity|].
  rewrite IH. break_match; try reflexivity. apply completeJob_clockwork.
Qed.

Lemma queueTiles_clockwork k sr :
  forall tiles s,
    clockwork (fold_left
                 (fun s tile => queueTile k sr (z tile) (x tile) (y tile) s)
                 tiles s)
    = clockwork s.
Proof.
  induction tiles as [|tile tiles IH]; intros s; cbn [fold_left];
    [reflexivity|].
  rewrite IH. unfold queueTile.
  destruct (TileDatabase.hasTile _ _ _ _ _) as [present d].
  destruct present; [rewrite handleTileSkipped_clockwork|]; reflexivity.
Qed.

Lemma cancelJob_clockwork now k s :
  clockwork (snd (cancelJob now k s)) = clockwork s.
Proof. unfold cancelJob, clockwork. now break_match. Qed.

Lemma spacedBy_snoc gap l now :
  spacedBy gap l = true -> Forall (fun time => time + gap <= now) l ->
  spacedBy gap (l ++ [now]) = true.
Proof.
  induction l as [|a [|b l] IH]; intros S F.
  - reflexivity.
  - cbn [app spacedBy]. inversion F; subst.
    apply andb_true_intro. split; [apply Z.geb_le; lia | reflexivity].
  - change (spacedBy gap (a :: b :: l)) with
      ((b - a >=? gap) && spacedBy gap (b :: l)) in S.
    apply andb_prop in S as [S1 S2]. inversion F; subst.
    change (spacedBy gap ((a :: b :: l) ++ [now])) with
      ((b - a >=? gap) && spacedBy gap ((b :: l) ++ [now])).
    rewrite S1. now apply IH.
Qed.

Lemma paced_later gap clock clock' s :
  clock <= clock' -> paced gap clock s -> paced gap clock' s.
Proof.
  intros L (P1 & P2 & P3 & P4 & P5 & P6 & P7 & P8).
  repeat split; try assumption. lia.
Qed.

(** Issuing a request at [now], [gap] or more after the last stamp. *)
Lemma issueRequest_paced gap now task s :
  minRequestInterval s = gap ->
  spacedBy gap (requestTimes s) = true ->
  Forall (fun time => time <= lastRequestTime s) (requestTimes s) ->
  lastRequestTime s + gap <= now -> lastRequestTime s <= now ->
  let r := issueRequest now task (with_lastRequestTime now s) in
  (fst r = Fetching \/ fst r = Settled)
  /\ minRequestInterval (snd r) = gap
  /\ lastRequestTime (snd r) = now
  /\ spacedBy gap (requestTimes (snd r)) = true
  /\ Forall (fun time => time <= now) (requestTimes (snd r))
  /\ inflight (snd r) = inflight s
  /\ activeDownloads (snd r) = activeDownloads s
  /\ maxConcurrent (snd r) = maxConcurrent s.
Proof.
  intros G S F L1 L2. unfold issueRequest. cbv zeta.
  assert (F' : Forall (fun time => time <= now) (requestTimes s)).
  { eapply Forall_impl; [|exact F]. cbv beta. intros; lia. }
  destruct (Sources.getTileUrl _ _ _ _ _) as [u|]; cbn [fst snd].
  - unfold requestTimes in *. fields. rewrite map_app. cbn [map req_time].
    repeat split; auto.
    + apply spacedBy_snoc; [assumption|].
      eapply Forall_impl; [|exact F]. cbv beta. intros; lia.
    + apply Forall_app. split; [assumption|]. constructor; [lia|constructor].
  - pose proof (handleTileFailed_clockwork (task_jobId task)
                  (with_counter (counter (with_lastRequestTime now s) + 1)
                     (with_lastRequestTime now s))) as C.
    fields. unfold clockwork in C. injection C as C1 C2 C3 C4 C5 C6.
    unfold requestTimes in *. rewrite C1, C2, C3, C4, C5, C6. fields.
    repeat split; auto.
Qed.

Lemma downloadTile_paced gap now task s :
  paced gap now s -> inflight s = [] ->
  paced gap now
    (downloadTile now task (with_activeDownloads (activeDownloads s + 1) s)).
Proof.
  intros (P1 & P2 & P3 & P4 & P5 & P6 & P7 & P8) E.
  assert (A0 : activeDownloads s = 0)
    by (unfold slotsMatch in P3; rewrite E in P3; exact P3).
  unfold downloadTile. fields.
  destruct (Z.ltb_spec (now - lastRequestTime s) (minRequestInterval s))
    as [W|W].
  - unfold paced, slotsMatch, requestTimes in *. fields. rewrite E.
    cbn [app length]. repeat split; try assumption; try lia.
    constructor; [|constructor]. unfold waitsLongEnough.
    cbn [fetch_phase]. fields. lia.
  - pose proof (@issueRequest_paced gap now task
                  (with_activeDownloads (activeDownloads s + 1) s)) as I.
    fields. specialize (I P2 P5 P6 ltac:(lia) P7). cbv zeta in I.
    destruct (issueRequest now task
                (with_lastRequestTime now
                   (with_activeDownloads (activeDownloads s + 1) s)))
      as [ph s1].
    cbn [fst snd] in I.
    destruct I as (I1 & I2 & I3 & I4 & I5 & I6 & I7 & I8).
    unfold paced, slotsMatch. fields. rewrite I6, I7, I8, E, A0, I3.
    cbn [app length]. repeat split; try assumption; try lia.
    constructor; [|constructor]. unfold waitsLongEnough. cbn [fetch_phase].
    now destruct I1 as [-> | ->].
Qed.

Lemma startTasks_paced gap now :
  forall q s, paced gap now s -> paced gap now (startTasks now q s).
Proof.
  induction q as [|task q IH]; intros s P; cbn [startTasks].
  - apply (paced_clockwork (s := s)); [reflexivity | exact P].
  - destruct (Z.ltb_spec (activeDownloads s) (maxConcurrent s)) as [L|L].
    + apply IH. apply downloadTile_paced; [exact P|].
      destruct P as (P1 & _ & P3 & _). unfold slotsMatch in P3.
      destruct (inflight s); [reflexivity|]. cbn [length] in P3. lia.
    + apply (paced_clockwork (s := s)); [reflexivity | exact P].
Qed.

Lemma processQueue_paced gap now s :
  paced gap now s -> paced gap now (processQueue now s).
Proof.
  intros P. unfold processQueue.
  apply (paced_clockwork (s := startTasks now (queue s) s)).
  - apply checkJobs_clockwork.
  - now apply startTasks_paced.
Qed.

Lemma step_paced gap clock now e s s' :
  clock <= now -> paced gap clock s -> step now e s = Some s' ->
  paced gap now s'.
Proof.
  intros L P S. apply (@paced_later gap clock now s L) in P.
  destruct e as [i|i r|i|k sr tiles|k]; cbn [step] in S.
  - destruct (nth_error (inflight s) i) as [[task [w| |]]|] eqn:N;
      try discriminate.
    destruct (Z.leb_spec w now) as [Lw|Lw]; [|discriminate].
    destruct P as (P1 & P2 & P3 & P4 & P5 & P6 & P7 & P8).
    assert (one : inflight s = [mkFetch task (RateWait w)] /\ i = 0%nat).
    { unfold slotsMatch in P3. destruct (inflight s) as [|f [|g l]];
        cbn [length] in P3; try lia.
      - destruct i; discriminate.
      - destruct i as [|[|i]]; cbn in N; try discriminate.
        injection N as ->. auto. }
    destruct one as [E ->].
    assert (Wt : lastRequestTime s + gap <= w).
    { rewrite E in P8. inversion P8 as [|? ? H _]; subst. exact H. }
    pose proof (@issueRequest_paced gap now task s P2 P5 P6 ltac:(lia) P7)
      as I.
    cbv zeta in I.
    destruct (issueRequest now task (with_lastRequestTime now s))
      as [ph s1].
    cbn [fst snd] in I.
    destruct I as (I1 & I2 & I3 & I4 & I5 & I6 & I7 & I8).
    injection S as <-. unfold setPhase. rewrite I6, E. cbn [nth_error].
    unfold paced, slotsMatch. fields. cbn [replaceNth length fetch_task].
    rewrite I7, I8, I3. unfold slotsMatch in P3. rewrite E in P3.
    cbn [length] in P3.
    repeat split; try assumption; try lia.
    constructor; [|constructor]. unfold waitsLongEnough. cbn [fetch_phase].
    now destruct I1 as [-> | ->].
  - destruct (nth_error (inflight s) i) as [[task [w| |]]|] eqn:N;
      try discriminate.
    injection S as <-.
    match goal with
    | |- paced gap now (setPhase i Settled ?s1) =>
        assert (C : clockwork s1 = clockwork s); [|set (s1' := s1) in *]
    end.
    { destruct r.
      - now rewrite handleTileDownloaded_clockwork.
      - apply handleTileFailed_clockwork. }
    apply (paced_clockwork C) in P. unfold clockwork in C.
    injection C as C1 C2 C3 C4 C5 C6.
    clearbody s1'. unfold setPhase. rewrite C4, N.
    destruct P as (P1 & P2 & P3 & P4 & P5 & P6 & P7 & P8).
    unfold paced, slotsMatch, requestTimes in *. fields.
    rewrite length_replaceNth.
    repeat split; try assumption; try congruence.
    apply Forall_forall. intros f Hf. apply In_replaceNth in Hf as [->|Hf].
    + exact I.
    + rewrite Forall_forall in P8. rewrite C4 in P8.
      unfold waitsLongEnough in *. fields. now apply P8.
  - destruct (nth_error (inflight s) i) as [[task [w| |]]|] eqn:N;
      try discriminate.
    injection S as <-. apply processQueue_paced.
    destruct P as (P1 & P2 & P3 & P4 & P5 & P6 & P7 & P8).
    unfold paced, slotsMatch, requestTimes in *. fields.
    pose proof (length_removeNth _ _ N) as Ln.
    repeat split; try assumption; try lia.
    apply Forall_forall. intros f Hf. apply In_removeNth in Hf.
    rewrite Forall_forall in P8. unfold waitsLongEnough in *. fields.
    now apply P8.
  - injection S as <-. rewrite startJob_eq. apply processQueue_paced.
    apply (paced_clockwork (s := s)); [|exact P].
    unfold startJobQueued. cbv zeta. now rewrite queueTiles_clockwork.
  - injection S as <-.
    apply (paced_clockwork (s := s)); [|exact P]. apply cancelJob_clockwork.
Qed.

Lemma run_paced gap :
  forall evs clock s s',
    paced gap clock s -> chronological clock evs = true ->
    run evs s = Some s' -> exists clock', paced gap clock' s'.
Proof.
  induction evs as [|[now e] evs IH]; intros clock s s' P C R;
    cbn [run chronological] in *.
  - injection R as <-. eauto.
  - destruct (step now e s) as [s1|] eqn:S; [|discriminate].
    apply andb_prop in C as [C1 C2]. apply Z.leb_le in C1.
    exact (IH now s1 s' (@step_paced gap clock now e s s1 C1 P S) C2 R).
Qed.



End PacingProps.

(* ================================================================== *)
(** * The facade: estimates, downloads, deletion, metadata *)
(* ================================================================== *)

Module ApiProps.
Import TileCalculator TileForge CalculatorProps JsMapProps.

(** ** Estimates *)

Lemma count_is_length b lo hi :
  calculateTileCount b lo hi = Z.of_nat (length (getTileList b lo hi)).
Proof.
  unfold calculateTileCount, getTileList. rewrite flat_map_length_sum.
  apply fold_left_ext_in. intros acc zoom _.
  destruct (getTileBounds_ordered b zoom) as [HX HY].
  now rewrite tilesOfBounds_length.
Qed.

Lemma count_at_least_levels b lo hi :
  lo <= hi -> hi - lo + 1 <= calculateTileCount b lo hi.
Proof.
  intros L. unfold calculateTileCount.
  assert (G : forall zs acc,
             acc + Z.of_nat (length zs)
             <= fold_left
                  (fun count z =>
                     let tileBounds := getTileBounds b z in
                     let width := maxX tileBounds - minX tileBounds + 1 in
                     let height := maxY tileBounds - minY tileBounds + 1 in
                     count + width * height) zs acc).
  { induction zs as [|k zs IH]; intros acc; cbn [fold_left length]; [lia|].
    cbv zeta. destruct (getTileBounds_ordered b k) as [HX HY].
    etransitivity; [|apply IH]. nia. }
  specialize (G (zrange lo hi) 0). rewrite zrange_length in G.
  eapply Z.le_trans; [|exact G]. lia.
Qed.

Lemma Math_round_near q :
  (inject_Z (TileDownloader.Math_round q) - (1 # 2) <= q)%Q
  /\ (q <= inject_Z (TileDownloader.Math_round q) + (1 # 2))%Q.
Proof.
  unfold TileDownloader.Math_round.
  pose proof (Qfloor_le (q + (1 # 2))) as L.
  pose proof (Qlt_floor (q + (1 # 2))) as U.
  rewrite inject_Z_plus in U. apply Qlt_le_weak in U.
  set (f := inject_Z (Qfloor (q + (1 # 2)))) in *.
  split.
  - apply Qplus_le_l with (z := 1 # 2).
    setoid_replace (f - (1 # 2) + (1 # 2))%Q with f by ring. exact L.
  - apply Qplus_le_l with (z := 1 # 2).
    setoid_replace (f + (1 # 2) + (1 # 2))%Q with (f + inject_Z 1)%Q by ring.
    exact U.
Qed.

Lemma hundredth_near q :
  let shown := (inject_Z (TileDownloader.Math_round (q * (100 # 1)))
                / (100 # 1))%Q in
  (shown - (1 # 200) <= q)%Q /\ (q <= shown + (1 # 200))%Q.
Proof.
  cbv zeta. destruct (Math_round_near (q * (100 # 1))) as [L U].
  set (f := inject_Z (TileDownloader.Math_round (q * (100 # 1)))) in *.
  split.
  - apply Qmult_le_r with (z := 100 # 1); [reflexivity|].
    setoid_replace ((f / (100 # 1) - (1 # 200)) * (100 # 1))%Q
      with (f - (1 # 2))%Q by field. exact L.
  - apply Qmult_le_r with (z := 100 # 1); [reflexivity|].
    setoid_replace ((f / (100 # 1) + (1 # 200)) * (100 # 1))%Q
      with (f + (1 # 2))%Q by field. exact U.
Qed.


(** ** A download of tiles that are all stored *)

Import TileDownloader SchedulerProps JobInvariant.

Lemma hasTile_with_jobs z x y source rows d :
  fst (TileDatabase.hasTile z x y source (TileDatabase.with_jobs rows d))
  = fst (TileDatabase.hasTile z x y source d).
Proof.
  unfold TileDatabase.hasTile.
  cbn [TileDatabase.cache TileDatabase.tiles TileDatabase.with_jobs].
  now destruct (JsMap.has _ _).
Qed.

Lemma filter_none (Row : Type) (keep : Row -> bool) (rows : list Row) :
  Forall (fun r => keep r = false) rows -> filter keep rows = [].
Proof.
  induction 1 as [|a l Ha _ IH]; cbn [filter]; [reflexivity|].
  now rewrite Ha.
Qed.

Lemma filter_every (Row : Type) (keep : Row -> bool) (rows : list Row) :
  Forall (fun r => keep r = true) rows -> filter keep rows = rows.
Proof.
  induction 1 as [|a l Ha _ IH]; cbn [filter]; [reflexivity|].
  now rewrite Ha, IH.
Qed.

(** [startJob] on tiles that are all stored, in a scheduler at rest. *)
Lemma startJob_all_stored now j src tiles s0 :
  queue s0 = [] -> inflight s0 = [] -> activeDownloads s0 = 0 ->
  1 <= maxConcurrent s0 ->
  Forall (fun t => fst (TileDatabase.hasTile (z t) (x t) (y t) src (db s0))
                   = true) tiles ->
  let s1 := startJob now j src tiles s0 in
  clockwork s1 = clockwork s0
  /\ JsMap.get j (activeJobs s1) = None
  /\ forall r, In r (registryRows j s1) ->
               TileDatabase.downloadedTiles r = 0
               /\ TileDatabase.status r = TileDatabase.completed.
Proof.
  intros Q I A C F. cbv zeta.
  assert (M : slotsMatch s0) by (unfold slotsMatch; now rewrite A, I).
  assert (Qt : quiet j s0).
  { unfold quiet, queued, pending. now rewrite Q, I. }
  assert (Cw : clockwork (startJob now j src tiles s0) = clockwork s0).
  { rewrite startJob_eq. unfold processQueue.
    assert (E : queue (startJobQueued now j src tiles s0) = []).
    { unfold startJobQueued. cbv zeta.
      match goal with
      | |- context [fold_left _ tiles ?s] =>
          destruct (queueTiles_effect j src tiles s)
            as (_ & _ & _ & _ & _ & _ & Q7 & _)
      end.
      rewrite Q7. fields. rewrite Q. cbn [app].
      rewrite filter_none; [reflexivity|].
      eapply Forall_impl; [|exact F]. intros t Ht. cbv beta in *.
      now rewrite hasTile_updateJobStatus, Ht. }
    rewrite PacingProps.checkJobs_clockwork, E. cbn [startTasks].
    transitivity (clockwork (startJobQueued now j src tiles s0));
      [reflexivity|].
    unfold startJobQueued. cbv zeta.
    now rewrite PacingProps.queueTiles_clockwork. }
  destruct (@JobProps.startJob_idleDone now j src tiles s0 M Qt C)
    as (_ & _ & D).
  pose proof (@JobProps.startJob_established now j src tiles s0 False False
                ltac:(tauto) Qt ltac:(tauto)) as [Acc _].
  set (s1 := startJob now j src tiles s0) in *.
  split; [exact Cw|].
  assert (A1 : activeDownloads s1 = 0).
  { unfold clockwork in Cw. injection Cw as _ _ _ _ E _. now rewrite E. }
  specialize (D A1). split; [exact D|].
  unfold accounting, jview in Acc. cbn [v_job v_stats v_done v_rows] in Acc.
  rewrite D in Acc.
  destruct (JsMap.get j (downloadStats s1)); [destruct Acc|].
  destruct Acc as (_ & d & f & Hd & Hf & Hs & _ & _ & Hr).
  assert (K : alreadyStored src tiles (db s0) = Z.of_nat (length tiles)).
  { unfold alreadyStored. now rewrite filter_every. }
  rewrite K in Hs. assert (d = 0) by lia. assert (f = 0) by lia. subst d f.
  exact Hr.
Qed.

(** X19.  When every tile of the request is stored already and the
    scheduler is at rest, [download] finishes the job before it returns:
    it issues no request, the job is not active afterwards, and the
    registry, from which [getJobStatus] then answers, holds it as
    [completed] with no tile downloaded and a progress of 0, while the
    value returned by [download] says [running]. *)
Theorem download_of_stored_tiles_completes_at_once :
  forall (now : Z) (jobId name source : string) (bounds : GeoBounds)
         (minZoom maxZoom : Z) (s : TileForge.t),
    Sources.isValidSource source = true ->
    isValidBounds bounds = true ->
    isValidZoomRange minZoom maxZoom = true ->
    TileDatabase.getJob jobId (database s) = None ->
    queue s = [] -> inflight s = [] -> activeDownloads s = 0 ->
    1 <= maxConcurrent s ->
    Forall (fun t => fst (TileDatabase.hasTile (z t) (x t) (y t) source
                            (database s)) = true)
           (getTileList bounds minZoom maxZoom) ->
    exists r s' st,
      download now jobId name source bounds minZoom maxZoom s
      = (Returned r, s')
      /\ dr_status r = TileDatabase.running
      /\ requests s' = requests s
      /\ isJobActive jobId s' = false
      /\ TileForge.getJobStatus jobId s' = Some (StoredReport st)
      /\ ss_status st = TileDatabase.completed
      /\ ss_downloadedTiles st = 0
      /\ ss_progress st = 0.
Proof.
  intros now j nm src b lo hi s Vs Vb Vz G Q I A C F. unfold download.
  rewrite Vs, Vb, Vz. cbn [negb]. cbv zeta.
  unfold TileDatabase.createDownloadJob. rewrite G.
  set (tiles := getTileList b lo hi) in *.
  set (d := TileDatabase.with_jobs _ (database s)).
  set (s0 := with_db d s).
  destruct (@startJob_all_stored now j src tiles s0) as (Cw & Dn & Rows);
    try assumption.
  { eapply Forall_impl; [|exact F]. intros t Ht. cbv beta in *.
    unfold s0, d. fields. now rewrite hasTile_with_jobs. }
  set (s1 := startJob now j src tiles s0) in *.
  assert (In j (jobIds s1)) as Hin.
  { unfold s1.
    rewrite (@step_ids now (CallStartJob j src tiles) s0 _ eq_refl).
    unfold jobIds, s0, d. fields.
    cbn [TileDatabase.download_jobs TileDatabase.with_jobs].
    rewrite map_app. apply in_or_app. right. now left. }
  apply getJob_ids in Hin.
  destruct (TileDatabase.getJob j (db s1)) as [row|] eqn:Gr; [|now elim Hin].
  destruct (Rows row (getJob_row _ _ Gr)) as [R0 Rc].
  eexists _, s1, (storedStatus row). split; [reflexivity|].
  split; [reflexivity|]. split.
  { unfold clockwork in Cw. injection Cw as E _ _ _ _ _. exact E. }
  split; [unfold isJobActive; now apply get_none_has|]. split.
  { unfold TileForge.getJobStatus, TileDownloader.getJobStatus.
    rewrite Dn. unfold database. now rewrite Gr. }
  unfold storedStatus. cbn [ss_status ss_downloadedTiles ss_progress].
  split; [exact Rc|]. split; [exact R0|]. rewrite R0.
  destruct (_ >? 0); [|reflexivity].
  unfold Math_round.
  assert (E : ((inject_Z 0 / inject_Z (TileDatabase.totalTiles row)
                * (100 # 1)) + (1 # 2) == 1 # 2)%Q).
  { unfold Qdiv. now rewrite Qmult_0_l, Qmult_0_l, Qplus_0_l. }
  now rewrite E.
Qed.

Lemma world_tile_only b :
  isValidBounds b = true ->
  (- (85 # 1) <= south b)%Q -> (north b <= 85 # 1)%Q ->
  (east b < 180 # 1)%Q -> (west b < 180 # 1)%Q ->
  getTileList b 0 0 = [mkTile 0 0 0].
Proof.
  intros V S N E W. apply isValidBounds_spec in V.
  destruct V as (_ & _ & He & Hw & Hsn).
  destruct (@tileX_range (east b) 0 ltac:(lia) He) as [XE1 XE2].
  destruct (@tileX_range (west b) 0 ltac:(lia) Hw) as [XW1 XW2].
  apply XE2 in E. apply XW2 in W.
  assert (YN : onMercatorMap (north b)).
  { apply onMercatorMap_within_85. split; [|assumption].
    apply Qle_trans with (south b); [assumption | now apply Qlt_le_weak]. }
  assert (YS : onMercatorMap (south b)).
  { apply onMercatorMap_within_85. split; [assumption|].
    apply Qle_trans with (north b); [now apply Qlt_le_weak | assumption]. }
  apply (@tileY_range (north b) 0 ltac:(lia)) in YN.
  apply (@tileY_range (south b) 0 ltac:(lia)) in YS.
  change (2 ^ 0 - 1) with 0 in *.
  unfold getTileList. change (zrange 0 0) with [0]. cbn [flat_map].
  rewrite app_nil_r. unfold tilesOfBounds, getTileBounds, latLngToTile.
  cbn [minX maxX minY maxY tbz x y].
  replace (tileX (west b) 0) with 0 by lia.
  replace (tileX (east b) 0) with 0 by lia.
  replace (tileY (north b) 0) with 0 by lia.
  replace (tileY (south b) 0) with 0 by lia.
  reflexivity.
Qed.

Lemma download_of_stored_tiles_completes_at_once_witness :
  exists r s' st,
    download 1000 "job-9" "world" "arcgis"
      (mkBounds (1 # 1) (0 # 1) (1 # 1) (0 # 1)) 0 0 worldStored
    = (Returned r, s')
    /\ dr_status r = TileDatabase.running
    /\ requests s' = requests worldStored
    /\ isJobActive "job-9" s' = false
    /\ TileForge.getJobStatus "job-9" s' = Some (StoredReport st)
    /\ ss_status st = TileDatabase.completed
    /\ ss_downloadedTiles st = 0
    /\ ss_progress st = 0.
Proof.
  apply (@download_of_stored_tiles_completes_at_once 1000 "job-9" "world"
           "arcgis" (mkBounds (1 # 1) (0 # 1) (1 # 1) (0 # 1)) 0 0
           worldStored);
    try reflexivity; try discriminate.
  rewrite world_tile_only by solve [reflexivity | discriminate].
  constructor; [reflexivity | constructor].
Defined.

(** ** Deleting a job *)

Import TileDatabase(getJob).

Lemma getJob_cancelJob now k j s :
  j <> k ->
  getJob j (db (snd (cancelJob now k s))) = getJob j (db s).
Proof.
  intros N. unfold cancelJob.
  destruct (JsMap.get k (activeJobs s)); cbn [snd]; fields; [|reflexivity].
  unfold TileDatabase.updateJobStatus.
  rewrite RegistryProps.getJob_updateRow by reflexivity.
  now destruct (String.eqb_spec j k).
Qed.

Lemma getJob_deleteTilesForJob j source bounds lo hi d :
  getJob j (snd (TileDatabase.deleteTilesForJob source bounds lo hi d))
  = getJob j d.
Proof. now rewrite StoreProps.deleteTilesForJob_eq. Qed.


(** ** Metadata of a job *)

(** X21.  [renameJob] and [updateJobLocation] answer [false] for an id
    that is not registered and change nothing.  For a registered id they
    answer [true] and rewrite in its row the name, respectively the
    country and the city, and [updatedAt]; every other row, the tiles,
    the cache and the scheduler stay as they are. *)
Theorem metadata_updates_touch_their_fields :
  forall (now : Z) (jobId newName : string) (country city : option string)
         (s : TileForge.t),
    match getJob jobId (database s) with
    | None =>
        renameJob now jobId newName s = (false, s)
        /\ updateJobLocation now jobId country city s = (false, s)
    | Some row =>
        let r := renameJob now jobId newName s in
        let u := updateJobLocation now jobId country city s in
        fst r = true /\ fst u = true
        /\ getJob jobId (database (snd r))
           = Some (TileDatabase.set_name newName now row)
        /\ getJob jobId (database (snd u))
           = Some (TileDatabase.set_location country city now row)
        /\ (forall j, j <> jobId ->
              getJob j (database (snd r)) = getJob j (database s)
              /\ getJob j (database (snd u)) = getJob j (database s))
        /\ (forall d, with_db d (snd r) = with_db d s)
        /\ (forall d, with_db d (snd u) = with_db d s)
        /\ TileDatabase.tiles (database (snd r))
           = TileDatabase.tiles (database s)
        /\ TileDatabase.cache (database (snd r))
           = TileDatabase.cache (database s)
        /\ TileDatabase.tiles (database (snd u))
           = TileDatabase.tiles (database s)
        /\ TileDatabase.cache (database (snd u))
           = TileDatabase.cache (database s)
    end.
Proof.
  intros now j nm co ci s. unfold renameJob, updateJobLocation.
  destruct (getJob j (database s)) as [row|] eqn:G; [|now split].
  cbv zeta. cbn [fst snd]. unfold database in *. fields.
  unfold TileDatabase.renameJob, TileDatabase.updateJobLocation.
  rewrite !RegistryProps.getJob_updateRow by reflexivity.
  rewrite String.eqb_refl, G. cbn [option_map].
  repeat split; try reflexivity;
    rewrite RegistryProps.getJob_updateRow by reflexivity;
    now destruct (String.eqb_spec j0 j).
Qed.

End ApiProps.

(* ================================================================== *)
(** * The facade: extending a job, serving tiles *)
(* ================================================================== *)

Module ExtendProps.
Import TileCalculator TileDownloader JsMapProps SchedulerProps.
Import TileDatabase(holdings, requestOf, getJob).

(** ** What the scheduler leaves alone in the store *)

Lemma holdings_updateRow k f d :
  (forall r, requestOf (f r) = requestOf r) ->
  holdings (TileDatabase.updateRow k f d) = holdings d.
Proof.
  intros Hf. unfold holdings, TileDatabase.updateRow.
  cbn [TileDatabase.download_jobs TileDatabase.tiles TileDatabase.with_jobs].
  f_equal.
  induction (TileDatabase.download_jobs d) as [|r rows IH]; cbn [map];
    [reflexivity|].
  rewrite IH. destruct (String.eqb _ _); [now rewrite Hf|reflexivity].
Qed.

Lemma holdings_updateJobStatus now k st d :
  holdings (TileDatabase.updateJobStatus now k st d) = holdings d.
Proof. now apply holdings_updateRow. Qed.

Lemma holdings_updateJobProgress now k n d :
  holdings (TileDatabase.updateJobProgress now k n d) = holdings d.
Proof. now apply holdings_updateRow. Qed.

Lemma completeJob_holdings now k s :
  holdings (db (completeJob now k s)) = holdings (db s).
Proof.
  unfold completeJob. break_match; fields; try reflexivity;
    now rewrite holdings_updateJobStatus, holdings_updateJobProgress.
Qed.

Lemma checkJobs_holdings now s :
  holdings (db (checkJobs now s)) = holdings (db s).
Proof.
  unfold checkJobs. generalize (JsMap.keys (activeJobs s)). intros ks.
  revert s. induction ks as [|k ks IH]; intros s; cbn [fold_left];
    [reflexivity|].
  rewrite IH. break_match; try reflexivity; apply completeJob_holdings.
Qed.

Lemma startJob_holdings now k sr tiles s :
  holdings (db (startJob now k sr tiles s)) = holdings (db s).
Proof.
  rewrite startJob_eq. unfold processQueue.
  rewrite checkJobs_holdings, startTasks_db.
  unfold startJobQueued. cbv zeta.
  match goal with
  | |- context [fold_left ?f tiles ?s0] =>
      destruct (@queueTiles_effect k sr tiles s0) as (D & _)
  end.
  rewrite D. fields. apply holdings_updateJobStatus.
Qed.

Lemma getJob_holdings j d d' :
  holdings d = holdings d' ->
  option_map requestOf (getJob j d) = option_map requestOf (getJob j d').
Proof.
  unfold holdings, getJob. intros E. injection E as E _.
  revert E. generalize (TileDatabase.download_jobs d').
  induction (TileDatabase.download_jobs d) as [|r rows IH];
    intros [|r' rows'] E; try discriminate; [reflexivity|].
  cbn [map] in E.
  assert (Er : requestOf r = requestOf r') by congruence.
  assert (Et : map requestOf rows = map requestOf rows') by congruence.
  assert (Ei : TileDatabase.id r = TileDatabase.id r')
    by (unfold requestOf in Er; congruence).
  cbn [find]. rewrite Ei.
  destruct (String.eqb (TileDatabase.id r') j); [|now apply IH].
  cbn [option_map]. now rewrite Er.
Qed.

(** X22.  [extendJob] replaces the zoom range of a job rather than
    adding to it.  For a registered job and an accepted zoom range it
    returns, and afterwards the row of the job holds the new range and,
    as [totalTiles], the number of tiles of the bounds of the job in the
    new range alone, with the name, the source, the bounds and the
    creation time it had; what the other jobs were requested with and
    the stored tiles are left as they are. *)
Theorem extendJob_replaces_the_zoom_range :
  forall (now : Z) (jobId : string) (minZoom maxZoom : Z) (s : TileForge.t)
         (job : TileDatabase.JobRow),
    getJob jobId (TileForge.database s) = Some job ->
    isValidZoomRange minZoom maxZoom = true ->
    let tiles := getTileList (TileDatabase.bounds job) minZoom maxZoom in
    exists r s' row,
      TileForge.extendJob now jobId minZoom maxZoom s = (TileForge.Returned r, s')
      /\ TileForge.er_totalTiles r = Z.of_nat (length tiles)
      /\ getJob jobId (TileForge.database s') = Some row
      /\ TileDatabase.minZoom row = minZoom
      /\ TileDatabase.maxZoom row = maxZoom
      /\ TileDatabase.totalTiles row = Z.of_nat (length tiles)
      /\ TileDatabase.name row = TileDatabase.name job
      /\ TileDatabase.source row = TileDatabase.source job
      /\ TileDatabase.bounds row = TileDatabase.bounds job
      /\ TileDatabase.createdAt row = TileDatabase.createdAt job
      /\ (forall j, j <> jobId ->
            option_map requestOf (getJob j (TileForge.database s'))
            = option_map requestOf (getJob j (TileForge.database s)))
      /\ TileDatabase.tiles (TileForge.database s')
         = TileDatabase.tiles (TileForge.database s).
Proof.
  intros now k lo hi s job G V tiles. unfold TileForge.extendJob.
  rewrite G, V. cbn [negb]. cbv zeta. fold tiles.
  set (d1 := TileDatabase.updateJobStatus now k TileDatabase.running
               (TileDatabase.updateJobZoomLevels now k lo hi
                  (Z.of_nat (length tiles)) (TileForge.database s))).
  set (s' := startJob now k (TileDatabase.source job) tiles (with_db d1 s)).
  assert (H : holdings (TileForge.database s') = holdings d1)
    by (unfold s', TileForge.database; now rewrite startJob_holdings).
  assert (G1 : forall j,
             getJob j d1
             = if String.eqb j k
               then option_map
                      (fun r => TileDatabase.set_status TileDatabase.running
                                  now
                                  (TileDatabase.set_zoom lo hi
                                     (Z.of_nat (length tiles)) now r))
                      (getJob j (TileForge.database s))
               else getJob j (TileForge.database s)).
  { intros j. unfold d1, TileDatabase.updateJobStatus,
      TileDatabase.updateJobZoomLevels.
    rewrite !RegistryProps.getJob_updateRow by reflexivity.
    destruct (String.eqb j k); [|reflexivity].
    now destruct (getJob j (TileForge.database s)). }
  pose proof (@getJob_holdings k _ _ H) as Hk.
  rewrite (G1 k), String.eqb_refl, G in Hk. cbn [option_map] in Hk.
  destruct (getJob k (TileForge.database s')) as [row|] eqn:Gk;
    [|discriminate].
  cbn [option_map] in Hk. unfold requestOf in Hk.
  cbn [TileDatabase.set_status TileDatabase.set_zoom TileDatabase.id
         TileDatabase.name TileDatabase.source TileDatabase.bounds
         TileDatabase.minZoom TileDatabase.maxZoom TileDatabase.totalTiles
         TileDatabase.country TileDatabase.city TileDatabase.createdAt] in Hk.
  injection Hk; intros.
  eexists _, s', row. split; [reflexivity|].
  cbn [TileForge.er_totalTiles].
  repeat (split; [first [reflexivity | assumption]|]).
  split.
  - intros j N. rewrite (@getJob_holdings j _ _ H), (G1 j).
    now destruct (String.eqb_spec j k).
  - unfold holdings in H. injection H as _ H. rewrite H.
    unfold d1, TileDatabase.updateJobStatus, TileDatabase.updateJobZoomLevels.
    reflexivity.
Qed.

Lemma extendJob_replaces_the_zoom_range_witness :
  let job :=
    TileDatabase.mkJobRow "job-1" "four tiles" "arcgis"
      (mkBounds (85 # 1) (- (85 # 1)) (179 # 1) (- (179 # 1)))
      1 1 4 0 TileDatabase.pending None None 950 950 in
  let tiles := getTileList (TileDatabase.bounds job) 2 3 in
  exists r s' row,
    TileForge.extendJob 1000 "job-1" 2 3 TileForge.registered
    = (TileForge.Returned r, s')
    /\ TileForge.er_totalTiles r = Z.of_nat (length tiles)
    /\ getJob "job-1" (TileForge.database s') = Some row
    /\ TileDatabase.minZoom row = 2
    /\ TileDatabase.maxZoom row = 3
    /\ TileDatabase.totalTiles row = Z.of_nat (length tiles)
    /\ TileDatabase.name row = TileDatabase.name job
    /\ TileDatabase.source row = TileDatabase.source job
    /\ TileDatabase.bounds row = TileDatabase.bounds job
    /\ TileDatabase.createdAt row = TileDatabase.createdAt job
    /\ (forall j, j <> "job-1"%string ->
          option_map requestOf (getJob j (TileForge.database s'))
          = option_map requestOf
              (getJob j (TileForge.database TileForge.registered)))
    /\ TileDatabase.tiles (TileForge.database s')
       = TileDatabase.tiles (TileForge.database TileForge.registered).
Proof.
  intros job.
  apply (@extendJob_replaces_the_zoom_range 1000 "job-1" 2 3
           TileForge.registered job); reflexivity.
Defined.

(** ** Serving tiles *)

(** X23.  [getTile] of the facade serves only tiles of the grid: for
    coordinates that [isValidTile] rejects it answers [null] without
    asking the store, also when the store holds such a tile and
    [hasTile], which does not check the coordinates, reports it; for
    coordinates of the grid it answers the data of the stored row, so
    there it finds a tile exactly when [hasTile] reports one. *)
Theorem getTile_serves_only_grid_tiles :
  forall (s : TileForge.t) (source : string) (z x y : Z),
    TileDatabase.wellFormed (TileForge.database s) ->
    let stored :=
      TileDatabase.stmt_getTile z x y source
        (TileDatabase.tiles (TileForge.database s)) in
    TileForge.getTile source z x y s
    = (if isValidTile x y z
       then (option_map TileDatabase.row_data stored,
             snd (TileForge.getTile source z x y s))
       else (None, s))
    /\ fst (TileForge.hasTile source z x y s)
       = (match stored with Some _ => true | None => false end)
    /\ (isValidTile x y z = true ->
        (fst (TileForge.hasTile source z x y s) = true
         <-> fst (TileForge.getTile source z x y s) <> None)).
Proof.
  intros s source z x y W stored.
  destruct (@CacheProps.getTile_reads_table _ z x y source W) as [Gt Ht].
  rewrite CacheProps.stmt_hasTile_getTile in Ht. fold stored in Gt, Ht.
  assert (Hh : fst (TileForge.hasTile source z x y s)
               = match stored with Some _ => true | None => false end).
  { unfold TileForge.hasTile.
    destruct (TileDatabase.hasTile z x y source (TileForge.database s)).
    exact Ht. }
  assert (Hg : isValidTile x y z = true ->
               fst (TileForge.getTile source z x y s)
               = option_map TileDatabase.row_data stored).
  { intros V. unfold TileForge.getTile. rewrite V. cbn [negb].
    destruct (TileDatabase.getTile z x y source (TileForge.database s)).
    exact Gt. }
  split; [|split].
  - destruct (isValidTile x y z) eqn:V.
    + rewrite <- (Hg eq_refl). now destruct (TileForge.getTile source z x y s).
    + unfold TileForge.getTile. now rewrite V.
  - exact Hh.
  - intros V. rewrite Hh, (Hg V).
    destruct stored; cbn [option_map]; split; congruence.
Qed.

Lemma getTile_serves_only_grid_tiles_witness :
  let s := TileForge.worldStored in
  let stored :=
    TileDatabase.stmt_getTile 0 0 5 "arcgis"
      (TileDatabase.tiles (TileForge.database s)) in
  TileForge.getTile "arcgis" 0 0 5 s
  = (if isValidTile 0 5 0
     then (option_map TileDatabase.row_data stored,
           snd (TileForge.getTile "arcgis" 0 0 5 s))
     else (None, s))
  /\ fst (TileForge.hasTile "arcgis" 0 0 5 s)
     = (match stored with Some _ => true | None => false end)
  /\ (isValidTile 0 5 0 = true ->
      (fst (TileForge.hasTile "arcgis" 0 0 5 s) = true
       <-> fst (TileForge.getTile "arcgis" 0 0 5 s) <> None)).
Proof.
  apply (@getTile_serves_only_grid_tiles TileForge.worldStored "arcgis"
           0 0 5).
  apply CacheProps.wellFormed_saveTile, CacheProps.wellFormed_create.
Defined.

End ExtendProps.
